(** * Durable workflow execution: the operation log of [WorkflowContextImpl]

    A shallow embedding of the workflow context of the runtime
    (src/workflow.ts) and of its replay twin (src/debugger/debug_workflow.ts):
    the per-workflow step counter, the read-only result buffer, the guarded
    write protocol on [dbos.transaction_outputs], the retry loops of
    transactional and non-transactional steps, and child-workflow naming.

    Asynchronous code is modelled sequentially: every [await] is a plain
    call, the database is a finite map that changes only through the calls
    of the modelled context, and a database transaction either commits what
    its callback wrote or, when the callback throws, restores the tables. *)

From Stdlib Require Import ZArith QArith Qround String List Lia DecimalString.
From Stdlib Require Import Ascii DecimalNat.
From stdpp Require Import gmap strings list fin_maps sorting.

Local Open Scope string_scope.
Local Open Scope list_scope.
Local Set Warnings "-register-all".

(** ** JavaScript values *)

(** A JSON document: what [JSON.parse] returns and what a TEXT column
    written with [JSON.stringify] denotes. *)
Inductive Json : Type :=
| JNull
| JBool (b : bool)
| JNum (n : Z)
| JStr (s : string)
| JArr (items : list Json)
| JObj (fields : list (string * Json)).

(** The value a user function resolves to: [undefined] or a JSON value. *)
Inductive JSValue : Type :=
| VUndefined
| VJson (j : Json).

(** [JSON.stringify(v)] is [undefined] for [undefined]; the driver sends it
    as SQL NULL.  A TEXT column is [None] for NULL and [Some j] for the text
    of document [j]. *)
Definition JSON_stringify (v : JSValue) : option Json :=
  match v with
  | VUndefined => None
  | VJson j => Some j
  end.

(** [JSON.parse(text)]: the argument is coerced to a string first, so NULL
    reads as the text "null". *)
Definition JSON_parse (text : option Json) : Json :=
  match text with
  | None => JNull
  | Some j => j
  end.

(** JavaScript truthiness of a JSON value ([!x] is its negation). *)
Definition truthy (j : Json) : bool :=
  match j with
  | JNull => false
  | JBool b => b
  | JNum n => negb (n =? 0)%Z
  | JStr s => negb (String.eqb s "")
  | JArr _ | JObj _ => true
  end.

(** ** Errors *)

(** An [Error] object: the class name, the message, the SQLSTATE [code] a
    database error carries, and the [dbosErrorCode] of a [DBOSError]. *)
Record JsError : Type := mkError {
  err_name : string;
  err_message : string;
  err_code : option string;
  dbosErrorCode : option Z
}.

Definition DBOSError (msg : string) (code : option Z) : JsError :=
  mkError "DBOSError" msg None code.

(** The error classes of src/error.ts keep their constructor argument as
    message. *)
Definition DBOSWorkflowConflictUUIDError (workflowUUID : string) : JsError :=
  mkError "DBOSWorkflowConflictUUIDError" workflowUUID None None.

Definition DBOSNotRegisteredError (name : string) : JsError :=
  mkError "DBOSNotRegisteredError" name None None.

Definition DBOSDebuggerError (msg : string) : JsError :=
  mkError "DBOSDebuggerError" msg None None.

(** Modelled from the spec: the user database adapter is not under src/;
    [isRetriableTransactionError] is true for PostgreSQL code 40001 and
    [isKeyConflictError] for the unique violation 23505. *)
Definition isRetriableTransactionError (e : JsError) : bool :=
  match err_code e with
  | Some c => String.eqb c "40001"
  | None => false
  end.

Definition isKeyConflictError (e : JsError) : bool :=
  match err_code e with
  | Some c => String.eqb c "23505"
  | None => false
  end.

(** The error PostgreSQL raises when an INSERT hits the primary key. *)
Definition pg_unique_violation : JsError :=
  mkError "error" "duplicate key value violates unique constraint" (Some "23505") None.

Fixpoint assoc (k : string) (l : list (string * Json)) : option Json :=
  match l with
  | [] => None
  | (k', v) :: l' => if String.eqb k k' then Some v else assoc k l'
  end.

(** [serializeError] turns an error into a plain object; a property that is
    absent on the error is absent in the object. *)
Definition serializeError (e : JsError) : Json :=
  JObj ([("name", JStr (err_name e)); ("message", JStr (err_message e))]
        ++ match err_code e with Some c => [("code", JStr c)] | None => [] end
        ++ match dbosErrorCode e with Some c => [("dbosErrorCode", JNum c)] | None => [] end).

Definition field_string (k : string) (l : list (string * Json)) (dflt : string) : string :=
  match assoc k l with
  | Some (JStr s) => s
  | _ => dflt
  end.

(** [deserializeError] rebuilds an error from such an object; anything else
    is wrapped in a [NonError]. *)
Definition deserializeError (j : Json) : JsError :=
  match j with
  | JObj l =>
      mkError (field_string "name" l "Error") (field_string "message" l "")
              (match assoc "code" l with Some (JStr c) => Some c | _ => None end)
              (match assoc "dbosErrorCode" l with Some (JNum c) => Some c | _ => None end)
  | _ => mkError "NonError" "" None None
  end.

(** ** The workflow context *)

Record BufferedResult : Type := mkBuffered {
  output : JSValue;
  txn_snapshot : string
}.

(** The mutable fields of a [WorkflowContextImpl]. *)
Record WorkflowContextImpl : Type := mkCtx {
  workflowUUID : string;
  functionID : nat;
  resultBuffer : gmap nat BufferedResult
}.

(** A context as its constructor leaves it. *)
Definition new_context (uuid : string) : WorkflowContextImpl :=
  mkCtx uuid 0 ∅.

(** [return this.functionID++]. *)
Definition functionIDGetIncrement (ctx : WorkflowContextImpl) : nat * WorkflowContextImpl :=
  (functionID ctx, mkCtx (workflowUUID ctx) (S (functionID ctx)) (resultBuffer ctx)).

(** The string of a step counter, as [+] on a string and a number prints it. *)
Definition number_to_string (n : nat) : string :=
  NilEmpty.string_of_uint (Nat.to_uint n).

(** The decimal numeral of a natural number, most significant digit
    first, by repeated division by ten: what the specification means by a
    step number inside a workflow id. *)
Definition decimal_digit (d : nat) : ascii := ascii_of_nat (48 + d).

Fixpoint decimal_digits (fuel n : nat) (acc : string) : string :=
  match fuel with
  | O => acc
  | S fuel' =>
      let acc' := String (decimal_digit (n mod 10)) acc in
      if (n / 10 =? 0)%nat then acc' else decimal_digits fuel' (n / 10) acc'
  end.

Definition decimal (n : nat) : string := decimal_digits (S n) n "".

(** ** Child workflows *)

(** The call made on the executor to schedule a child: which entry point,
    the [workflowUUID] of the params, and the caller's id and step number. *)
Record ChildLaunch : Type := mkLaunch {
  via_debugWorkflow : bool;
  child_workflowUUID : string;
  callerUUID : string;
  callerFunctionID : nat
}.

Definition childWorkflow (debugMode : bool) (ctx : WorkflowContextImpl)
  : ChildLaunch * WorkflowContextImpl :=
  let '(funcId, ctx) := functionIDGetIncrement ctx in
  let childUUID := (workflowUUID ctx ++ "-" ++ number_to_string funcId)%string in
  if debugMode
  then (mkLaunch true childUUID (workflowUUID ctx) funcId, ctx)
  else (mkLaunch false childUUID (workflowUUID ctx) funcId, ctx).

(** The replay context of the debugger keeps the same counter. *)
Record WorkflowContextDebug : Type := mkDebugCtx {
  debug_workflowUUID : string;
  debug_functionID : nat
}.

Definition debug_functionIDGetIncrement (ctx : WorkflowContextDebug) : nat * WorkflowContextDebug :=
  (debug_functionID ctx, mkDebugCtx (debug_workflowUUID ctx) (S (debug_functionID ctx))).

(** What [startChildWorkflow] is handed: a workflow function, or a
    configured instance whose method of the given name may or may not be a
    function. *)
Inductive ChildTarget : Type :=
| TargetWorkflow
| TargetInstance (method_is_function : bool) (wfn : string).

Inductive Completion (A : Type) : Type :=
| Returns (a : A)
| Throws (e : JsError).
Arguments Returns {A} a.
Arguments Throws {A} e.

Definition startChildWorkflow (wfOrCC : ChildTarget) (ctx : WorkflowContextDebug)
  : Completion ChildLaunch * WorkflowContextDebug :=
  match wfOrCC with
  | TargetWorkflow =>
      let '(funcId, ctx) := debug_functionIDGetIncrement ctx in
      let childUUID := (debug_workflowUUID ctx ++ "-" ++ number_to_string funcId)%string in
      (Returns (mkLaunch true childUUID (debug_workflowUUID ctx) funcId), ctx)
  | TargetInstance is_fn wfn =>
      let '(funcId, ctx) := debug_functionIDGetIncrement ctx in
      let childUUID := (debug_workflowUUID ctx ++ "-" ++ number_to_string funcId)%string in
      if negb is_fn
      then (Throws (DBOSError ("In startChildWorkflow of " ++ wfn
                               ++ ", this is not a function on the target instance.")%string None), ctx)
      else (Returns (mkLaunch true childUUID (debug_workflowUUID ctx) funcId), ctx)
  end.

(** ** The database and the observable history *)

(** A row of [dbos.transaction_outputs]; the primary key
    [(workflow_uuid, function_id)] is the key of the table map. *)
Record transaction_outputs : Type := mkRow {
  row_output : option Json;
  row_error : option Json;
  row_txn_id : option string;
  row_txn_snapshot : string
}.

(** A row of the system database's operation log, keyed the same way. *)
Record operation_outputs : Type := mkOp {
  op_output : option Json;
  op_error : option Json
}.

(** What a run does besides touching the tables. *)
Inductive Event : Type :=
| Invoke
| Sleep (duration : Q)
| Log (level : string).

(** The world outside the process: the two tables, the snapshot token and
    transaction id PostgreSQL reports (kept fixed, no property depends on
    their values), and the history so far. *)
Record World : Type := mkWorld {
  txn_table : gmap (string * nat) transaction_outputs;
  op_table : gmap (string * nat) operation_outputs;
  pg_current_snapshot : string;
  pg_current_xact_id : string;
  trace : list Event
}.

Definition set_txn_table (t : gmap (string * nat) transaction_outputs) (w : World) : World :=
  mkWorld t (op_table w) (pg_current_snapshot w) (pg_current_xact_id w) (trace w).

Definition set_op_table (t : gmap (string * nat) operation_outputs) (w : World) : World :=
  mkWorld (txn_table w) t (pg_current_snapshot w) (pg_current_xact_id w) (trace w).

Definition add_event (e : Event) (w : World) : World :=
  mkWorld (txn_table w) (op_table w) (pg_current_snapshot w) (pg_current_xact_id w)
          (trace w ++ [e]).

Definition is_invoke (e : Event) : bool :=
  match e with Invoke => true | _ => false end.

(** How many times a history enters user code. *)
Definition count_invoke (evs : list Event) : nat :=
  length (filter (fun e => is_invoke e = true) evs).

(** How many times user code has been entered so far. *)
Definition invocations (w : World) : nat := count_invoke (trace w).

(** The sleeps of a history, in order. *)
Definition sleeps (tr : list Event) : list Q :=
  flat_map (fun e => match e with Sleep d => [d] | _ => [] end) tr.

(** A user function (transaction or communicator body) with its arguments
    applied: what its [k]-th invocation of the run resolves or rejects to.
    Its effects on the application's own tables are not modelled. *)
Definition UserFunction : Type := nat -> Completion JSValue.

(** ** Computations that may throw *)

Definition M (S A : Type) : Type := S -> Completion A * S.

Definition ret {S A : Type} (a : A) : M S A := fun s => (Returns a, s).

Definition throw {S A : Type} (e : JsError) : M S A := fun s => (Throws e, s).

Definition bind {S A B : Type} (m : M S A) (k : A -> M S B) : M S B :=
  fun s =>
    match m s with
    | (Returns a, s') => k a s'
    | (Throws e, s') => (Throws e, s')
    end.

Notation "x <- m ;; k" := (bind m (fun x => k))
  (at level 100, m at next level, right associativity).
Notation "m ;;; k" := (bind m (fun _ => k))
  (at level 100, right associativity).

(** The state a [WorkflowContextImpl] method runs on. *)
Record State : Type := mkState {
  world : World;
  ctx : WorkflowContextImpl
}.

Definition on_world (f : World -> World) : M State unit :=
  fun s => (Returns tt, mkState (f (world s)) (ctx s)).

Definition set_resultBuffer (b : gmap nat BufferedResult) : M State unit :=
  fun s => (Returns tt,
            mkState (world s) (mkCtx (workflowUUID (ctx s)) (functionID (ctx s)) b)).

Definition next_functionID : M State nat :=
  fun s => let '(n, c) := functionIDGetIncrement (ctx s) in (Returns n, mkState (world s) c).

(** [await fn(ctxt, ...args)]: the outcome is that of this invocation. *)
Definition call (fn : UserFunction) : M State JSValue :=
  fun s => (fn (invocations (world s)), mkState (add_event Invoke (world s)) (ctx s)).

Definition sleep (duration : Q) : M State unit :=
  on_world (add_event (Sleep duration)).

(** Modelled from the spec: the user database adapter is not under src/.
    [userDatabase.transaction(callback, config)] runs the callback inside a
    database transaction: it commits when the callback returns and rolls
    the user database back when it throws, and the error surfaces (the
    adapter makes no retries of its own).  Memory (the context, the
    history) is not rolled back. *)
Definition userDatabase_transaction {A : Type} (callback : M State A) : M State A :=
  fun s =>
    match callback s with
    | (Returns a, s') => (Returns a, s')
    | (Throws e, s') =>
        (Throws e, mkState (set_txn_table (txn_table (world s)) (world s')) (ctx s'))
    end.

(** ** SQL statements on [dbos.transaction_outputs] *)

(** A multi-row [INSERT]: a row whose key is present, in the table or
    earlier in the statement, is a unique violation and nothing is
    inserted. *)
Fixpoint sql_insert (rows : list ((string * nat) * transaction_outputs))
    (tbl : gmap (string * nat) transaction_outputs)
  : option (gmap (string * nat) transaction_outputs) :=
  match rows with
  | [] => Some tbl
  | (k, r) :: rest =>
      match tbl !! k with
      | Some _ => None
      | None => sql_insert rest (<[k := r]> tbl)
      end
  end.

(** The rows of the guarded SELECT of [checkExecution]: the row without a
    record sorts first, the recorded row, if any, second. *)
Record check_row : Type := mkCheckRow {
  q_output : option Json;
  q_error : option Json;
  q_txn_snapshot : string;
  q_recorded : bool
}.

Definition checkExecution_query (uuid : string) (funcID : nat) (w : World) : list check_row :=
  mkCheckRow None None (pg_current_snapshot w) false ::
  match txn_table w !! (uuid, funcID) with
  | Some r => [mkCheckRow (row_output r) (row_error r) (pg_current_snapshot w) true]
  | None => []
  end.

Definition is_null (j : Json) : bool :=
  match j with JNull => true | _ => false end.

(** The result of [checkExecution]; [None] for the output is [dbosNull]. *)
Record CheckResult : Type := mkCheck {
  check_output : option Json;
  check_txn_snapshot : string
}.

Definition checkExecution (funcID : nat) : M State CheckResult :=
  fun s =>
    let rows := checkExecution_query (workflowUUID (ctx s)) funcID (world s) in
    match rows with
    | [] =>
        (Throws (DBOSError "This should never happen. Returned rows: " None),
         mkState (add_event (Log "error") (world s)) (ctx s))
    | r0 :: rest =>
        if (2 <? length rows)%nat
        then (Throws (DBOSError "This should never happen. Returned rows: " None),
              mkState (add_event (Log "error") (world s)) (ctx s))
        else
          match rest with
          | [] => (Returns (mkCheck None (q_txn_snapshot r0)), s)
          | r1 :: _ =>
              if negb (is_null (JSON_parse (q_error r1)))
              then (Throws (deserializeError (JSON_parse (q_error r1))), s)
              else (Returns (mkCheck (Some (JSON_parse (q_output r1))) (q_txn_snapshot r0)), s)
          end
    end.

(** [Array.from(this.resultBuffer.keys())] followed by [sort()], which
    compares the decimal strings of the keys. *)
Definition js_default_le (a b : nat) : Prop :=
  String.leb (number_to_string a) (number_to_string b) = true.

#[global] Instance js_default_le_dec (a b : nat) : Decision (js_default_le a b) :=
  decide (String.leb (number_to_string a) (number_to_string b) = true).

Definition sorted_funcIDs (buf : gmap nat BufferedResult) : list nat :=
  merge_sort js_default_le (map_to_list buf).*1.

(** One VALUES tuple of the INSERT of [flushResultBuffer]: the output,
    a null error, no transaction id, and the recorded snapshot. *)
Definition buffered_row (recorded : BufferedResult) : transaction_outputs :=
  mkRow (JSON_stringify (output recorded)) (JSON_stringify (VJson JNull))
        None (txn_snapshot recorded).

Definition flush_values (uuid : string) (buf : gmap nat BufferedResult)
  : list ((string * nat) * transaction_outputs) :=
  flat_map (fun funcID =>
              match buf !! funcID with
              | Some recorded => [((uuid, funcID), buffered_row recorded)]
              | None => []
              end)
           (sorted_funcIDs buf).

(** [flushResultBuffer]: nothing for an empty buffer, else one INSERT of
    all buffered rows, whose key conflict becomes the workflow-conflict
    error.  (The statement is also printed at debug level; the history
    keeps no event for that line.) *)
Definition flushResultBuffer : M State unit :=
  fun s =>
    let funcIDs := sorted_funcIDs (resultBuffer (ctx s)) in
    if (length funcIDs =? 0)%nat then (Returns tt, s)
    else
      match sql_insert (flush_values (workflowUUID (ctx s)) (resultBuffer (ctx s)))
                       (txn_table (world s)) with
      | Some tbl => (Returns tt, mkState (set_txn_table tbl (world s)) (ctx s))
      | None =>
          let error := pg_unique_violation in
          if isKeyConflictError error
          then (Throws (DBOSWorkflowConflictUUIDError (workflowUUID (ctx s))), s)
          else (Throws error, s)
      end.

Definition guardOperation (funcID : nat) (txnSnapshot : string) : M State unit :=
  fun s =>
    let guardOutput := mkBuffered (VJson JNull) txnSnapshot in
    set_resultBuffer (<[funcID := guardOutput]> (resultBuffer (ctx s))) s.

Definition TypeError (msg : string) : JsError := mkError "TypeError" msg None None.

(** The UPDATE of [recordGuardedOutput]; [rows[0].txn_id] throws when no
    row was updated. *)
Definition recordGuardedOutput (funcID : nat) (out : JSValue) : M State string :=
  fun s =>
    let serialOutput := JSON_stringify out in
    let key := (workflowUUID (ctx s), funcID) in
    match txn_table (world s) !! key with
    | Some r =>
        let r' := mkRow serialOutput (row_error r)
                        (Some (pg_current_xact_id (world s))) (row_txn_snapshot r) in
        (Returns (pg_current_xact_id (world s)),
         mkState (set_txn_table (<[key := r']> (txn_table (world s))) (world s)) (ctx s))
    | None =>
        (Throws (TypeError "Cannot read properties of undefined (reading 'txn_id')"), s)
    end.

(** The UPDATE of [recordGuardedError]. *)
Definition recordGuardedError (funcID : nat) (err : JsError) : M State unit :=
  fun s =>
    let serialErr := JSON_stringify (VJson (serializeError err)) in
    let key := (workflowUUID (ctx s), funcID) in
    match txn_table (world s) !! key with
    | Some r =>
        let r' := mkRow (row_output r) serialErr (row_txn_id r) (row_txn_snapshot r) in
        (Returns tt,
         mkState (set_txn_table (<[key := r']> (txn_table (world s))) (world s)) (ctx s))
    | None => (Returns tt, s)
    end.

(** ** Transactional steps *)

Record TransactionConfig : Type := mkTxnConfig {
  isolationLevel : option string;
  readOnly : option bool
}.

(** The [readOnly ?? false] of a configuration. *)
Definition is_readOnly (config : TransactionConfig) : bool :=
  match readOnly config with Some b => b | None => false end.

(** The callback [wrappedTransaction] handed to the user database. *)
Definition wrappedTransaction (readOnly : bool) (funcId : nat) (txn : UserFunction)
  : M State JSValue :=
  check <- checkExecution funcId ;;
  match check_output check with
  | Some recorded => ret (VJson recorded)
  | None =>
      guardOperation funcId (check_txn_snapshot check) ;;;
      (if negb readOnly then flushResultBuffer else ret tt) ;;;
      result <- call txn ;;
      (if readOnly
       then
         (fun s =>
            let guardOutput := mkBuffered result (check_txn_snapshot check) in
            set_resultBuffer (<[funcId := guardOutput]> (resultBuffer (ctx s))) s)
       else
         (_ <- recordGuardedOutput funcId result ;;
          set_resultBuffer ∅)) ;;;
      ret result
  end.

(** The body of the [catch] block for an error that is not retriable. *)
Definition record_and_throw (funcId : nat) (err : JsError) : M State JSValue :=
  userDatabase_transaction (flushResultBuffer ;;; recordGuardedError funcId err) ;;;
  set_resultBuffer ∅ ;;;
  throw err.

(** The [while (true)] loop of [transaction]; [None] when [fuel] iterations
    were not enough to leave it. *)
Fixpoint transaction_loop (fuel : nat) (readOnly : bool) (funcId : nat) (txn : UserFunction)
    (retryWaitMillis : Z) (s : State) : option (Completion JSValue * State) :=
  match fuel with
  | O => None
  | S fuel' =>
      let backoffFactor := 2%Z in
      match userDatabase_transaction (wrappedTransaction readOnly funcId txn) s with
      | (Returns result, s1) => Some (Returns result, s1)
      | (Throws err, s1) =>
          if isRetriableTransactionError err
          then
            match sleep (inject_Z retryWaitMillis) s1 with
            | (_, s2) =>
                transaction_loop fuel' readOnly funcId txn (retryWaitMillis * backoffFactor)%Z s2
            end
          else Some (record_and_throw funcId err s1)
      end
  end.

(** [WorkflowContextImpl.transaction]; [config] is the lookup of the
    transaction's name in [transactionConfigMap], [txnName] that name. *)
Definition transaction (fuel : nat) (txnName : string) (config : option TransactionConfig)
    (txn : UserFunction) (s : State) : option (Completion JSValue * State) :=
  match config with
  | None => Some (Throws (DBOSNotRegisteredError txnName), s)
  | Some config =>
      let readOnly := is_readOnly config in
      let retryWaitMillis := 1%Z in
      match next_functionID s with
      | (Returns funcId, s1) => transaction_loop fuel readOnly funcId txn retryWaitMillis s1
      | (Throws e, s1) => Some (Throws e, s1)
      end
  end.

(** ** Non-transactional steps *)

(** Modelled from the spec: the system database gateway is not under src/.
    [checkOperationOutput] returns the recorded value, throws the recorded
    error, or returns [dbosNull] ([None]); the record operations are
    upserts with an equality check that raise a conflict when the key holds
    a different payload. *)
Definition checkOperationOutput (uuid : string) (funcID : nat) : M State (option Json) :=
  fun s =>
    match op_table (world s) !! (uuid, funcID) with
    | None => (Returns None, s)
    | Some r =>
        if negb (is_null (JSON_parse (op_error r)))
        then (Throws (deserializeError (JSON_parse (op_error r))), s)
        else (Returns (Some (JSON_parse (op_output r))), s)
    end.

Fixpoint json_eqb (a b : Json) : bool :=
  match a, b with
  | JNull, JNull => true
  | JBool x, JBool y => Bool.eqb x y
  | JNum x, JNum y => Z.eqb x y
  | JStr x, JStr y => String.eqb x y
  | JArr xs, JArr ys =>
      (fix go (xs ys : list Json) : bool :=
         match xs, ys with
         | [], [] => true
         | x :: xs', y :: ys' => json_eqb x y && go xs' ys'
         | _, _ => false
         end) xs ys
  | JObj xs, JObj ys =>
      (fix go (xs ys : list (string * Json)) : bool :=
         match xs, ys with
         | [], [] => true
         | (k, x) :: xs', (k', y) :: ys' => String.eqb k k' && json_eqb x y && go xs' ys'
         | _, _ => false
         end) xs ys
  | _, _ => false
  end.

(** Equality of two serialized texts (either may be absent). *)
Definition text_eqb (a b : option Json) : bool :=
  match a, b with
  | None, None => true
  | Some x, Some y => json_eqb x y
  | _, _ => false
  end.

Definition record_operation (uuid : string) (funcID : nat) (r : operation_outputs)
  : M State unit :=
  fun s =>
    match op_table (world s) !! (uuid, funcID) with
    | None =>
        (Returns tt,
         mkState (set_op_table (<[(uuid, funcID) := r]> (op_table (world s))) (world s)) (ctx s))
    | Some old =>
        if text_eqb (op_output old) (op_output r) && text_eqb (op_error old) (op_error r)
        then (Returns tt, s)
        else (Throws (DBOSWorkflowConflictUUIDError uuid), s)
    end.

Definition recordOperationOutput (uuid : string) (funcID : nat) (out : JSValue)
  : M State unit :=
  record_operation uuid funcID (mkOp (JSON_stringify out) None).

Definition recordOperationError (uuid : string) (funcID : nat) (err : JsError)
  : M State unit :=
  record_operation uuid funcID (mkOp None (JSON_stringify (VJson (serializeError err)))).

(** A JavaScript number: a finite double, which is a rational, an
    infinity or NaN. *)
Inductive JSNumber : Type :=
| Finite (q : Q)
| Infinity
| NegInfinity
| NaN.

(** [numAttempts < x] for a counter that has been incremented [n] times
    from 0; a comparison with NaN is false.  (The counter itself is exact
    below 2^53.) *)
Definition counter_lt (n : nat) (x : JSNumber) : bool :=
  match x with
  | Finite q =>
      match (inject_Z (Z.of_nat n) ?= q)%Q with
      | Lt => true
      | _ => false
      end
  | Infinity => true
  | NegInfinity | NaN => false
  end.

(** In the words of the specification: attempt number [n] (from 0) is
    within a bound of [x] attempts when [n < x] as numbers. *)
Definition within_attempts (n : nat) (x : JSNumber) : Prop :=
  match x with
  | Finite q => (inject_Z (Z.of_nat n) < q)%Q
  | Infinity => True
  | NegInfinity | NaN => False
  end.

(** The retry settings a [CommunicatorContextImpl] exposes.  The interval
    and the backoff rate are finite numbers. *)
Record CommunicatorContextImpl : Type := mkCommCtx {
  retriesAllowed : bool;
  intervalSeconds : Q;
  maxAttempts : JSNumber;
  backoffRate : Q
}.

Section DoubleArithmetic.

(** [a * b] on numbers is the double nearest to the exact product.  The
    operation is a parameter of which nothing is assumed. *)
Variable times : Q -> Q -> Q.

(** The retry loop of [external],
    [while (result === dbosNull && numAttempts++ < ctxt.maxAttempts)];
    it yields the result, [None] standing for [dbosNull].  The outer [None]
    means that [fuel] iterations were not enough. *)
Fixpoint external_loop (fuel : nat) (ctxt : CommunicatorContextImpl) (commFn : UserFunction)
    (numAttempts : nat) (interval : Q) (s : State) : option (option JSValue * State) :=
  if counter_lt numAttempts (maxAttempts ctxt)
  then
    match fuel with
    | O => None
    | S fuel' =>
        let numAttempts := S numAttempts in
        match call commFn s with
        | (Returns result, s1) => Some (Some result, s1)
        | (Throws error, s1) =>
            if counter_lt numAttempts (maxAttempts ctxt)
            then
              match sleep interval s1 with
              | (_, s2) =>
                  external_loop fuel' ctxt commFn numAttempts
                                (times interval (backoffRate ctxt)) s2
              end
            else external_loop fuel' ctxt commFn numAttempts interval s1
        end
    end
  else Some (None, s).

(** The single attempt made when retries are not allowed: the result and
    the caught error, each [None] for [dbosNull]. *)
Definition external_once (commFn : UserFunction) (s : State)
  : (option JSValue * option JsError) * State :=
  match call commFn s with
  | (Returns result, s1) => ((Some result, None), s1)
  | (Throws error, s1) => ((None, Some error), s1)
  end.

(** The tail of [external]: record the outcome and return or throw it. *)
Definition external_record (funcID : nat) (result : option JSValue) (err : option JsError)
  : M State JSValue :=
  fun s =>
    match result with
    | None =>
        let err := match err with
                   | None => DBOSError "Communicator reached maximum retries." (Some 1%Z)
                   | Some e => e
                   end in
        (recordOperationError (workflowUUID (ctx s)) funcID err ;;; throw err) s
    | Some result =>
        (recordOperationOutput (workflowUUID (ctx s)) funcID result ;;; ret result) s
    end.

(** The head of [external]: take the step number, flush and clear the
    result buffer, and look the step up in the operation log. *)
Definition external_begin : M State (nat * option Json) :=
  funcID <- next_functionID ;;
  userDatabase_transaction flushResultBuffer ;;;
  set_resultBuffer ∅ ;;;
  check <- (fun s => checkOperationOutput (workflowUUID (ctx s)) funcID s) ;;
  ret (funcID, check).

(** [WorkflowContextImpl.external]; [commConfig] is the lookup of the
    communicator's name in [communicatorConfigMap].  [None] when [fuel]
    iterations were not enough for the retry loop. *)
Definition external (fuel : nat) (commName : string)
    (commConfig : option CommunicatorContextImpl) (commFn : UserFunction) (s : State)
  : option (Completion JSValue * State) :=
  match commConfig with
  | None => Some (Throws (DBOSNotRegisteredError commName), s)
  | Some ctxt =>
      match external_begin s with
      | (Throws e, s1) => Some (Throws e, s1)
      | (Returns (funcID, Some check), s1) => Some (Returns (VJson check), s1)
      | (Returns (funcID, None), s1) =>
          if retriesAllowed ctxt
          then
            match external_loop fuel ctxt commFn 0 (intervalSeconds ctxt) s1 with
            | Some (result, s2) => Some (external_record funcID result None s2)
            | None => None
            end
          else
            match external_once commFn s1 with
            | ((result, err), s2) => Some (external_record funcID result err s2)
            end
      end
  end.

End DoubleArithmetic.

(** ** Replay of a transactional step in the debugger *)

Record DebugState : Type := mkDebugState {
  debug_world : World;
  debug_ctx : WorkflowContextDebug
}.

Record RecordedResult : Type := mkRecorded {
  recorded_output : Json;
  recorded_txn_snapshot : string;
  recorded_txn_id : option string
}.

(** The variable [check] of the replay: a recorded result or an [Error]. *)
Inductive DebugCheck : Type :=
| CheckRecorded (r : RecordedResult)
| CheckError (e : JsError).

Definition debug_log (level : string) (s : DebugState) : DebugState :=
  mkDebugState (add_event (Log level) (debug_world s)) (debug_ctx s).

(** The SELECT of the replay's [checkExecution]: the recorded rows. *)
Definition debug_query (uuid : string) (funcID : nat) (w : World) : list transaction_outputs :=
  match txn_table w !! (uuid, funcID) with
  | Some r => [r]
  | None => []
  end.

(** [WorkflowContextDebug.checkExecution].  The signal sent to the debug
    proxy is an SQL comment and leaves the tables as they are. *)
Definition debug_checkExecution (debugProxy : bool) (funcID : nat) : M DebugState DebugCheck :=
  fun s =>
    let rows := debug_query (debug_workflowUUID (debug_ctx s)) funcID (debug_world s) in
    match rows with
    | [r0] =>
        if negb (is_null (JSON_parse (row_error r0)))
        then (Returns (CheckError (deserializeError (JSON_parse (row_error r0)))), s)
        else
          let res := mkRecorded (JSON_parse (row_output r0)) (row_txn_snapshot r0)
                                (row_txn_id r0) in
          (Returns (CheckRecorded res), s)
    | _ =>
        (Throws (DBOSDebuggerError
                   "This should never happen during debug. Found incorrect rows for transaction output."),
         debug_log "error" s)
    end.

Definition debug_call (fn : UserFunction) : M DebugState JSValue :=
  fun s => (fn (invocations (debug_world s)),
            mkDebugState (add_event Invoke (debug_world s)) (debug_ctx s)).

(** The replay's [wrappedTransaction].  It assigns the outer variable
    [check]: the first component is that variable when the callback ends,
    [None] while it is unassigned. *)
Definition debug_wrappedTransaction (debugProxy : bool) (funcID : nat) (txn : UserFunction)
    (s : DebugState) : option DebugCheck * (Completion JSValue * DebugState) :=
  match debug_checkExecution debugProxy funcID s with
  | (Throws e, s1) => (None, (Throws e, s1))
  | (Returns check, s1) =>
      let after_check :=
        match check with
        | CheckError e =>
            if debugProxy then (Returns tt, debug_log "warn" s1) else (Throws e, s1)
        | CheckRecorded _ => (Returns tt, s1)
        end in
      match after_check with
      | (Throws e, s2) => (Some check, (Throws e, s2))
      | (Returns _, s2) =>
          if negb debugProxy
          then
            match check with
            | CheckRecorded r => (Some check, (Returns (VJson (recorded_output r)), s2))
            | CheckError _ => (Some check, (Returns VUndefined, s2))
            end
          else (Some check, debug_call txn s2)
      end
  end.

(** The user database transaction around the replay's callback. *)
Definition debug_userDatabase_transaction (s : DebugState)
    (r : Completion JSValue * DebugState) : Completion JSValue * DebugState :=
  match r with
  | (Returns a, s') => (Returns a, s')
  | (Throws e, s') =>
      (Throws e,
       mkDebugState (set_txn_table (txn_table (debug_world s)) (debug_world s')) (debug_ctx s'))
  end.

(** [JSON.stringify] of the variable [result], which holds what the
    transaction returned or the error it threw; of an error only the own
    enumerable properties are printed. *)
Definition JSON_stringify_result (result : JSValue + JsError) : option Json :=
  match result with
  | inl v => JSON_stringify v
  | inr e =>
      Some (JObj (match err_code e with Some c => [("code", JStr c)] | None => [] end
                  ++ match dbosErrorCode e with
                     | Some c => [("dbosErrorCode", JNum c)]
                     | None => []
                     end))
  end.

Definition is_undefined (result : JSValue + JsError) : bool :=
  match result with
  | inl VUndefined => true
  | _ => false
  end.

(** [WorkflowContextDebug.transaction]; [txnInfo] is the result of
    [getTransactionInfo]. *)
Definition debug_transaction (debugProxy : bool) (txnName : string)
    (txnInfo : option TransactionConfig) (txn : UserFunction) (s : DebugState)
  : Completion JSValue * DebugState :=
  match txnInfo with
  | None =>
      (Throws (DBOSDebuggerError ("Transaction " ++ txnName ++ " not registered!")%string), s)
  | Some _ =>
      let '(funcID, c) := debug_functionIDGetIncrement (debug_ctx s) in
      let s0 := mkDebugState (debug_world s) c in
      let '(check, attempt) := debug_wrappedTransaction debugProxy funcID txn s0 in
      let '(completion, s1) := debug_userDatabase_transaction s0 attempt in
      let result : JSValue + JsError :=
        match completion with
        | Returns v => inl v
        | Throws e => inr e
        end in
      match check with
      | None =>
          (Throws (TypeError "Cannot read properties of undefined (reading 'output')"), s1)
      | Some (CheckError e) => (Throws e, s1)
      | Some (CheckRecorded r) =>
          if is_undefined result && negb (truthy (recorded_output r))
          then (Returns VUndefined, s1)
          else
            let s2 :=
              if negb (text_eqb (JSON_stringify (VJson (recorded_output r)))
                                (JSON_stringify_result result))
              then debug_log "error" s1
              else s1 in
            (Returns (VJson (recorded_output r)), s2)
      end
  end.

(** ** Executions of a workflow *)

(** A process that crashes loses its memory and keeps the database: the
    next execution of the workflow starts from a fresh context. *)
Definition restart (uuid : string) (s : State) : State :=
  mkState (world s) (new_context uuid).

(** The buffer holds no function id that already has a row. *)
Definition buffer_fresh (s : State) : Prop :=
  forall funcID, is_Some (resultBuffer (ctx s) !! funcID) ->
                 txn_table (world s) !! (workflowUUID (ctx s), funcID) = None.

(** The table once the rows of a buffer are added to it. *)
Definition flushed_table (uuid : string) (buf : gmap nat BufferedResult)
    (tbl : gmap (string * nat) transaction_outputs) : gmap (string * nat) transaction_outputs :=
  list_to_map (flush_values uuid buf) ∪ tbl.

(** No error recorded in the table is one the adapter would retry. *)
Definition table_final (tbl : gmap (string * nat) transaction_outputs) : Prop :=
  forall key r, tbl !! key = Some r ->
    isRetriableTransactionError (deserializeError (JSON_parse (row_error r))) = false.

Definition recorded_errors_final (w : World) : Prop := table_final (txn_table w).

(** The states sequential executions of a workflow move through. *)
Definition consistent (s : State) : Prop :=
  buffer_fresh s /\ recorded_errors_final (world s).

(** What a later execution gets for a step that ended with [r]: the
    value after a round trip through its JSON text, or the error. *)
Definition replayed (r : Completion JSValue) : Completion JSValue :=
  match r with
  | Returns v => Returns (VJson (JSON_parse (JSON_stringify v)))
  | Throws e => Throws e
  end.

(** The history of [k] attempts that hit a serialization failure followed
    by one more attempt: the waits are 1, 2, 4, ... milliseconds. *)
Definition retry_history_from (wait : Z) (k : nat) : list Event :=
  flat_map (fun i => [Invoke; Sleep (inject_Z (wait * 2 ^ Z.of_nat i))]) (seq 0 k)
  ++ [Invoke].

Definition retry_history (k : nat) : list Event :=
  flat_map (fun i => [Invoke; Sleep (inject_Z (2 ^ Z.of_nat i))]) (seq 0 k) ++ [Invoke].

(** A transaction body that fails with a serialization error every time. *)
Definition serialization_failure : JsError :=
  mkError "error" "could not serialize access" (Some "40001") None.

Definition always_serialization_failure : UserFunction :=
  fun _ => Throws serialization_failure.

(** The interval after [i] multiplications by the backoff rate,
    computed as the loop does, and the history of [k] failed attempts, each
    followed by a sleep, and one final attempt. *)
Fixpoint backoff_from (times : Q -> Q -> Q) (rate start : Q) (i : nat) : Q :=
  match i with
  | O => start
  | S i' => times (backoff_from times rate start i') rate
  end.

Definition attempts_history_from (times : Q -> Q -> Q) (rate start : Q) (k : nat)
  : list Event :=
  flat_map (fun i => [Invoke; Sleep (backoff_from times rate start i)]) (seq 0 k) ++ [Invoke].

Definition attempts_history (times : Q -> Q -> Q) (ctxt : CommunicatorContextImpl) (k : nat)
  : list Event :=
  attempts_history_from times (backoffRate ctxt) (intervalSeconds ctxt) k.

(** The row [external] writes for an outcome. *)
Definition recorded_op (r : Completion JSValue) : operation_outputs :=
  match r with
  | Returns v => mkOp (JSON_stringify v) None
  | Throws e => mkOp None (JSON_stringify (VJson (serializeError e)))
  end.

Definition add_events (evs : list Event) (w : World) : World :=
  mkWorld (txn_table w) (op_table w) (pg_current_snapshot w) (pg_current_xact_id w)
          (trace w ++ evs).

(** The guard row a step buffers. *)
Definition guard_of (w : World) : BufferedResult :=
  mkBuffered (VJson JNull) (pg_current_snapshot w).

(** The table after the UPDATE of [recordGuardedError]. *)
Definition with_error (err : JsError) (key : string * nat)
    (tbl : gmap (string * nat) transaction_outputs) : gmap (string * nat) transaction_outputs :=
  match tbl !! key with
  | Some r =>
      <[key := mkRow (row_output r) (Some (serializeError err)) (row_txn_id r)
                     (row_txn_snapshot r)]> tbl
  | None => tbl
  end.

(** What the row of a step holds once a call has ended with [out]. *)
Definition records (row : transaction_outputs) (out : Completion JSValue) : Prop :=
  match out with
  | Returns v =>
      is_null (JSON_parse (row_error row)) = true
      /\ JSON_parse (row_output row) = JSON_parse (JSON_stringify v)
  | Throws e =>
      JSON_parse (row_error row) = serializeError e
      /\ isRetriableTransactionError e = false
  end.

(** ** Sample runs *)

Definition empty_world : World := mkWorld ∅ ∅ "100:100:" "731" [].

(** The first execution of workflow "W", before any step. *)
Definition first_run : State := mkState empty_world (new_context "W").

Definition write_config : TransactionConfig := mkTxnConfig None None.
Definition readonly_config : TransactionConfig := mkTxnConfig None (Some true).

(** A transaction body that returns its argument, here 12. *)
Definition returns_12 : UserFunction := fun _ => Returns (VJson (JNum 12)).

Definition boom : JsError := mkError "Error" "dumb test error" None None.

(** A body that always throws an ordinary error. *)
Definition always_boom : UserFunction := fun _ => Throws boom.

(** A row that records the error [boom] for step 0 of "W". *)
Definition boom_row : transaction_outputs :=
  mkRow (Some JNull) (Some (serializeError boom)) None "100:100:".

Definition world_with_boom : World :=
  mkWorld {[ ("W", 0) := boom_row ]} ∅ "105:105:" "740" [].

(** A later execution of "W" that reaches step 0 with that row in place. *)
Definition replay_of_boom : State := mkState world_with_boom (new_context "W").

(** The state a run leaves behind; the start state if it has not ended. *)
Definition state_after (run : option (Completion JSValue * State)) (start : State) : State :=
  match run with
  | Some (_, s) => s
  | None => start
  end.

(** The process state once step 0 has run as a read-write transaction,
    and once it has run as a read-only one. *)
Definition after_write_step : State :=
  state_after (transaction 1 "testFunction" (Some write_config) returns_12 first_run) first_run.

Definition after_readonly_step : State :=
  state_after (transaction 1 "testFunction" (Some readonly_config) returns_12 first_run)
              first_run.

(** A buffered read-only output of step 0 whose identical row is already
    in the table, as after a flush by a duplicate execution. *)
Definition buffered_12 : BufferedResult := mkBuffered (VJson (JNum 12)) "100:100:".

Definition flush_over_identical_row : State :=
  mkState (mkWorld {[ ("W", 0) := buffered_row buffered_12 ]} ∅ "105:105:" "740" [])
          (mkCtx "W" 1 {[ 0 := buffered_12 ]}).

(** The first [k] invocations from [start] on throw an error the adapter
    classifies as retriable. *)
Definition fails_retriably (txn : UserFunction) (start k : nat) : Prop :=
  forall i, i < k ->
    exists e, txn (start + i) = Throws e /\ isRetriableTransactionError e = true.

(** A body that hits two serialization failures and then returns. *)
Definition fails_twice : UserFunction :=
  fun i => if (i <? 2)%nat then Throws serialization_failure else Returns (VJson (JStr "done")).

(** The retry policy of the specification, on the first run of a step whose
    body keeps failing: with at most [N] retries the error has surfaced
    once the loop has run [N + 1] times. *)
Definition surfaces_after (N : nat) : Prop :=
  exists e s',
    transaction (S N) "testFunction" (Some write_config) always_serialization_failure first_run
    = Some (Throws e, s').

(** The outcome [external] records for what its attempts produced. *)
Definition outcome_of (result : option JSValue) (err : option JsError) : Completion JSValue :=
  match result with
  | Some v => Returns v
  | None =>
      Throws (match err with
              | None => DBOSError "Communicator reached maximum retries." (Some 1%Z)
              | Some e => e
              end)
  end.

(** The first [k] invocations from [start] on throw. *)
Definition fails (fn : UserFunction) (start k : nat) : Prop :=
  forall i, i < k -> exists e, fn (start + i) = Throws e.

(** The state in which [external] starts its attempts: the buffer has
    been flushed and cleared and the counter has moved on. *)
Definition after_flush (s : State) : State :=
  mkState (set_txn_table (flushed_table (workflowUUID (ctx s)) (resultBuffer (ctx s))
                                        (txn_table (world s))) (world s))
          (mkCtx (workflowUUID (ctx s)) (S (functionID (ctx s))) ∅).

(** A communicator with retries: one second, doubled, two attempts. *)
Definition two_attempts : CommunicatorContextImpl := mkCommCtx true 1 (Finite 2) 2.

(** A communicator with retries: one second, doubled, three attempts. *)
Definition three_attempts : CommunicatorContextImpl := mkCommCtx true 1 (Finite 3) 2.

Definition no_retries : CommunicatorContextImpl := mkCommCtx false 1 (Finite 3) 2.

(** A communicator with retries whose [maxAttempts] is 2.5. *)
Definition two_and_a_half_attempts : CommunicatorContextImpl :=
  mkCommCtx true 1 (Finite (5 # 2)) 2.

(** Double multiplication on the intervals of these samples: a product of
    small integers is exact. *)
Definition small_product : Q -> Q -> Q := Qmult.

(** A recorded output of step 0 of "W" and a replay that reaches it. *)
Definition recorded_12 : transaction_outputs :=
  mkRow (Some (JNum 12)) (Some JNull) (Some "731") "100:100:".

Definition debug_replay : DebugState :=
  mkDebugState (mkWorld {[ ("W", 0) := recorded_12 ]} ∅ "105:105:" "740" [])
               (mkDebugCtx "W" 0).

(** A re-execution that now returns 13. *)
Definition returns_13 : UserFunction := fun _ => Returns (VJson (JNum 13)).

(** A duplicate execution of "W" at step 1: it has buffered the output of
    the read-only step 0 itself, while another execution has flushed that
    output and recorded the error of step 1. *)
Definition duplicate_with_stale_buffer : State :=
  mkState (mkWorld {[ ("W", 0) := buffered_row buffered_12; ("W", 1) := boom_row ]} ∅
                   "105:105:" "740" [])
          (mkCtx "W" 1 {[ 0 := buffered_12 ]}).






(** A recorded output 0 of step 0 of "W", a replay that reaches it, and a
    re-execution that returns nothing. *)
Definition recorded_0 : transaction_outputs :=
  mkRow (Some (JNum 0)) (Some JNull) (Some "731") "100:100:".

Definition debug_replay_of_0 : DebugState :=
  mkDebugState (mkWorld {[ ("W", 0) := recorded_0 ]} ∅ "105:105:" "740" [])
               (mkDebugCtx "W" 0).

Definition returns_undefined : UserFunction := fun _ => Returns VUndefined.

(** ** Messages, events and handles *)

(** A call on the system database gateway.  The gateway is a separate
    object that holds no reference to the workflow context: it acts on the
    world outside the process and cannot touch the context's memory. *)
Definition SystemCall (A : Type) : Type := World -> Completion A * World.

Definition systemDatabase_call {A : Type} (request : SystemCall A) : M State A :=
  fun s =>
    match request (world s) with
    | (c, w) => (c, mkState w (ctx s))
    end.

(** The handle [retrieveWorkflow] builds; the caller's id and step number
    are optional arguments of the constructor. *)
Record RetrievedHandle : Type := mkRetrievedHandle {
  handle_workflowUUID : string;
  handle_callerUUID : option string;
  handle_callerFunctionID : option nat
}.

Section Notifications.

(** The notification calls of the gateway are not under src/; they are
    parameters, with their arguments in the order of the source, and so is
    the executor's default timeout. *)
Variable systemDatabase_send : string -> nat -> string -> JSValue -> option string -> SystemCall unit.
Variable systemDatabase_recv : string -> nat -> option string -> Q -> SystemCall JSValue.
Variable systemDatabase_setEvent : string -> nat -> string -> JSValue -> SystemCall unit.
Variable systemDatabase_getEvent : string -> string -> Q -> string -> nat -> SystemCall JSValue.
Variable defaultNotificationTimeoutSec : Q.

(** [WorkflowContextImpl.send]. *)
Definition send (destinationUUID : string) (message : JSValue) (topic : option string)
  : M State unit :=
  funcID <- next_functionID ;;
  userDatabase_transaction flushResultBuffer ;;;
  set_resultBuffer ∅ ;;;
  (fun s =>
     systemDatabase_call
       (systemDatabase_send (workflowUUID (ctx s)) funcID destinationUUID message topic) s).

(** [WorkflowContextImpl.recv]; an absent [timeoutSeconds] takes the
    default. *)
Definition recv (topic : option string) (timeoutSeconds : option Q) : M State JSValue :=
  let timeoutSeconds := default defaultNotificationTimeoutSec timeoutSeconds in
  funcID <- next_functionID ;;
  userDatabase_transaction flushResultBuffer ;;;
  set_resultBuffer ∅ ;;;
  (fun s =>
     systemDatabase_call
       (systemDatabase_recv (workflowUUID (ctx s)) funcID topic timeoutSeconds) s).

(** [WorkflowContextImpl.setEvent]. *)
Definition setEvent (key : string) (value : JSValue) : M State unit :=
  funcID <- next_functionID ;;
  userDatabase_transaction flushResultBuffer ;;;
  set_resultBuffer ∅ ;;;
  (fun s =>
     systemDatabase_call
       (systemDatabase_setEvent (workflowUUID (ctx s)) funcID key value) s).

(** [WorkflowContextImpl.getEvent]. *)
Definition getEvent (targetUUID key : string) (timeoutSeconds : option Q) : M State JSValue :=
  let timeoutSeconds := default defaultNotificationTimeoutSec timeoutSeconds in
  funcID <- next_functionID ;;
  (fun s =>
     systemDatabase_call
       (systemDatabase_getEvent targetUUID key timeoutSeconds (workflowUUID (ctx s)) funcID) s).

End Notifications.

(** [WorkflowContextImpl.retrieveWorkflow]. *)
Definition retrieveWorkflow (targetUUID : string) : M State RetrievedHandle :=
  funcID <- next_functionID ;;
  (fun s => ret (mkRetrievedHandle targetUUID (Some (workflowUUID (ctx s))) (Some funcID)) s).

(** ** Replay of the other steps in the debugger *)

Definition debug_next_functionID : M DebugState nat :=
  fun s =>
    let '(n, c) := debug_functionIDGetIncrement (debug_ctx s) in
    (Returns n, mkDebugState (debug_world s) c).

(** Modelled from the spec: [checkOperationOutput] of the system database
    gateway, as above, on the state of a replay. *)
Definition debug_checkOperationOutput (uuid : string) (funcID : nat)
  : M DebugState (option Json) :=
  fun s =>
    match op_table (debug_world s) !! (uuid, funcID) with
    | None => (Returns None, s)
    | Some r =>
        if negb (is_null (JSON_parse (op_error r)))
        then (Throws (deserializeError (JSON_parse (op_error r))), s)
        else (Returns (Some (JSON_parse (op_output r))), s)
    end.

(** The lookup every replayed step but a transaction starts with: take the
    step number and read the operation log under it. *)
Definition debug_recorded_step : M DebugState (option Json) :=
  funcID <- debug_next_functionID ;;
  (fun s => debug_checkOperationOutput (debug_workflowUUID (debug_ctx s)) funcID s).

(** [this.logger.debug(...)], a line of the debug log. *)
Definition debug_logger_debug : M DebugState unit :=
  fun s => (Returns tt, debug_log "debug" s).

(** [WorkflowContextDebug.external]; [commConfig] is the result of
    [getCommunicatorInfo].  The communicator and its arguments are not
    used. *)
Definition debug_external (commName : string) (commConfig : option CommunicatorContextImpl)
    (commFn : UserFunction) : M DebugState JSValue :=
  match commConfig with
  | None =>
      throw (DBOSDebuggerError ("Communicator " ++ commName ++ " not registered!")%string)
  | Some _ =>
      check <- debug_recorded_step ;;
      match check with
      | None =>
          throw (DBOSDebuggerError
                   ("Cannot find recorded communicator output for " ++ commName
                    ++ ". Shouldn't happen in debug mode!")%string)
      | Some recorded => debug_logger_debug ;;; ret (VJson recorded)
      end
  end.

(** [WorkflowContextDebug.send]: none of the arguments is used. *)
Definition debug_send (destinationUUID : string) (message : JSValue) (topic : option string)
  : M DebugState unit :=
  check <- debug_recorded_step ;;
  match check with
  | None => throw (DBOSDebuggerError "Cannot find recorded send. Shouldn't happen in debug mode!")
  | Some _ => debug_logger_debug ;;; ret tt
  end.

(** [WorkflowContextDebug.recv]. *)
Definition debug_recv (topic : option string) (timeoutSeconds : option Q)
  : M DebugState JSValue :=
  check <- debug_recorded_step ;;
  match check with
  | None => throw (DBOSDebuggerError "Cannot find recorded recv. Shouldn't happen in debug mode!")
  | Some recorded => debug_logger_debug ;;; ret (VJson recorded)
  end.

(** [WorkflowContextDebug.setEvent]. *)
Definition debug_setEvent (key : string) (value : JSValue) : M DebugState unit :=
  check <- debug_recorded_step ;;
  match check with
  | None =>
      throw (DBOSDebuggerError "Cannot find recorded setEvent. Shouldn't happen in debug mode!")
  | Some _ => debug_logger_debug ;;; ret tt
  end.

(** [WorkflowContextDebug.getEvent]. *)
Definition debug_getEvent (targetUUID key : string) (timeoutSeconds : option Q)
  : M DebugState JSValue :=
  check <- debug_recorded_step ;;
  match check with
  | None =>
      throw (DBOSDebuggerError "Cannot find recorded getEvent. Shouldn't happen in debug mode!")
  | Some recorded => debug_logger_debug ;;; ret (VJson recorded)
  end.

(** The handle of the replay: the caller's id and step number are
    required. *)
Record RetrievedHandleDebug : Type := mkRetrievedHandleDebug {
  debug_handle_workflowUUID : string;
  debug_handle_callerUUID : string;
  debug_handle_callerFunctionID : nat
}.

(** [WorkflowContextDebug.retrieveWorkflow]. *)
Definition debug_retrieveWorkflow (targetUUID : string) : M DebugState RetrievedHandleDebug :=
  funcID <- debug_next_functionID ;;
  (fun s =>
     ret (mkRetrievedHandleDebug targetUUID (debug_workflowUUID (debug_ctx s)) funcID) s).

(** [RetrievedHandleDebug.getStatus]: the recorded status, as a JSON
    value. *)
Definition debug_getStatus (handle : RetrievedHandleDebug) : M DebugState Json :=
  check <- debug_checkOperationOutput (debug_handle_callerUUID handle)
                                      (debug_handle_callerFunctionID handle) ;;
  match check with
  | None =>
      throw (DBOSDebuggerError
               "Cannot find recorded workflow status. Shouldn't happen in debug mode!")
  | Some status => ret status
  end.

(** [WorkflowContextDebug.sleepms] and [sleep]; [times] is the
    multiplication of doubles, as in [external_loop]. *)
Definition debug_sleepms (ms : Q) : M DebugState unit :=
  debug_next_functionID ;;;
  ret tt.

Definition debug_sleep (times : Q -> Q -> Q) (s : Q) : M DebugState unit :=
  debug_sleepms (times s 1000%Q).

(** The deprecated [WorkflowContextDebug.childWorkflow]. *)
Definition debug_childWorkflow (ctx : WorkflowContextDebug)
  : Completion ChildLaunch * WorkflowContextDebug :=
  startChildWorkflow TargetWorkflow ctx.

(** ** What a step leaves alone *)

(** Every run of [m] takes a state to one related to it by [R]. *)
Definition preserves {A : Type} (R : State -> State -> Prop) (m : M State A) : Prop :=
  forall s, R s (m s).2.

(** The recorded row [r'] of a step agrees with [r] on all but the error
    column. *)
Definition same_output (r r' : transaction_outputs) : Prop :=
  row_output r' = row_output r
  /\ row_txn_id r' = row_txn_id r
  /\ row_txn_snapshot r' = row_txn_snapshot r.

(** What the attempts of the transactional step with number [f] leave
    alone: the workflow id, the counter, the operation log, and every row
    of [dbos.transaction_outputs] other than the step's own. *)
Definition step_frame (f : nat) (s s' : State) : Prop :=
  workflowUUID (ctx s') = workflowUUID (ctx s)
  /\ functionID (ctx s') = functionID (ctx s)
  /\ op_table (world s') = op_table (world s)
  /\ forall key r,
       key <> (workflowUUID (ctx s), f) ->
       txn_table (world s) !! key = Some r -> txn_table (world s') !! key = Some r.

(** What recording an error for step [f] leaves alone: as [step_frame],
    and the step's own row keeps all but its error column. *)
Definition error_frame (f : nat) (s s' : State) : Prop :=
  step_frame f s s'
  /\ forall r,
       txn_table (world s) !! (workflowUUID (ctx s), f) = Some r ->
       exists r', txn_table (world s') !! (workflowUUID (ctx s), f) = Some r'
                  /\ same_output r r'.

(** What a non-transactional step leaves alone: the workflow id, the
    counter, and every row of both tables. *)
Definition log_frame (s s' : State) : Prop :=
  workflowUUID (ctx s') = workflowUUID (ctx s)
  /\ functionID (ctx s') = functionID (ctx s)
  /\ (forall key r,
        txn_table (world s) !! key = Some r -> txn_table (world s') !! key = Some r)
  /\ (forall key r,
        op_table (world s) !! key = Some r -> op_table (world s') !! key = Some r).

(** An execution of workflow [uuid] that reaches step [f] with nothing
    buffered. *)
Definition reaches (uuid : string) (f : nat) (w : World) : State :=
  mkState w (mkCtx uuid f ∅).

(** The replay of workflow [uuid] in the debugger, at step [f]. *)
Definition debug_reaches (uuid : string) (f : nat) (w : World) : DebugState :=
  mkDebugState w (mkDebugCtx uuid f).

(** ** More sample runs *)

(** An execution of "W" that reaches step 1 with the error of step 0
    recorded. *)
Definition step_1_after_boom : State := reaches "W" 1 world_with_boom.

(** The replay of "W" in the debugger over the recorded error of step 0,
    and over an empty database. *)
Definition debug_replay_of_boom : DebugState := debug_reaches "W" 0 world_with_boom.

Definition debug_replay_of_nothing : DebugState := debug_reaches "W" 0 empty_world.

(** A body that returns "ok". *)
Definition returns_ok : UserFunction := fun _ => Returns (VJson (JStr "ok")).

(** The read-only step 0 of "W" followed by the read-write step 1. *)
Definition after_readonly_then_write : State :=
  state_after (transaction 1 "testWrite" (Some write_config) returns_ok after_readonly_step)
              after_readonly_step.


(** The first run of "W" once step 0 has failed as a read-write
    transaction. *)
Definition after_write_failure : State :=
  state_after (transaction 1 "testFunction" (Some write_config) always_boom first_run)
              first_run.

(** The first run of "W" once step 0 has run as a communicator that
    returns 12. *)
Definition after_external_step : State :=
  state_after (external small_product 0 "testCommunicator" (Some no_retries) returns_12
                        first_run)
              first_run.

(** The state the flush of the buffered read-only step 0 leaves. *)
Definition after_readonly_flush : State := (flushResultBuffer after_readonly_step).2.

(** Step 1 of "W" as a read-write transaction over the recorded error of
    step 0. *)
Definition after_step_1 : State :=
  state_after (transaction 1 "testFunction" (Some write_config) returns_12 step_1_after_boom)
              step_1_after_boom.

(** Step 1 of "W" as a communicator over the recorded error of step 0. *)
Definition after_external_step_1 : State :=
  state_after (external small_product 0 "testCommunicator" (Some no_retries) returns_12
                        step_1_after_boom)
              step_1_after_boom.

(** What a replayed step that is not a transaction finds in the operation
    log under its step number: a recorded value, a recorded error, or
    nothing. *)
Definition recorded_operation (uuid : string) (f : nat) (w : World)
  : option (Completion Json) :=
  match op_table w !! (uuid, f) with
  | None => None
  | Some r =>
      Some (if negb (is_null (JSON_parse (op_error r)))
            then Throws (deserializeError (JSON_parse (op_error r)))
            else Returns (JSON_parse (op_output r)))
  end.

(** The outcome of such a step: the recorded value as [found] presents
    it, the recorded error, or the debugger's error with message
    [missing]. *)
Definition replay_of {A : Type} (recorded : option (Completion Json)) (found : Json -> A)
    (missing : string) : Completion A :=
  match recorded with
  | None => Throws (DBOSDebuggerError missing)
  | Some (Returns j) => Returns (found j)
  | Some (Throws e) => Throws e
  end.

(** Where the attempts of the transactional step with number [f] write:
    a row that is new has the workflow's own id and the number of the step
    or of a buffered output, and the buffer grows by the step's number
    only. *)
Definition writes_within (f : nat) (s s' : State) : Prop :=
  workflowUUID (ctx s') = workflowUUID (ctx s)
  /\ (forall g, is_Some (resultBuffer (ctx s') !! g) ->
                g = f \/ is_Some (resultBuffer (ctx s) !! g))
  /\ forall key,
       is_Some (txn_table (world s') !! key) ->
       is_Some (txn_table (world s) !! key)
       \/ (key.1 = workflowUUID (ctx s)
           /\ (key.2 = f \/ is_Some (resultBuffer (ctx s) !! key.2))).

(** ** The proxy of [invoke] *)

(** An entry of [getRegisteredOperations]: the name of the method, the
    configuration it was registered with as a transaction and as a
    communicator (each may be absent), and the function. *)
Record RegisteredOperation : Type := mkOperation {
  op_name : string;
  txnConfig : option TransactionConfig;
  commConfig : option CommunicatorContextImpl;
  registeredFunction : UserFunction
}.

(** What a property of the proxy does when called: run the function as a
    transaction, run it as a communicator, or nothing, the property being
    [undefined]. *)
Inductive ProxyMethod : Type :=
| CallsTransaction (fn : UserFunction)
| CallsExternal (fn : UserFunction)
| ProxyUndefined.

(** [op.txnConfig ? ... : op.commConfig ? ... : undefined]. *)
Definition proxy_method (op : RegisteredOperation) : ProxyMethod :=
  match txnConfig op with
  | Some _ => CallsTransaction (registeredFunction op)
  | None =>
      match commConfig op with
      | Some _ => CallsExternal (registeredFunction op)
      | None => ProxyUndefined
      end
  end.

(** An assignment [proxy[name] = value] on the object literal creates or
    overwrites an own property, except under the name [__proto__]: that
    assignment goes to the setter inherited from [Object.prototype] and
    replaces the prototype of the proxy, after which what an assignment
    does depends on the properties of the function that became the
    prototype.  Operations with that name are left out of the model. *)
Definition sets_prototype (op : RegisteredOperation) : bool :=
  String.eqb (op_name op) "__proto__".

(** The loop [for (const op of ops) proxy[op.name] = ...] over an empty
    object literal, [method] giving the value assigned for an operation:
    the own properties of the proxy, as a map from property names. *)
Definition proxy_properties {A : Type} (method : RegisteredOperation -> A)
    (ops : list RegisteredOperation) : gmap string A :=
  foldl (fun proxy op => <[op_name op := method op]> proxy) ∅ ops.

(** [WorkflowContextImpl.invoke], on the registered operations of its
    argument; [None] when an operation is named [__proto__]. *)
Definition invoke (ops : list RegisteredOperation) : option (gmap string ProxyMethod) :=
  if existsb sets_prototype ops then None
  else Some (proxy_properties proxy_method ops).

(** The argument of the replay's [invoke]: a class (a function) or a
    configured instance. *)
Inductive InvokeTarget : Type :=
| TargetClass
| TargetConfigured (instance : string).

(** [WorkflowContextDebug.invoke]: each property also fixes the instance
    handed to [transaction] or [external], [None] standing for [null]. *)
Definition debug_invoke (object : InvokeTarget) (ops : list RegisteredOperation)
  : option (gmap string (ProxyMethod * option string)) :=
  if existsb sets_prototype ops then None
  else
    match object with
    | TargetClass => Some (proxy_properties (fun op => (proxy_method op, None)) ops)
    | TargetConfigured targetInst =>
        Some (proxy_properties (fun op => (proxy_method op, Some targetInst)) ops)
    end.

(** Sample operations: a transaction, a communicator, a method
    registered as neither, and a second registration of the first name,
    now as a communicator. *)
Definition sample_operations : list RegisteredOperation :=
  [ mkOperation "testFunction" (Some write_config) None returns_12;
    mkOperation "testCommunicator" None (Some no_retries) returns_12;
    mkOperation "helper" None None returns_12;
    mkOperation "testFunction" None (Some no_retries) returns_13 ].

(** The last operation registered under a name. *)
Definition last_registered (name : string) (ops : list RegisteredOperation)
  : option RegisteredOperation :=
  last (filter (fun op => op_name op = name) ops).

(** Where a non-transactional step with number [f] writes: a new row of
    [dbos.transaction_outputs] is that of an output of the workflow that
    was buffered, a new row of the operation log is the step's own, and
    the buffer does not grow. *)
Definition log_writes_within (f : nat) (s s' : State) : Prop :=
  workflowUUID (ctx s') = workflowUUID (ctx s)
  /\ (forall g, is_Some (resultBuffer (ctx s') !! g) -> is_Some (resultBuffer (ctx s) !! g))
  /\ (forall key,
        is_Some (txn_table (world s') !! key) ->
        is_Some (txn_table (world s) !! key)
        \/ (key.1 = workflowUUID (ctx s) /\ is_Some (resultBuffer (ctx s) !! key.2)))
  /\ forall key,
       is_Some (op_table (world s') !! key) ->
       is_Some (op_table (world s) !! key) \/ key = (workflowUUID (ctx s), f).

(** The read-only step 0 of "W" followed by a communicator as step 1. *)
Definition after_readonly_then_external : State :=
  state_after (external small_product 0 "testCommunicator" (Some no_retries) returns_12
                        after_readonly_step)
              after_readonly_step.


(** ** A workflow body *)






(** * Properties *)

(** ** Serialized errors *)

Lemma deserialize_serialize (e : JsError) : deserializeError (serializeError e) = e.
Proof.
  destruct e as [n m [c|] [d|]]; reflexivity.
Qed.

Lemma deserialize_null_final : isRetriableTransactionError (deserializeError JNull) = false.
Proof. reflexivity. Qed.

(** ** Histories *)

Lemma set_txn_table_same (w : World) : set_txn_table (txn_table w) w = w.
Proof. destruct w; reflexivity. Qed.

Lemma add_events_nil (w : World) : add_events [] w = w.
Proof. destruct w; unfold add_events; simpl. by rewrite app_nil_r. Qed.

Lemma add_event_add_events (e : Event) (evs : list Event) (w : World) :
  add_event e (add_events evs w) = add_events (evs ++ [e]) w.
Proof. unfold add_event, add_events; simpl. by rewrite app_assoc. Qed.

Lemma add_events_add_events (evs1 evs2 : list Event) (w : World) :
  add_events evs2 (add_events evs1 w) = add_events (evs1 ++ evs2) w.
Proof. unfold add_events; simpl. by rewrite app_assoc. Qed.

Lemma add_event_single (e : Event) (w : World) : add_event e w = add_events [e] w.
Proof. reflexivity. Qed.

(** Writing a table leaves the history, hence the invocation count. *)
Ltac frame_invocations :=
  repeat (change (invocations (set_op_table ?t ?w)) with (invocations w)
          || change (invocations (set_txn_table ?t ?w)) with (invocations w)).

Lemma invocations_add_events (evs : list Event) (w : World) :
  invocations (add_events evs w) = invocations w + count_invoke evs.
Proof.
  unfold invocations, add_events, count_invoke; simpl.
  by rewrite filter_app, length_app.
Qed.

(** ** The INSERT statement *)

Lemma sql_insert_fresh (rows : list ((string * nat) * transaction_outputs))
    (tbl : gmap (string * nat) transaction_outputs) :
  NoDup rows.*1 ->
  (forall k r, (k, r) ∈ rows -> tbl !! k = None) ->
  sql_insert rows tbl = Some (list_to_map rows ∪ tbl).
Proof.
  revert tbl. induction rows as [|[k r] rest IH]; intros tbl Hnd Hfresh; simpl.
  - by rewrite (left_id_L ∅ (∪)).
  - rewrite (Hfresh k r) by left.
    inversion_clear Hnd as [|? ? Hk Hrest].
    rewrite IH; [| done |].
    + f_equal. rewrite <- insert_union_l. symmetry. apply insert_union_r.
      by apply not_elem_of_list_to_map_1.
    + intros k' r' Hin. rewrite lookup_insert_ne.
      * apply (Hfresh k' r'). by right.
      * intros ->. apply Hk. apply list_elem_of_fmap. by exists (k', r').
Qed.

Lemma sql_insert_taken (rows : list ((string * nat) * transaction_outputs))
    (tbl : gmap (string * nat) transaction_outputs) (k : string * nat) (r : transaction_outputs) :
  (k, r) ∈ rows -> is_Some (tbl !! k) -> sql_insert rows tbl = None.
Proof.
  revert tbl. induction rows as [|[k0 r0] rest IH]; intros tbl Hin Hsome.
  - by apply elem_of_nil in Hin.
  - simpl. destruct (tbl !! k0) eqn:Hk0; [done|].
    apply elem_of_cons in Hin as [Heq | Hin].
    + injection Heq as -> ->. rewrite Hk0 in Hsome. by destruct Hsome.
    + apply IH; [done|]. by apply lookup_insert_is_Some'; right.
Qed.

(** ** The rows of a flush *)

Section FlushRows.

Variables (uuid : string) (buf : gmap nat BufferedResult).

Lemma sorted_funcIDs_elem (f : nat) :
  f ∈ sorted_funcIDs buf <-> is_Some (buf !! f).
Proof.
  unfold sorted_funcIDs. rewrite merge_sort_Permutation.
  rewrite list_elem_of_fmap. split.
  - intros [[f' b] [-> Hin]]. apply elem_of_map_to_list in Hin. by exists b.
  - intros [b Hb]. exists (f, b). split; [done|]. by apply elem_of_map_to_list.
Qed.

Lemma NoDup_sorted_funcIDs : NoDup (sorted_funcIDs buf).
Proof.
  unfold sorted_funcIDs. rewrite merge_sort_Permutation. apply NoDup_fst_map_to_list.
Qed.

Lemma flush_values_keys :
  (flush_values uuid buf).*1 = pair uuid <$> sorted_funcIDs buf.
Proof.
  unfold flush_values.
  assert (Hall : forall f, f ∈ sorted_funcIDs buf -> is_Some (buf !! f))
    by (intros f; apply sorted_funcIDs_elem).
  induction (sorted_funcIDs buf) as [|f l IH]; [done|].
  simpl. destruct (Hall f) as [b Hb]; [by left|].
  rewrite Hb. simpl. f_equal. apply IH. intros f' Hf'. apply Hall. by right.
Qed.

Lemma NoDup_flush_values :
  NoDup (flush_values uuid buf).*1.
Proof.
  rewrite flush_values_keys. apply NoDup_fmap_2; [|apply NoDup_sorted_funcIDs].
  intros a b Hab. by injection Hab.
Qed.

Lemma flush_values_elem (u : string) (f : nat) (row : transaction_outputs) :
  ((u, f), row) ∈ flush_values uuid buf
  <-> u = uuid /\ exists b, buf !! f = Some b /\ row = buffered_row b.
Proof.
  unfold flush_values. rewrite list_elem_of_In, in_flat_map. split.
  - intros [f' [_ Hin]]. destruct (buf !! f') as [b|] eqn:Hb; [|done].
    destruct Hin as [Heq|[]]. injection Heq as <- <- <-. eauto.
  - intros [-> [b [Hb ->]]]. exists f. split.
    + apply list_elem_of_In, sorted_funcIDs_elem. by exists b.
    + rewrite Hb. by left.
Qed.

Lemma lookup_flushed_buffered (tbl : gmap (string * nat) transaction_outputs) (f : nat) (b : BufferedResult) :
  buf !! f = Some b ->
  flushed_table uuid buf tbl !! (uuid, f) = Some (buffered_row b).
Proof.
  intros Hb. unfold flushed_table. apply lookup_union_Some_l.
  apply elem_of_list_to_map; [apply NoDup_flush_values|].
  apply flush_values_elem. eauto.
Qed.

Lemma lookup_flushed_other (tbl : gmap (string * nat) transaction_outputs) (u : string) (f : nat) :
  u <> uuid \/ buf !! f = None ->
  flushed_table uuid buf tbl !! (u, f) = tbl !! (u, f).
Proof.
  intros Hother. unfold flushed_table. apply lookup_union_r.
  apply not_elem_of_list_to_map_1. rewrite list_elem_of_fmap.
  intros [[[u' f'] row] [Heq Hin]]. simpl in Heq. injection Heq as <- <-.
  apply flush_values_elem in Hin as [-> [b [Hb _]]].
  destruct Hother as [Hne | Hnone]; [done | congruence].
Qed.

End FlushRows.

Lemma flushed_table_empty (uuid : string) (tbl : gmap (string * nat) transaction_outputs) :
  flushed_table uuid ∅ tbl = tbl.
Proof.
  apply map_eq. intros [u f]. apply lookup_flushed_other. right. apply lookup_empty.
Qed.

(** A flush of a fresh buffer inserts every buffered row. *)
Lemma flushResultBuffer_fresh (s : State) :
  buffer_fresh s ->
  flushResultBuffer s
  = (Returns tt,
     mkState (set_txn_table (flushed_table (workflowUUID (ctx s)) (resultBuffer (ctx s))
                                           (txn_table (world s))) (world s)) (ctx s)).
Proof.
  intros Hfresh. unfold flushResultBuffer.
  destruct (sorted_funcIDs (resultBuffer (ctx s))) as [|f0 l] eqn:Hids.
  - simpl. f_equal.
    assert (Hempty : resultBuffer (ctx s) = ∅).
    { apply map_eq. intros f. rewrite lookup_empty.
      destruct (resultBuffer (ctx s) !! f) eqn:Hf; [|done].
      assert (Hin : f ∈ sorted_funcIDs (resultBuffer (ctx s)))
        by (apply sorted_funcIDs_elem; eauto).
      rewrite Hids in Hin. by apply elem_of_nil in Hin. }
    rewrite Hempty, flushed_table_empty, set_txn_table_same. by destruct s.
  - cbn [length Nat.eqb].
    rewrite sql_insert_fresh; [done | apply NoDup_flush_values |].
    intros [u f] r Hin. apply flush_values_elem in Hin as [-> [b [Hb _]]].
    apply Hfresh. eauto.
Qed.

(** A flush over any existing row fails, whatever the row holds. *)
Lemma flushResultBuffer_taken (s : State) (f : nat) :
  is_Some (resultBuffer (ctx s) !! f) ->
  is_Some (txn_table (world s) !! (workflowUUID (ctx s), f)) ->
  flushResultBuffer s = (Throws (DBOSWorkflowConflictUUIDError (workflowUUID (ctx s))), s).
Proof.
  intros [b Hb] Hrow. unfold flushResultBuffer.
  destruct (sorted_funcIDs (resultBuffer (ctx s))) as [|f0 l] eqn:Hids.
  - assert (Hin : f ∈ sorted_funcIDs (resultBuffer (ctx s)))
      by (apply sorted_funcIDs_elem; eauto).
    rewrite Hids in Hin. by apply elem_of_nil in Hin.
  - cbn [length Nat.eqb].
    rewrite (sql_insert_taken _ _ (workflowUUID (ctx s), f) (buffered_row b)); [done | | done].
    apply flush_values_elem. eauto.
Qed.

(** ** Freshness of the result buffer *)

Lemma buffer_fresh_empty (w : World) (uuid : string) (n : nat) :
  buffer_fresh (mkState w (mkCtx uuid n ∅)).
Proof. intros f [b Hb]. simpl in Hb. by rewrite lookup_empty in Hb. Qed.

Lemma buffer_fresh_guard (w : World) (uuid : string) (n funcId : nat)
    (buf : gmap nat BufferedResult) (b : BufferedResult) :
  buffer_fresh (mkState w (mkCtx uuid n buf)) ->
  txn_table w !! (uuid, funcId) = None ->
  buffer_fresh (mkState w (mkCtx uuid n (<[funcId := b]> buf))).
Proof.
  intros Hfresh Hrow f; simpl. intros Hf.
  destruct (decide (funcId = f)) as [<-|Hne]; [done|].
  rewrite lookup_insert_ne in Hf by done. by apply Hfresh.
Qed.

Lemma buffer_fresh_add_event (e : Event) (w : World) (c : WorkflowContextImpl) :
  buffer_fresh (mkState w c) -> buffer_fresh (mkState (add_event e w) c).
Proof. intros H f Hf. by apply H. Qed.

Lemma buffer_fresh_counter (w : World) (uuid : string) (n m : nat)
    (buf : gmap nat BufferedResult) :
  buffer_fresh (mkState w (mkCtx uuid n buf)) -> buffer_fresh (mkState w (mkCtx uuid m buf)).
Proof. intros H f Hf. by apply H. Qed.

Lemma buffer_fresh_next (s : State) :
  buffer_fresh s ->
  buffer_fresh (mkState (world s) (mkCtx (workflowUUID (ctx s)) (S (functionID (ctx s)))
                                         (resultBuffer (ctx s)))).
Proof. intros H f Hf. by apply H. Qed.

Create HintDb fresh.
#[local] Hint Resolve buffer_fresh_empty buffer_fresh_guard buffer_fresh_add_event
  buffer_fresh_next : fresh.

Ltac solve_fresh := cbn [world ctx]; auto with fresh.

(** ** One attempt of a transactional step *)

Lemma checkExecution_recorded (s : State) (funcId : nat) (r : transaction_outputs) :
  txn_table (world s) !! (workflowUUID (ctx s), funcId) = Some r ->
  checkExecution funcId s
  = if is_null (JSON_parse (row_error r))
    then (Returns (mkCheck (Some (JSON_parse (row_output r))) (pg_current_snapshot (world s))), s)
    else (Throws (deserializeError (JSON_parse (row_error r))), s).
Proof.
  intros Hrow. unfold checkExecution, checkExecution_query. rewrite Hrow. simpl.
  by destruct (is_null (JSON_parse (row_error r))).
Qed.

Lemma checkExecution_unrecorded (s : State) (funcId : nat) :
  txn_table (world s) !! (workflowUUID (ctx s), funcId) = None ->
  checkExecution funcId s = (Returns (mkCheck None (pg_current_snapshot (world s))), s).
Proof.
  intros Hrow. unfold checkExecution, checkExecution_query. by rewrite Hrow.
Qed.

(** A step with a recorded row never reaches the user function. *)
Lemma attempt_recorded (readOnly : bool) (funcId : nat) (txn : UserFunction) (s : State)
    (r : transaction_outputs) :
  txn_table (world s) !! (workflowUUID (ctx s), funcId) = Some r ->
  userDatabase_transaction (wrappedTransaction readOnly funcId txn) s
  = (if is_null (JSON_parse (row_error r))
     then Returns (VJson (JSON_parse (row_output r)))
     else Throws (deserializeError (JSON_parse (row_error r))), s).
Proof.
  intros Hrow. unfold userDatabase_transaction, wrappedTransaction, bind.
  rewrite (checkExecution_recorded _ _ _ Hrow).
  destruct (is_null (JSON_parse (row_error r))); simpl; [done|].
  rewrite set_txn_table_same. by destruct s.
Qed.

Lemma attempt_readonly (funcId : nat) (txn : UserFunction) (w : World) (uuid : string)
    (n : nat) (buf : gmap nat BufferedResult) :
  txn_table w !! (uuid, funcId) = None ->
  userDatabase_transaction (wrappedTransaction true funcId txn) (mkState w (mkCtx uuid n buf))
  = match txn (invocations w) with
    | Returns v =>
        (Returns v,
         mkState (add_event Invoke w)
                 (mkCtx uuid n (<[funcId := mkBuffered v (pg_current_snapshot w)]> buf)))
    | Throws e =>
        (Throws e, mkState (add_event Invoke w) (mkCtx uuid n (<[funcId := guard_of w]> buf)))
    end.
Proof.
  intros Hrow. unfold userDatabase_transaction, wrappedTransaction, bind.
  rewrite checkExecution_unrecorded by done. simpl.
  unfold call; simpl. destruct (txn (invocations w)) as [v|e]; simpl.
  - by rewrite insert_insert_eq.
  - by destruct w.
Qed.

Lemma attempt_write (funcId : nat) (txn : UserFunction) (w : World) (uuid : string)
    (n : nat) (buf : gmap nat BufferedResult) :
  buffer_fresh (mkState w (mkCtx uuid n buf)) ->
  txn_table w !! (uuid, funcId) = None ->
  userDatabase_transaction (wrappedTransaction false funcId txn) (mkState w (mkCtx uuid n buf))
  = match txn (invocations w) with
    | Returns v =>
        (Returns v,
         mkState (set_txn_table
                    (<[(uuid, funcId) :=
                         mkRow (JSON_stringify v) (Some JNull) (Some (pg_current_xact_id w))
                               (pg_current_snapshot w)]>
                       (flushed_table uuid (<[funcId := guard_of w]> buf) (txn_table w)))
                    (add_event Invoke w))
                 (mkCtx uuid n ∅))
    | Throws e =>
        (Throws e, mkState (add_event Invoke w) (mkCtx uuid n (<[funcId := guard_of w]> buf)))
    end.
Proof.
  intros Hfresh Hrow. unfold userDatabase_transaction, wrappedTransaction, bind.
  rewrite checkExecution_unrecorded by done. simpl.
  rewrite flushResultBuffer_fresh by (by apply buffer_fresh_guard).
  cbn [ctx world workflowUUID resultBuffer].
  unfold call; simpl.
  change (invocations (set_txn_table _ w)) with (invocations w).
  destruct (txn (invocations w)) as [v|e]; simpl.
  - unfold recordGuardedOutput; simpl.
    rewrite (lookup_flushed_buffered _ _ _ _ (guard_of w)) by apply lookup_insert_eq.
    by destruct w.
  - by destruct w.
Qed.

(** ** The catch block *)

Lemma flushResultBuffer_memory (s : State) :
  trace (world (flushResultBuffer s).2) = trace (world s)
  /\ ctx (flushResultBuffer s).2 = ctx s
  /\ op_table (world (flushResultBuffer s).2) = op_table (world s)
  /\ pg_current_snapshot (world (flushResultBuffer s).2) = pg_current_snapshot (world s).
Proof.
  unfold flushResultBuffer.
  destruct (length (sorted_funcIDs (resultBuffer (ctx s))) =? 0)%nat; [done|].
  destruct (sql_insert _ _); simpl; done.
Qed.

Lemma record_and_throw_fresh (funcId : nat) (err : JsError) (s : State) :
  buffer_fresh s ->
  record_and_throw funcId err s
  = (Throws err,
     mkState (set_txn_table
                (with_error err (workflowUUID (ctx s), funcId)
                   (flushed_table (workflowUUID (ctx s)) (resultBuffer (ctx s))
                                  (txn_table (world s))))
                (world s))
             (mkCtx (workflowUUID (ctx s)) (functionID (ctx s)) ∅)).
Proof.
  intros Hfresh. unfold record_and_throw, userDatabase_transaction, bind.
  rewrite flushResultBuffer_fresh by done.
  unfold recordGuardedError, with_error; cbn [ctx world txn_table set_txn_table].
  destruct (flushed_table _ _ _ !! _); simpl; [by destruct (world s)|].
  by destruct (world s).
Qed.

Lemma record_and_throw_invocations (funcId : nat) (err : JsError) (s : State) :
  invocations (world (record_and_throw funcId err s).2) = invocations (world s).
Proof.
  unfold record_and_throw, userDatabase_transaction, bind.
  destruct (flushResultBuffer_memory s) as [Htr _].
  destruct (flushResultBuffer s) as [[[]|e] s1]; simpl in *.
  - unfold recordGuardedError. destruct (txn_table (world s1) !! _); simpl;
      unfold invocations; simpl; by rewrite Htr.
  - unfold invocations; simpl; by rewrite Htr.
Qed.

(** ** The retry loop of a transactional step *)

Lemma transaction_loop_step (fuel : nat) (readOnly : bool) (funcId : nat) (txn : UserFunction)
    (wait : Z) (s : State) :
  transaction_loop (S fuel) readOnly funcId txn wait s
  = match userDatabase_transaction (wrappedTransaction readOnly funcId txn) s with
    | (Returns result, s1) => Some (Returns result, s1)
    | (Throws err, s1) =>
        if isRetriableTransactionError err
        then transaction_loop fuel readOnly funcId txn (wait * 2)%Z
               (mkState (add_event (Sleep (inject_Z wait)) (world s1)) (ctx s1))
        else Some (record_and_throw funcId err s1)
    end.
Proof. reflexivity. Qed.

(** While the row of a step is recorded, no iteration of the loop enters
    the user function, however the loop ends. *)
Lemma replay_never_invokes (fuel : nat) (readOnly : bool) (funcId : nat) (txn : UserFunction)
    (wait : Z) (s : State) (row : transaction_outputs) (out : Completion JSValue) (s' : State) :
  txn_table (world s) !! (workflowUUID (ctx s), funcId) = Some row ->
  transaction_loop fuel readOnly funcId txn wait s = Some (out, s') ->
  invocations (world s') = invocations (world s).
Proof.
  revert wait s. induction fuel as [|fuel IH]; intros wait s Hrow Hrun; [done|].
  rewrite transaction_loop_step, (attempt_recorded _ _ _ _ _ Hrow) in Hrun.
  destruct (is_null (JSON_parse (row_error row))).
  - by injection Hrun as _ <-.
  - destruct (isRetriableTransactionError _).
    + apply IH in Hrun; [|done]. rewrite Hrun. cbn [world].
      rewrite add_event_single, invocations_add_events.
      change (count_invoke [Sleep (inject_Z wait)]) with 0. lia.
    + injection Hrun as Hrun.
      replace s' with (record_and_throw funcId
                         (deserializeError (JSON_parse (row_error row))) s).2
        by (by rewrite Hrun).
      apply record_and_throw_invocations.
Qed.

Lemma replay_outcome (fuel : nat) (readOnly : bool) (funcId : nat) (txn : UserFunction)
    (wait : Z) (s : State) (row : transaction_outputs) :
  txn_table (world s) !! (workflowUUID (ctx s), funcId) = Some row ->
  buffer_fresh s ->
  isRetriableTransactionError (deserializeError (JSON_parse (row_error row))) = false ->
  exists s',
    transaction_loop (S fuel) readOnly funcId txn wait s
    = Some (if is_null (JSON_parse (row_error row))
            then Returns (VJson (JSON_parse (row_output row)))
            else Throws (deserializeError (JSON_parse (row_error row))), s')
    /\ invocations (world s') = invocations (world s).
Proof.
  intros Hrow Hfresh Hfinal.
  rewrite transaction_loop_step, (attempt_recorded _ _ _ _ _ Hrow).
  destruct (is_null (JSON_parse (row_error row))).
  - by exists s.
  - rewrite Hfinal, record_and_throw_fresh by done. eexists. split; [done|]. done.
Qed.

(** Once a read-write step has ended, its row holds the outcome. *)
Lemma write_step_recorded (fuel : nat) (funcId : nat) (txn : UserFunction) (wait : Z)
    (s : State) (out : Completion JSValue) (s' : State) :
  buffer_fresh s ->
  transaction_loop fuel false funcId txn wait s = Some (out, s') ->
  (exists row, txn_table (world s') !! (workflowUUID (ctx s), funcId) = Some row
               /\ records row out)
  /\ workflowUUID (ctx s') = workflowUUID (ctx s).
Proof.
  revert wait s. induction fuel as [|fuel IH]; intros wait [w [uuid n buf]] Hfresh Hrun; [done|].
  rewrite transaction_loop_step in Hrun. cbn [ctx world workflowUUID].
  destruct (txn_table w !! (uuid, funcId)) as [r0|] eqn:Hrow.
  - rewrite (attempt_recorded _ _ _ _ r0) in Hrun by done.
    destruct (is_null (JSON_parse (row_error r0))) eqn:Hnull.
    + injection Hrun as <- <-. split; [|done]. exists r0. by repeat split.
    + destruct (isRetriableTransactionError _) eqn:Hretry.
      * apply IH in Hrun; [done|]. by apply buffer_fresh_add_event.
      * rewrite record_and_throw_fresh in Hrun by done. injection Hrun as <- <-.
        split; [|done]. cbn [ctx world workflowUUID resultBuffer txn_table set_txn_table].
        assert (Hbuf : buf !! funcId = None).
        { destruct (buf !! funcId) eqn:Hb; [|done].
          specialize (Hfresh funcId). simpl in Hfresh.
          rewrite Hb, Hrow in Hfresh. by specialize (Hfresh (mk_is_Some _ _ eq_refl)). }
        unfold with_error. rewrite lookup_flushed_other, Hrow by (by right).
        eexists. rewrite lookup_insert_eq. split; [done|]. by split.
  - rewrite attempt_write in Hrun by done.
    destruct (txn (invocations w)) as [v|e].
    + injection Hrun as <- <-. split; [|done]. cbn [ctx world txn_table set_txn_table].
      eexists. rewrite lookup_insert_eq. split; [done|]. by split.
    + destruct (isRetriableTransactionError e) eqn:Hretry.
      * apply IH in Hrun; [done|].
        solve_fresh.
      * rewrite record_and_throw_fresh in Hrun
          by solve_fresh.
        injection Hrun as <- <-. split; [|done].
        cbn [ctx world workflowUUID resultBuffer txn_table set_txn_table add_event].
        unfold with_error.
        rewrite (lookup_flushed_buffered _ _ _ _ (guard_of w)) by apply lookup_insert_eq.
        eexists. rewrite lookup_insert_eq. split; [done|]. by split.
Qed.

Lemma records_replay (row : transaction_outputs) (out : Completion JSValue) :
  records row out ->
  (if is_null (JSON_parse (row_error row))
   then Returns (VJson (JSON_parse (row_output row)))
   else Throws (deserializeError (JSON_parse (row_error row))))
  = replayed out
  /\ isRetriableTransactionError (deserializeError (JSON_parse (row_error row))) = false.
Proof.
  destruct out as [v|e]; simpl.
  - intros [Hnull ->]. rewrite Hnull. split; [done|].
    destruct (JSON_parse (row_error row)); done.
  - intros [-> Hfinal]. rewrite deserialize_serialize. done.
Qed.

(** ** Calls of [transaction] *)

Lemma next_functionID_eq (s : State) :
  next_functionID s
  = (Returns (functionID (ctx s)),
     mkState (world s) (mkCtx (workflowUUID (ctx s)) (S (functionID (ctx s)))
                              (resultBuffer (ctx s)))).
Proof. reflexivity. Qed.

Lemma transaction_eq (fuel : nat) (txnName : string) (config : TransactionConfig)
    (txn : UserFunction) (s : State) :
  transaction fuel txnName (Some config) txn s
  = transaction_loop fuel (is_readOnly config) (functionID (ctx s)) txn 1
      (mkState (world s) (mkCtx (workflowUUID (ctx s)) (S (functionID (ctx s)))
                                (resultBuffer (ctx s)))).
Proof. reflexivity. Qed.

Lemma replay_of_boom_consistent : consistent replay_of_boom.
Proof.
  split.
  - apply buffer_fresh_empty.
  - intros key r Hr. simpl in Hr. apply lookup_singleton_Some in Hr as [_ <-]. reflexivity.
Qed.

Lemma first_run_fresh : buffer_fresh first_run.
Proof. apply buffer_fresh_empty. Qed.

(** ** Flushing the result buffer *)

Lemma buffer_fresh_dec (s : State) :
  buffer_fresh s
  \/ exists f, is_Some (resultBuffer (ctx s) !! f)
               /\ is_Some (txn_table (world s) !! (workflowUUID (ctx s), f)).
Proof.
  destruct (decide (map_Forall
                      (fun f (_ : BufferedResult) =>
                         txn_table (world s) !! (workflowUUID (ctx s), f) = None)
                      (resultBuffer (ctx s)))) as [Hall|Hnot].
  - left. intros f [b Hb]. by apply (Hall f b).
  - right. apply map_not_Forall in Hnot; [|apply _].
    destruct Hnot as [f [b [Hb Hrow]]]. exists f. split; [by exists b|].
    destruct (txn_table (world s) !! (workflowUUID (ctx s), f)); [by eexists | done].
Qed.

(** ** Read-only steps *)

Lemma record_and_throw_throws (funcId : nat) (err : JsError) (s : State) :
  exists e s', record_and_throw funcId err s = (Throws e, s').
Proof.
  unfold record_and_throw, userDatabase_transaction, bind.
  destruct (flushResultBuffer s) as [[[]|e] s1]; simpl; [|by eauto].
  destruct (recordGuardedError funcId err s1) as [[[]|e] s2] eqn:Hrec; simpl; eauto.
Qed.

(** The callback of a read-only step leaves the table as it found it. *)
Lemma wrappedTransaction_readonly_table (funcId : nat) (txn : UserFunction) (s : State) :
  txn_table (world (wrappedTransaction true funcId txn s).2) = txn_table (world s).
Proof.
  unfold wrappedTransaction, bind.
  destruct (txn_table (world s) !! (workflowUUID (ctx s), funcId)) as [r|] eqn:Hrow.
  - rewrite (checkExecution_recorded _ _ _ Hrow).
    by destruct (is_null (JSON_parse (row_error r))).
  - rewrite checkExecution_unrecorded by done. simpl.
    unfold call; simpl. by destruct (txn (invocations (world s))).
Qed.

(** It leaves the guard in the buffer when it throws and the output when
    it returns. *)
Lemma wrappedTransaction_readonly_buffer (funcId : nat) (txn : UserFunction) (s : State) :
  txn_table (world s) !! (workflowUUID (ctx s), funcId) = None ->
  resultBuffer (ctx (wrappedTransaction true funcId txn s).2) !! funcId
  = Some (match (wrappedTransaction true funcId txn s).1 with
          | Returns v => mkBuffered v (pg_current_snapshot (world s))
          | Throws _ => guard_of (world s)
          end).
Proof.
  intros Hrow. unfold wrappedTransaction, bind.
  rewrite checkExecution_unrecorded by done. simpl.
  unfold call; simpl. destruct (txn (invocations (world s))); simpl; apply lookup_insert_eq.
Qed.

Lemma readonly_step_buffered (fuel : nat) (funcId : nat) (txn : UserFunction) (wait : Z)
    (s : State) (v : JSValue) (s1 : State) :
  txn_table (world s) !! (workflowUUID (ctx s), funcId) = None ->
  transaction_loop fuel true funcId txn wait s = Some (Returns v, s1) ->
  txn_table (world s1) = txn_table (world s)
  /\ resultBuffer (ctx s1)
     = <[funcId := mkBuffered v (pg_current_snapshot (world s))]> (resultBuffer (ctx s))
  /\ workflowUUID (ctx s1) = workflowUUID (ctx s).
Proof.
  revert wait s. induction fuel as [|fuel IH]; intros wait [w [uuid n buf]] Hrow Hrun; [done|].
  cbn [ctx world workflowUUID resultBuffer] in *.
  rewrite transaction_loop_step, attempt_readonly in Hrun by done.
  destruct (txn (invocations w)) as [v'|e].
  - by injection Hrun as <- <-.
  - destruct (isRetriableTransactionError e).
    + apply IH in Hrun; [|done]. cbn [ctx world workflowUUID resultBuffer] in Hrun.
      destruct Hrun as (Htbl & Hbuf & Huuid). rewrite insert_insert_eq in Hbuf. done.
    + destruct (record_and_throw_throws funcId e
                  (mkState (add_event Invoke w) (mkCtx uuid n (<[funcId := guard_of w]> buf))))
        as [e' [s' Heq]].
      rewrite Heq in Hrun. done.
Qed.

(** ** Retries after serialization failures *)

Lemma retry_history_from_S (wait : Z) (k : nat) :
  retry_history_from wait (S k)
  = Invoke :: Sleep (inject_Z wait) :: retry_history_from (wait * 2) k.
Proof.
  unfold retry_history_from. rewrite <- cons_seq, <- seq_shift. simpl.
  rewrite Z.mul_1_r. do 2 f_equal. f_equal.
  induction (seq 0 k) as [|i l IH]; [done|]. simpl. rewrite IH. do 3 f_equal.
  f_equal. rewrite Nat2Z.inj_succ, Z.pow_succ_r by lia. lia.
Qed.

Lemma retry_history_from_1 (k : nat) : retry_history_from 1 k = retry_history k.
Proof.
  unfold retry_history_from, retry_history. f_equal.
  induction (seq 0 k) as [|i l IH]; [done|]. simpl. rewrite IH, Z.mul_1_l. done.
Qed.

(** After [k] attempts that fail retriably the loop makes one more; its
    outcome, if not retriable, is the outcome of the call. *)
Lemma transaction_loop_retries (k fuel : nat) (readOnly : bool) (funcId : nat)
    (txn : UserFunction) (wait : Z) (s : State) (out : Completion JSValue) :
  buffer_fresh s ->
  txn_table (world s) !! (workflowUUID (ctx s), funcId) = None ->
  fails_retriably txn (invocations (world s)) k ->
  txn (invocations (world s) + k) = out ->
  match out with Returns _ => True | Throws e => isRetriableTransactionError e = false end ->
  exists s',
    transaction_loop (S k + fuel) readOnly funcId txn wait s = Some (out, s')
    /\ trace (world s') = trace (world s) ++ retry_history_from wait k.
Proof.
  revert wait s. induction k as [|k IH]; intros wait [w [uuid n buf]] Hfresh Hrow Hfail Hout Hfin;
    cbn [ctx world workflowUUID] in *.
  - rewrite Nat.add_0_r in Hout. cbn [Nat.add]. rewrite transaction_loop_step.
    destruct readOnly.
    + rewrite attempt_readonly, Hout by done. destruct out as [v|e].
      * eexists. split; [done|]. done.
      * rewrite Hfin, record_and_throw_fresh
          by solve_fresh.
        eexists. split; [done|]. done.
    + rewrite attempt_write, Hout by done. destruct out as [v|e].
      * eexists. split; [done|]. done.
      * rewrite Hfin, record_and_throw_fresh
          by solve_fresh.
        eexists. split; [done|]. done.
  - destruct (Hfail 0) as [e [He Hretry]]; [lia|]. rewrite Nat.add_0_r in He.
    change (S (S k) + fuel) with (S (S k + fuel)). rewrite transaction_loop_step.
    assert (Hstep : userDatabase_transaction (wrappedTransaction readOnly funcId txn)
                      (mkState w (mkCtx uuid n buf))
                    = (Throws e, mkState (add_event Invoke w)
                                         (mkCtx uuid n (<[funcId := guard_of w]> buf)))).
    { destruct readOnly.
      - by rewrite attempt_readonly, He.
      - by rewrite attempt_write, He. }
    rewrite Hstep, Hretry. cbn [ctx world].
    destruct (IH (wait * 2)%Z
                (mkState (add_event (Sleep (inject_Z wait)) (add_event Invoke w))
                         (mkCtx uuid n (<[funcId := guard_of w]> buf))))
      as [s' [Hrun Htrace]].
    + solve_fresh.
    + done.
    + intros i Hi. cbn [ctx world].
      rewrite !add_event_single, add_events_add_events, invocations_add_events.
      change (count_invoke _) with 1.
      destruct (Hfail (S i)) as [e' He']; [lia|].
      exists e'. by replace (invocations w + 1 + i) with (invocations w + S i) by lia.
    + cbn [ctx world].
      rewrite !add_event_single, add_events_add_events, invocations_add_events.
      change (count_invoke _) with 1.
      by replace (invocations w + 1 + k) with (invocations w + S k) by lia.
    + done.
    + exists s'. split; [done|]. rewrite Htrace, retry_history_from_S. simpl.
      by rewrite <- !app_assoc.
Qed.

(** As long as the attempts fail retriably the loop goes on. *)
Lemma transaction_loop_running (fuel : nat) (readOnly : bool) (funcId : nat)
    (txn : UserFunction) (wait : Z) (s : State) :
  buffer_fresh s ->
  txn_table (world s) !! (workflowUUID (ctx s), funcId) = None ->
  fails_retriably txn (invocations (world s)) fuel ->
  transaction_loop fuel readOnly funcId txn wait s = None.
Proof.
  revert wait s. induction fuel as [|fuel IH]; intros wait [w [uuid n buf]] Hfresh Hrow Hfail;
    [done|].
  cbn [ctx world workflowUUID] in *. rewrite transaction_loop_step.
  destruct (Hfail 0) as [e [He Hretry]]; [lia|]. rewrite Nat.add_0_r in He.
  assert (Hstep : userDatabase_transaction (wrappedTransaction readOnly funcId txn)
                    (mkState w (mkCtx uuid n buf))
                  = (Throws e, mkState (add_event Invoke w)
                                       (mkCtx uuid n (<[funcId := guard_of w]> buf)))).
  { destruct readOnly.
    - by rewrite attempt_readonly, He.
    - by rewrite attempt_write, He. }
  rewrite Hstep, Hretry. cbn [ctx world]. apply IH.
  - solve_fresh.
  - done.
  - intros i Hi. cbn [ctx world].
    rewrite !add_event_single, add_events_add_events, invocations_add_events.
    change (count_invoke _) with 1.
    destruct (Hfail (S i)) as [e' He']; [lia|].
    exists e'. by replace (invocations w + 1 + i) with (invocations w + S i) by lia.
Qed.

Lemma fails_retriably_le (txn : UserFunction) (start k n : nat) :
  n <= k -> fails_retriably txn start k -> fails_retriably txn start n.
Proof. intros Hle Hfail i Hi. apply Hfail. lia. Qed.

Lemma always_serialization_failure_fails (start k : nat) :
  fails_retriably always_serialization_failure start k.
Proof. intros i _. by exists serialization_failure. Qed.

Lemma sleeps_retry_history (k : nat) :
  sleeps (retry_history k) = (fun i => inject_Z (2 ^ Z.of_nat i)) <$> seq 0 k.
Proof.
  unfold retry_history, sleeps. rewrite flat_map_app. simpl. rewrite app_nil_r.
  induction (seq 0 k) as [|i l IH]; [done|]. simpl. by rewrite IH.
Qed.

Lemma fails_twice_fails : fails_retriably fails_twice 0 2.
Proof.
  intros i Hi. exists serialization_failure.
  destruct i as [|[|i]]; [done | done | lia].
Qed.

(** ** The retry loop of a non-transactional step *)

Lemma counter_lt_finite (n : nat) (m : Q) :
  counter_lt n (Finite m) = true <-> (inject_Z (Z.of_nat n) < m)%Q.
Proof.
  unfold counter_lt. rewrite Qlt_alt. by destruct (inject_Z (Z.of_nat n) ?= m)%Q.
Qed.

(** An attempt counter is below a finite number exactly when it is below
    its ceiling. *)
Lemma counter_lt_ceiling (n : nat) (m : Q) :
  counter_lt n (Finite m) = true <-> (Z.of_nat n < Qceiling m)%Z.
Proof.
  rewrite counter_lt_finite. split.
  - intros Hlt. pose proof (Qle_ceiling m) as Hle.
    assert (H : (inject_Z (Z.of_nat n) < inject_Z (Qceiling m))%Q)
      by (eapply Qlt_le_trans; eassumption).
    by rewrite <- Zlt_Qlt in H.
  - intros Hlt. pose proof (Qceiling_lt m) as Hc.
    eapply Qle_lt_trans; [|exact Hc]. rewrite <- Zle_Qle. lia.
Qed.

Lemma counter_lt_le (n n' : nat) (x : JSNumber) :
  n <= n' -> counter_lt n' x = true -> counter_lt n x = true.
Proof.
  intros Hle. destruct x as [m| | |]; try done.
  rewrite !counter_lt_ceiling. lia.
Qed.

Lemma backoff_from_shift (times : Q -> Q -> Q) (rate start : Q) (i : nat) :
  backoff_from times rate (times start rate) i = backoff_from times rate start (S i).
Proof. induction i as [|i IH]; [done|]. simpl. by rewrite IH. Qed.

Lemma failures_history_S (times : Q -> Q -> Q) (rate start : Q) (k : nat) :
  [Invoke; Sleep start]
  ++ flat_map (fun i => [Invoke; Sleep (backoff_from times rate (times start rate) i)])
              (seq 0 k)
  = flat_map (fun i => [Invoke; Sleep (backoff_from times rate start i)]) (seq 0 (S k)).
Proof.
  rewrite <- cons_seq, <- seq_shift. simpl. do 2 f_equal.
  induction (seq 0 k) as [|i l IH]; [done|]. simpl. by rewrite IH, backoff_from_shift.
Qed.

Lemma attempts_history_from_S (times : Q -> Q -> Q) (rate start : Q) (k : nat) :
  attempts_history_from times rate start (S k)
  = Invoke :: Sleep start :: attempts_history_from times rate (times start rate) k.
Proof.
  unfold attempts_history_from. by rewrite <- failures_history_S.
Qed.

Lemma count_invoke_attempts_history (times : Q -> Q -> Q) (rate start : Q) (k : nat) :
  count_invoke (attempts_history_from times rate start k) = S k.
Proof.
  revert start. induction k as [|k IH]; intros start; [done|].
  rewrite attempts_history_from_S. change (count_invoke (Invoke :: Sleep start :: ?l))
    with (S (count_invoke l)). by rewrite IH.
Qed.

Lemma count_invoke_failures (times : Q -> Q -> Q) (rate start : Q) (k : nat) :
  count_invoke (flat_map (fun i => [Invoke; Sleep (backoff_from times rate start i)])
                         (seq 0 k)) = k.
Proof.
  pose proof (count_invoke_attempts_history times rate start k) as H.
  unfold attempts_history_from, count_invoke in *.
  rewrite filter_app, length_app in H. change (length (filter _ [Invoke])) with 1 in H. lia.
Qed.

Lemma sleeps_attempts_history (times : Q -> Q -> Q) (rate start : Q) (k : nat) :
  sleeps (attempts_history_from times rate start k) = backoff_from times rate start <$> seq 0 k.
Proof.
  unfold attempts_history_from, sleeps. rewrite flat_map_app. simpl. rewrite app_nil_r.
  induction (seq 0 k) as [|i l IH]; [done|]. simpl. by rewrite IH.
Qed.

Section ExternalLoop.

Variables (times : Q -> Q -> Q) (ctxt : CommunicatorContextImpl) (commFn : UserFunction).

Lemma external_loop_done (fuel a : nat) (interval : Q) (s : State) :
  counter_lt a (maxAttempts ctxt) = false ->
  external_loop times fuel ctxt commFn a interval s = Some (None, s).
Proof.
  intros Hcond. destruct fuel; simpl; by rewrite Hcond.
Qed.

Lemma external_loop_step (fuel a : nat) (interval : Q) (w : World) (c : WorkflowContextImpl) :
  counter_lt a (maxAttempts ctxt) = true ->
  external_loop times (S fuel) ctxt commFn a interval (mkState w c)
  = match commFn (invocations w) with
    | Returns result => Some (Some result, mkState (add_events [Invoke] w) c)
    | Throws _ =>
        if counter_lt (S a) (maxAttempts ctxt)
        then external_loop times fuel ctxt commFn (S a) (times interval (backoffRate ctxt))
               (mkState (add_events [Invoke; Sleep interval] w) c)
        else external_loop times fuel ctxt commFn (S a) interval
               (mkState (add_events [Invoke] w) c)
    end.
Proof.
  intros Hcond. simpl. rewrite Hcond. unfold call; simpl.
  destruct (commFn (invocations w)); [done|].
  destruct (counter_lt (S a) (maxAttempts ctxt)); [|done].
  do 2 f_equal. unfold add_events, add_event; simpl. by rewrite <- app_assoc.
Qed.

(** [k] failed attempts that are not the last ones, each followed by its
    sleep. *)
Lemma external_loop_failures (k fuel a : nat) (interval : Q) (w : World)
    (c : WorkflowContextImpl) :
  counter_lt (a + k) (maxAttempts ctxt) = true ->
  fails commFn (invocations w) k ->
  external_loop times (k + fuel) ctxt commFn a interval (mkState w c)
  = external_loop times fuel ctxt commFn (a + k)
      (backoff_from times (backoffRate ctxt) interval k)
      (mkState (add_events
                  (flat_map (fun i => [Invoke;
                                       Sleep (backoff_from times (backoffRate ctxt) interval i)])
                            (seq 0 k)) w) c).
Proof.
  revert a interval w. induction k as [|k IH]; intros a interval w Hlt Hfail.
  - simpl. by rewrite Nat.add_0_r, add_events_nil.
  - destruct (Hfail 0) as [e He]; [lia|]. rewrite Nat.add_0_r in He.
    change (S k + fuel) with (S (k + fuel)).
    rewrite external_loop_step, He by (apply (counter_lt_le a (a + S k)); [lia|done]).
    assert (Hcond : counter_lt (S a) (maxAttempts ctxt) = true)
      by (apply (counter_lt_le (S a) (a + S k)); [lia|done]).
    rewrite Hcond, IH.
    + rewrite add_events_add_events, backoff_from_shift, failures_history_S.
      by replace (S a + k) with (a + S k) by lia.
    + by replace (S a + k) with (a + S k) by lia.
    + intros i Hi. rewrite invocations_add_events. change (count_invoke _) with 1.
      destruct (Hfail (S i)) as [e' He']; [lia|]. exists e'.
      by replace (invocations w + 1 + i) with (invocations w + S i) by lia.
Qed.

(** The loop only adds to the history, and every attempt it makes has
    passed the test of the loop. *)
Lemma external_loop_frame (fuel a : nat) (interval : Q) (s : State)
    (result : option JSValue) (s' : State) :
  external_loop times fuel ctxt commFn a interval s = Some (result, s') ->
  exists evs, s' = mkState (add_events evs (world s)) (ctx s)
              /\ forall j, j < count_invoke evs -> counter_lt (a + j) (maxAttempts ctxt) = true.
Proof.
  revert a interval s. induction fuel as [|fuel IH]; intros a interval [w c] Hrun.
  - simpl in Hrun. destruct (counter_lt a (maxAttempts ctxt)); [done|].
    injection Hrun as <- <-. exists []. rewrite add_events_nil. split; [done|].
    change (count_invoke []) with 0. lia.
  - destruct (counter_lt a (maxAttempts ctxt)) eqn:Hlt.
    + rewrite external_loop_step in Hrun by done.
      assert (Hfirst : forall evs n,
                 (forall j, j < count_invoke evs -> counter_lt (S a + j) (maxAttempts ctxt) = true) ->
                 n = S (count_invoke evs) ->
                 forall j, j < n -> counter_lt (a + j) (maxAttempts ctxt) = true).
      { intros evs n Hevs -> [|j] Hj; [by rewrite Nat.add_0_r|].
        replace (a + S j) with (S a + j) by lia. apply Hevs. lia. }
      destruct (commFn (invocations w)) as [v|e].
      * injection Hrun as <- <-. exists [Invoke]. split; [done|].
        apply (Hfirst [] 1); [|done]. change (count_invoke []) with 0. lia.
      * destruct (counter_lt (S a) (maxAttempts ctxt)).
        -- apply IH in Hrun as [evs [-> Hcount]]. cbn [world ctx].
           exists ([Invoke; Sleep interval] ++ evs). rewrite add_events_add_events.
           split; [done|]. apply (Hfirst evs); [done|].
           unfold count_invoke. rewrite filter_app, length_app.
           by change (length (filter _ [Invoke; Sleep interval])) with 1.
        -- apply IH in Hrun as [evs [-> Hcount]]. cbn [world ctx].
           exists ([Invoke] ++ evs). rewrite add_events_add_events.
           split; [done|]. apply (Hfirst evs); [done|].
           unfold count_invoke. rewrite filter_app, length_app.
           by change (length (filter _ [Invoke])) with 1.
    + rewrite external_loop_done in Hrun by done. injection Hrun as <- <-.
      exists []. rewrite add_events_nil. split; [done|].
      change (count_invoke []) with 0. lia.
Qed.

(** With as much fuel as attempts remain the loop ends. *)
Lemma external_loop_total (fuel a : nat) (interval : Q) (s : State) :
  counter_lt (a + fuel) (maxAttempts ctxt) = false ->
  exists result s', external_loop times fuel ctxt commFn a interval s = Some (result, s').
Proof.
  revert a interval s. induction fuel as [|fuel IH]; intros a interval [w c] Hfuel.
  - rewrite Nat.add_0_r in Hfuel. rewrite external_loop_done by done. eauto.
  - destruct (counter_lt a (maxAttempts ctxt)) eqn:Hlt.
    + rewrite external_loop_step by done.
      destruct (commFn (invocations w)) as [v|e]; [by eauto|].
      destruct (counter_lt (S a) (maxAttempts ctxt)); apply IH;
        by replace (S a + fuel) with (a + S fuel) by lia.
    + rewrite external_loop_done by done. eauto.
Qed.

End ExternalLoop.

Lemma counter_lt_spec (n : nat) (x : JSNumber) :
  counter_lt n x = true <-> within_attempts n x.
Proof.
  destruct x as [m| | |]; [apply counter_lt_finite | done | done | done].
Qed.

Lemma counter_lt_false (n : nat) (x : JSNumber) :
  counter_lt n x = false <-> ~ within_attempts n x.
Proof.
  rewrite <- counter_lt_spec. by destruct (counter_lt n x).
Qed.

(** What the test of the loop allows: at most the ceiling of a finite
    bound, nothing under NaN or a negative infinity. *)
Lemma attempts_bound (made : nat) (x : JSNumber) :
  (forall j, j < made -> counter_lt j x = true) ->
  match x with
  | Finite m => (Z.of_nat made <= Z.max 0 (Qceiling m))%Z
  | Infinity => True
  | NegInfinity | NaN => made = 0
  end.
Proof.
  intros Hall. destruct x as [m| | |]; [|done| |].
  - destruct made as [|j]; [lia|].
    specialize (Hall j (Nat.lt_succ_diag_r j)). apply counter_lt_ceiling in Hall. lia.
  - destruct made as [|j]; [done|]. by specialize (Hall 0 (Nat.lt_0_succ j)).
  - destruct made as [|j]; [done|]. by specialize (Hall 0 (Nat.lt_0_succ j)).
Qed.

(** ** Calls of [external] *)

Lemma external_loop_succeeds (times : Q -> Q -> Q) (k fuel : nat)
    (ctxt : CommunicatorContextImpl) (commFn : UserFunction)
    (w : World) (c : WorkflowContextImpl) (v : JSValue) :
  counter_lt k (maxAttempts ctxt) = true ->
  fails commFn (invocations w) k ->
  commFn (invocations w + k) = Returns v ->
  external_loop times (S k + fuel) ctxt commFn 0 (intervalSeconds ctxt) (mkState w c)
  = Some (Some v, mkState (add_events (attempts_history times ctxt k) w) c).
Proof.
  intros Hlt Hfail Hv.
  replace (S k + fuel) with (k + S fuel) by lia.
  rewrite external_loop_failures by done.
  rewrite external_loop_step by done.
  rewrite invocations_add_events, count_invoke_failures, Hv.
  by rewrite add_events_add_events.
Qed.

Lemma external_loop_last_failure (times : Q -> Q -> Q) (k fuel : nat)
    (ctxt : CommunicatorContextImpl) (commFn : UserFunction) (w : World)
    (c : WorkflowContextImpl) :
  counter_lt k (maxAttempts ctxt) = true ->
  counter_lt (S k) (maxAttempts ctxt) = false ->
  fails commFn (invocations w) (S k) ->
  external_loop times (S k + fuel) ctxt commFn 0 (intervalSeconds ctxt) (mkState w c)
  = Some (None, mkState (add_events (attempts_history times ctxt k) w) c).
Proof.
  intros Hlt Hmax Hfail.
  replace (S k + fuel) with (k + S fuel) by lia.
  rewrite external_loop_failures; [|done|intros i Hi; apply Hfail; lia].
  rewrite external_loop_step by done.
  rewrite invocations_add_events, count_invoke_failures.
  destruct (Hfail k) as [e He]; [lia|]. rewrite He.
  cbn [Nat.add]. rewrite Hmax, external_loop_done by done. by rewrite add_events_add_events.
Qed.

Lemma external_record_fresh (funcID : nat) (result : option JSValue) (err : option JsError)
    (s : State) :
  op_table (world s) !! (workflowUUID (ctx s), funcID) = None ->
  external_record funcID result err s
  = (outcome_of result err,
     mkState (set_op_table (<[(workflowUUID (ctx s), funcID) :=
                                recorded_op (outcome_of result err)]> (op_table (world s)))
                           (world s)) (ctx s)).
Proof.
  intros Hrow. unfold external_record, recordOperationOutput, recordOperationError,
    record_operation, bind.
  destruct result as [v|]; rewrite Hrow; done.
Qed.

Lemma external_eq (times : Q -> Q -> Q) (fuel : nat) (commName : string)
    (ctxt : CommunicatorContextImpl) (commFn : UserFunction) (s : State) :
  buffer_fresh s ->
  op_table (world s) !! (workflowUUID (ctx s), functionID (ctx s)) = None ->
  external times fuel commName (Some ctxt) commFn s
  = if retriesAllowed ctxt
    then
      match external_loop times fuel ctxt commFn 0 (intervalSeconds ctxt) (after_flush s) with
      | Some (result, s2) => Some (external_record (functionID (ctx s)) result None s2)
      | None => None
      end
    else
      match external_once commFn (after_flush s) with
      | ((result, err), s2) => Some (external_record (functionID (ctx s)) result err s2)
      end.
Proof.
  intros Hfresh Hrow. unfold external, external_begin, bind.
  rewrite next_functionID_eq. unfold userDatabase_transaction.
  rewrite flushResultBuffer_fresh by (by apply buffer_fresh_next).
  cbn [ctx world workflowUUID functionID resultBuffer set_resultBuffer].
  unfold checkOperationOutput. cbn [world ctx op_table set_txn_table]. rewrite Hrow.
  done.
Qed.

Lemma after_flush_invocations (s : State) :
  invocations (world (after_flush s)) = invocations (world s).
Proof. reflexivity. Qed.

Lemma external_begin_memory (s : State) :
  trace (world (external_begin s).2) = trace (world s).
Proof.
  unfold external_begin, bind. rewrite next_functionID_eq. unfold userDatabase_transaction.
  destruct (flushResultBuffer_memory
              (mkState (world s) (mkCtx (workflowUUID (ctx s)) (S (functionID (ctx s)))
                                        (resultBuffer (ctx s))))) as [Htr _].
  destruct (flushResultBuffer _) as [[[]|e] s1]; simpl in *; [|done].
  unfold checkOperationOutput; simpl. destruct (op_table (world s1) !! _) as [r|]; [|done].
  by destruct (negb (is_null (JSON_parse (op_error r)))).
Qed.

Lemma external_record_memory (funcID : nat) (result : option JSValue) (err : option JsError)
    (s : State) :
  trace (world (external_record funcID result err s).2) = trace (world s).
Proof.
  unfold external_record, recordOperationOutput, recordOperationError, record_operation, bind.
  destruct result as [v|]; destruct (op_table (world s) !! _) as [old|]; simpl; try done.
  - by destruct (_ && _).
  - by destruct (_ && _).
Qed.

(** With retries allowed, every attempt a call makes has passed the test
    [numAttempts < maxAttempts], whatever the state the call starts
    from. *)
Lemma external_invocations_bound (times : Q -> Q -> Q) (fuel : nat) (commName : string)
    (ctxt : CommunicatorContextImpl) (commFn : UserFunction) (s : State)
    (out : Completion JSValue) (s' : State) :
  retriesAllowed ctxt = true ->
  external times fuel commName (Some ctxt) commFn s = Some (out, s') ->
  forall j, j < invocations (world s') - invocations (world s) ->
            counter_lt j (maxAttempts ctxt) = true.
Proof.
  intros Hretry. unfold external. rewrite Hretry.
  pose proof (external_begin_memory s) as Hbegin.
  destruct (external_begin s) as [[[funcID [check|]]|e] s1]; simpl in Hbegin.
  - intros H. injection H as _ <-. unfold invocations. rewrite Hbegin. lia.
  - destruct (external_loop _ _ _ _ _ _ s1) as [[result s2]|] eqn:Hloop; [|done].
    intros H. injection H as H.
    apply external_loop_frame in Hloop as [evs [-> Hcount]].
    pose proof (external_record_memory funcID result None
                  (mkState (add_events evs (world s1)) (ctx s1))) as Hrec.
    rewrite H in Hrec. simpl in Hrec. unfold invocations. rewrite Hrec, Hbegin.
    intros j Hj. apply (Hcount j).
    unfold count_invoke in *. rewrite filter_app, length_app in Hj. lia.
  - intros H. injection H as _ <-. unfold invocations. rewrite Hbegin. lia.
Qed.

Lemma fails_always_boom (start k : nat) : fails always_boom start k.
Proof. intros i _. by exists boom. Qed.

(** ** Replay in the debugger *)

Lemma json_eqb_refl (j : Json) : json_eqb j j = true.
Proof.
  revert j. fix IH 1. intros [| b | n | s | items | fields]; simpl.
  - done.
  - by destruct b.
  - apply Z.eqb_refl.
  - apply String.eqb_refl.
  - induction items as [|x xs IHxs]; [done|]. by rewrite IH, IHxs.
  - induction fields as [|[k x] xs IHxs]; [done|].
    by rewrite String.eqb_refl, IH, IHxs.
Qed.

Lemma debug_checkExecution_recorded (debugProxy : bool) (funcID : nat) (s : DebugState)
    (row : transaction_outputs) :
  txn_table (debug_world s) !! (debug_workflowUUID (debug_ctx s), funcID) = Some row ->
  is_null (JSON_parse (row_error row)) = true ->
  debug_checkExecution debugProxy funcID s
  = (Returns (CheckRecorded (mkRecorded (JSON_parse (row_output row)) (row_txn_snapshot row)
                                        (row_txn_id row))), s).
Proof.
  intros Hrow Hnull. unfold debug_checkExecution, debug_query. by rewrite Hrow, Hnull.
Qed.

(** ** Consistency is an invariant of sequential execution *)

Lemma table_final_flushed (uuid : string) (buf : gmap nat BufferedResult)
    (tbl : gmap (string * nat) transaction_outputs) :
  table_final tbl -> table_final (flushed_table uuid buf tbl).
Proof.
  intros Hfinal [u f] r Hr.
  destruct (decide (u = uuid)) as [->|Hne].
  - destruct (buf !! f) as [b|] eqn:Hb.
    + rewrite (lookup_flushed_buffered _ _ _ _ b) in Hr by done. by injection Hr as <-.
    + rewrite lookup_flushed_other in Hr by (by right). by apply (Hfinal _ _ Hr).
  - rewrite lookup_flushed_other in Hr by (by left). by apply (Hfinal _ _ Hr).
Qed.

Lemma table_final_insert (key : string * nat) (r : transaction_outputs)
    (tbl : gmap (string * nat) transaction_outputs) :
  isRetriableTransactionError (deserializeError (JSON_parse (row_error r))) = false ->
  table_final tbl -> table_final (<[key := r]> tbl).
Proof.
  intros Hr Hfinal key' r' Hlook.
  destruct (decide (key = key')) as [<-|Hne].
  - rewrite lookup_insert_eq in Hlook. by injection Hlook as <-.
  - rewrite lookup_insert_ne in Hlook by done. by apply (Hfinal _ _ Hlook).
Qed.

Lemma table_final_with_error (err : JsError) (key : string * nat)
    (tbl : gmap (string * nat) transaction_outputs) :
  isRetriableTransactionError err = false ->
  table_final tbl -> table_final (with_error err key tbl).
Proof.
  intros Herr Hfinal. unfold with_error. destruct (tbl !! key) as [r|]; [|done].
  apply table_final_insert; [|done]. cbn [row_error JSON_parse].
  by rewrite deserialize_serialize.
Qed.

(** A new execution of the workflow starts consistent. *)
Lemma restart_consistent (uuid : string) (s : State) :
  recorded_errors_final (world s) -> consistent (restart uuid s).
Proof. intros Hfinal. split; [apply buffer_fresh_empty | done]. Qed.

Lemma transaction_loop_consistent (fuel : nat) (readOnly : bool) (funcId : nat)
    (txn : UserFunction) (wait : Z) (s : State) (out : Completion JSValue) (s' : State) :
  consistent s ->
  transaction_loop fuel readOnly funcId txn wait s = Some (out, s') ->
  consistent s'.
Proof.
  revert wait s. induction fuel as [|fuel IH]; intros wait [w [uuid n buf]] [Hfresh Hfinal] Hrun;
    [done|].
  rewrite transaction_loop_step in Hrun.
  destruct (txn_table w !! (uuid, funcId)) as [r0|] eqn:Hrow.
  - rewrite (attempt_recorded _ _ _ _ r0) in Hrun by done.
    destruct (is_null (JSON_parse (row_error r0))).
    + by injection Hrun as _ <-.
    + rewrite (Hfinal _ _ Hrow), record_and_throw_fresh in Hrun by done.
      injection Hrun as _ <-. split; [apply buffer_fresh_empty|].
      apply table_final_with_error; [by apply (Hfinal _ _ Hrow)|].
      by apply table_final_flushed.
  - assert (Hguard : buffer_fresh (mkState (add_event Invoke w)
                                           (mkCtx uuid n (<[funcId := guard_of w]> buf))))
      by solve_fresh.
    assert (Hthrow : forall e,
               (if isRetriableTransactionError e
                then transaction_loop fuel readOnly funcId txn (wait * 2)
                       (mkState (add_event (Sleep (inject_Z wait)) (add_event Invoke w))
                                (mkCtx uuid n (<[funcId := guard_of w]> buf)))
                else Some (record_and_throw funcId e
                             (mkState (add_event Invoke w)
                                      (mkCtx uuid n (<[funcId := guard_of w]> buf)))))
               = Some (out, s') -> consistent s').
    { intros e He. destruct (isRetriableTransactionError e) eqn:Hretry.
      - apply IH in He; [done|]. split; [by apply buffer_fresh_add_event | done].
      - rewrite record_and_throw_fresh in He by done. injection He as _ <-.
        split; [apply buffer_fresh_empty|].
        apply table_final_with_error; [done|]. by apply table_final_flushed. }
    destruct readOnly.
    + rewrite attempt_readonly in Hrun by done.
      destruct (txn (invocations w)) as [v|e]; [|by apply (Hthrow e)].
      injection Hrun as _ <-. split; [|done].
      apply buffer_fresh_add_event. by apply buffer_fresh_guard.
    + rewrite attempt_write in Hrun by done.
      destruct (txn (invocations w)) as [v|e]; [|by apply (Hthrow e)].
      injection Hrun as _ <-. split; [apply buffer_fresh_empty|].
      apply table_final_insert; [done|]. by apply table_final_flushed.
Qed.

(** Every call of [transaction] that ends leaves a consistent state. *)
Lemma transaction_consistent (fuel : nat) (txnName : string) (config : option TransactionConfig)
    (txn : UserFunction) (s : State) (out : Completion JSValue) (s' : State) :
  consistent s ->
  transaction fuel txnName config txn s = Some (out, s') ->
  consistent s'.
Proof.
  intros Hcons. destruct config as [config|].
  - rewrite transaction_eq. apply transaction_loop_consistent.
    destruct Hcons as [Hfresh Hfinal]. split; [by apply buffer_fresh_next | done].
  - intros H. by injection H as _ <-.
Qed.

(** So does every call of [external]: it flushes and clears the buffer
    and then touches neither the buffer nor the table. *)
Lemma external_consistent (times : Q -> Q -> Q) (fuel : nat) (commName : string)
    (commConfig : option CommunicatorContextImpl) (commFn : UserFunction) (s : State)
    (out : Completion JSValue) (s' : State) :
  consistent s ->
  external times fuel commName commConfig commFn s = Some (out, s') ->
  consistent s'.
Proof.
  intros [Hfresh Hfinal]. destruct commConfig as [ctxt|];
    [|intros H; by injection H as _ <-].
  unfold external.
  assert (Hbegin : exists c, external_begin s = (c, after_flush s)).
  { unfold external_begin, bind. rewrite next_functionID_eq. unfold userDatabase_transaction.
    rewrite flushResultBuffer_fresh by (by apply buffer_fresh_next).
    cbn [ctx world workflowUUID functionID resultBuffer set_resultBuffer].
    unfold checkOperationOutput. cbn [world ctx op_table set_txn_table].
    destruct (op_table (world s) !! _) as [r|]; [|by eauto].
    destruct (negb (is_null (JSON_parse (op_error r)))); by eauto. }
  destruct Hbegin as [c Hbegin]. rewrite Hbegin.
  assert (Hafter : consistent (after_flush s)).
  { split; [apply buffer_fresh_empty|]. by apply table_final_flushed. }
  assert (Hrecord : forall funcID result err evs,
             consistent (external_record funcID result err
                           (mkState (add_events evs (world (after_flush s)))
                                    (ctx (after_flush s)))).2).
  { intros funcID result err evs.
    unfold external_record, recordOperationOutput, recordOperationError, record_operation, bind.
    destruct result as [v|]; cbn [world ctx op_table add_events];
      destruct (op_table (world (after_flush s)) !! _) as [old|]; simpl; try done.
    - by destruct (_ && _).
    - by destruct (_ && _). }
  destruct c as [[funcID [check|]]|e].
  - intros H. by injection H as _ <-.
  - destruct (retriesAllowed ctxt).
    + destruct (external_loop _ _ _ _ _ _ _) as [[result s2]|] eqn:Hloop; [|done].
      apply external_loop_frame in Hloop as [evs [-> _]].
      intros H. injection H as H.
      rewrite <- (f_equal snd H : (external_record funcID result None
                    (mkState (add_events evs (world (after_flush s)))
                             (ctx (after_flush s)))).2 = s').
      apply Hrecord.
    + unfold external_once, call.
      destruct (commFn _) as [v|e]; intros H; injection H as H.
      * rewrite <- (f_equal snd H : (external_record funcID (Some v) None
                      (mkState (add_events [Invoke] (world (after_flush s)))
                               (ctx (after_flush s)))).2 = s').
        apply Hrecord.
      * rewrite <- (f_equal snd H : (external_record funcID None (Some e)
                      (mkState (add_events [Invoke] (world (after_flush s)))
                               (ctx (after_flush s)))).2 = s').
        apply Hrecord.
  - intros H. by injection H as _ <-.
Qed.

(** Once the outcome of a non-transactional step is recorded, [external]
    returns it and does not enter the user function. *)
Lemma external_recorded_output (times : Q -> Q -> Q) (fuel : nat) (commName : string)
    (ctxt : CommunicatorContextImpl) (commFn : UserFunction) (s : State)
    (r : operation_outputs) :
  buffer_fresh s ->
  op_table (world s) !! (workflowUUID (ctx s), functionID (ctx s)) = Some r ->
  is_null (JSON_parse (op_error r)) = true ->
  external times fuel commName (Some ctxt) commFn s
  = Some (Returns (VJson (JSON_parse (op_output r))), after_flush s).
Proof.
  intros Hfresh Hrow Hnull. unfold external, external_begin, bind.
  rewrite next_functionID_eq. unfold userDatabase_transaction.
  rewrite flushResultBuffer_fresh by (by apply buffer_fresh_next).
  cbn [ctx world workflowUUID functionID resultBuffer set_resultBuffer].
  unfold checkOperationOutput. cbn [world ctx op_table set_txn_table].
  by rewrite Hrow, Hnull.
Qed.

Example no_retries_runs_once :
  exists s',
    external small_product 0 "testCommunicator" (Some no_retries) always_boom first_run
    = Some (Throws boom, s')
    /\ trace (world s') = [Invoke]
    /\ op_table (world s') !! ("W", 0)
       = Some (mkOp None (Some (serializeError boom))).
Proof.
  eexists. split; [vm_compute; reflexivity|]. split; reflexivity.
Qed.

(** The guard is what stops a racing duplicate: if the row of the step
    appears between the check and the flush of a read-write step, the
    flush of the guard fails before the user function is called. *)
Lemma guard_collides_with_committed_duplicate (funcId : nat) (snapshot : string) (s : State)
    (row : transaction_outputs) :
  txn_table (world s) !! (workflowUUID (ctx s), funcId) = Some row ->
  (guardOperation funcId snapshot ;;; flushResultBuffer) s
  = (Throws (DBOSWorkflowConflictUUIDError (workflowUUID (ctx s))),
     mkState (world s)
             (mkCtx (workflowUUID (ctx s)) (functionID (ctx s))
                    (<[funcId := mkBuffered (VJson JNull) snapshot]> (resultBuffer (ctx s))))).
Proof.
  intros Hrow. unfold bind, guardOperation, set_resultBuffer.
  rewrite (flushResultBuffer_taken _ funcId); [done | |].
  - cbn [ctx resultBuffer]. rewrite lookup_insert_eq. by eexists.
  - cbn [ctx world workflowUUID]. by eexists.
Qed.

(** ** A buffer that cannot be flushed *)



(** The catch block over such a buffer: the flush fails, the error of the
    step is not recorded, and the conflict is what the block throws. *)
Lemma record_and_throw_stale (funcId f : nat) (err : JsError) (s : State) :
  is_Some (resultBuffer (ctx s) !! f) ->
  is_Some (txn_table (world s) !! (workflowUUID (ctx s), f)) ->
  record_and_throw funcId err s
  = (Throws (DBOSWorkflowConflictUUIDError (workflowUUID (ctx s))), s).
Proof.
  intros Hbuf Hrow. unfold record_and_throw, userDatabase_transaction, bind.
  rewrite (flushResultBuffer_taken _ f) by done.
  rewrite set_txn_table_same. by destruct s.
Qed.

Lemma not_buffer_fresh (s : State) :
  ~ buffer_fresh s ->
  exists f, is_Some (resultBuffer (ctx s) !! f)
            /\ is_Some (txn_table (world s) !! (workflowUUID (ctx s), f)).
Proof. intros Hnot. by destruct (buffer_fresh_dec s). Qed.

Lemma stale_not_fresh (s : State) (f : nat) :
  is_Some (resultBuffer (ctx s) !! f) ->
  is_Some (txn_table (world s) !! (workflowUUID (ctx s), f)) ->
  ~ buffer_fresh s.
Proof. intros Hbuf [r Hrow] Hfresh. by rewrite (Hfresh f Hbuf) in Hrow. Qed.

(** The replay of a recorded error by an execution whose buffer cannot be
    flushed ends with the conflict, not with the recorded error. *)
Lemma replay_stale_conflict (fuel : nat) (readOnly : bool) (funcId : nat) (txn : UserFunction)
    (wait : Z) (s : State) (row : transaction_outputs) :
  txn_table (world s) !! (workflowUUID (ctx s), funcId) = Some row ->
  is_null (JSON_parse (row_error row)) = false ->
  isRetriableTransactionError (deserializeError (JSON_parse (row_error row))) = false ->
  ~ buffer_fresh s ->
  transaction_loop (S fuel) readOnly funcId txn wait s
  = Some (Throws (DBOSWorkflowConflictUUIDError (workflowUUID (ctx s))), s).
Proof.
  intros Hrow Hnull Hfinal Hstale. apply not_buffer_fresh in Hstale as [f [Hbuf Hf]].
  rewrite transaction_loop_step, (attempt_recorded _ _ _ _ _ Hrow), Hnull, Hfinal.
  by rewrite (record_and_throw_stale _ f).
Qed.


(** ** Steps that flush the buffer first *)

(** The head shared by [send], [recv] and [setEvent]: take the step
    number, flush the buffer in a transaction of its own, clear it, go
    on. *)
Lemma flush_then_fresh {A : Type} (k : nat -> M State A) (s : State) :
  buffer_fresh s ->
  (funcID <- next_functionID ;;
   userDatabase_transaction flushResultBuffer ;;;
   set_resultBuffer ∅ ;;;
   k funcID) s
  = k (functionID (ctx s)) (after_flush s).
Proof.
  intros Hfresh. unfold bind at 1. rewrite next_functionID_eq.
  unfold bind at 1. unfold userDatabase_transaction.
  rewrite flushResultBuffer_fresh by (by apply buffer_fresh_next). done.
Qed.

Lemma flush_then_stale {A : Type} (k : nat -> M State A) (s : State) (f : nat) :
  is_Some (resultBuffer (ctx s) !! f) ->
  is_Some (txn_table (world s) !! (workflowUUID (ctx s), f)) ->
  (funcID <- next_functionID ;;
   userDatabase_transaction flushResultBuffer ;;;
   set_resultBuffer ∅ ;;;
   k funcID) s
  = (Throws (DBOSWorkflowConflictUUIDError (workflowUUID (ctx s))),
     mkState (world s) (mkCtx (workflowUUID (ctx s)) (S (functionID (ctx s)))
                              (resultBuffer (ctx s)))).
Proof.
  intros Hbuf Hrow. unfold bind at 1. rewrite next_functionID_eq.
  unfold bind at 1. unfold userDatabase_transaction.
  rewrite (flushResultBuffer_taken _ f) by done.
  cbn [ctx world workflowUUID]. by rewrite set_txn_table_same.
Qed.




(** ** Decimal numerals *)

Lemma to_lu_add (r m : nat) :
  Unsigned.to_lu (r + m) = Nat.iter r Decimal.Little.succ (Unsigned.to_lu m).
Proof. induction r as [|r IH]; [done|]. simpl. by rewrite IH. Qed.

(** The little-endian digits of a number: its last digit on top of the
    digits of its tenth. *)
Lemma to_lu_div_mod (n : nat) :
  Unsigned.to_lu n
  = Nat.iter (n mod 10) Decimal.Little.succ
      (if (n / 10 =? 0)%nat then Decimal.zero else Decimal.D0 (Unsigned.to_lu (n / 10))).
Proof.
  rewrite (Nat.div_mod_eq n 10) at 1. rewrite (Nat.add_comm _ (n mod 10)), to_lu_add.
  f_equal. destruct (n / 10 =? 0)%nat eqn:Hq.
  - apply Nat.eqb_eq in Hq. by rewrite Hq.
  - apply Nat.eqb_neq in Hq. by apply Unsigned.to_lu_tenfold.
Qed.

Lemma string_of_revapp_to_lu (n : nat) :
  forall (fuel : nat) (acc : Decimal.uint),
    n < fuel ->
    NilEmpty.string_of_uint (Decimal.revapp (Unsigned.to_lu n) acc)
    = decimal_digits fuel n (NilEmpty.string_of_uint acc).
Proof.
  induction n as [n IH] using lt_wf_ind. intros fuel acc Hfuel.
  destruct fuel as [|fuel]; [lia|]. cbn [decimal_digits].
  rewrite (to_lu_div_mod n).
  assert (Hr : n mod 10 < 10) by (apply Nat.mod_upper_bound; lia).
  assert (Hq : n / 10 <> 0 -> n / 10 < n /\ n / 10 < fuel).
  { intros Hne. assert (Hpos : 0 < n) by (destruct n; [by simpl in Hne | lia]).
    assert (n / 10 < n) by (apply Nat.div_lt; lia). lia. }
  destruct (n / 10 =? 0)%nat eqn:Hzero.
  - destruct (n mod 10) as [|[|[|[|[|[|[|[|[|[|r]]]]]]]]]]; try lia; reflexivity.
  - apply Nat.eqb_neq in Hzero. destruct (Hq Hzero) as [Hlt Hfit].
    destruct (n mod 10) as [|[|[|[|[|[|[|[|[|[|r]]]]]]]]]]; try lia;
      cbn [Nat.iter nat_rect Decimal.Little.succ Decimal.revapp];
      rewrite (IH (n / 10) Hlt fuel) by done; reflexivity.
Qed.

(** The string [+] makes of a step number is its decimal numeral. *)
Lemma number_to_string_decimal (n : nat) : number_to_string n = decimal n.
Proof.
  unfold number_to_string, decimal. rewrite Unsigned.to_uint_alt. unfold Decimal.rev.
  by rewrite (string_of_revapp_to_lu n (S n) Decimal.Nil) by lia.
Qed.

(** ** Equality of JSON texts *)

Lemma json_eqb_eq (a b : Json) : json_eqb a b = true -> a = b.
Proof.
  revert a b. fix IH 1.
  intros [| x | x | x | xs | xs] [| y | y | y | ys | ys]; simpl; try done.
  - intros H. by apply Bool.eqb_prop in H as ->.
  - intros H. by apply Z.eqb_eq in H as ->.
  - intros H. by apply String.eqb_eq in H as ->.
  - intros H. f_equal. revert ys H.
    induction xs as [|x xs IHxs]; intros [|y ys] H; try done.
    apply andb_true_iff in H as [Hx Hxs]. by rewrite (IH x y Hx), (IHxs ys Hxs).
  - intros H. f_equal. revert ys H.
    induction xs as [|[k x] xs IHxs]; intros [|[k' y] ys] H; try done.
    apply andb_true_iff in H as [Hkx Hxs]. apply andb_true_iff in Hkx as [Hk Hx].
    apply String.eqb_eq in Hk as ->. by rewrite (IH x y Hx), (IHxs ys Hxs).
Qed.

Lemma json_eqb_neq (a b : Json) : a <> b -> json_eqb a b = false.
Proof.
  intros Hne. destruct (json_eqb a b) eqn:Heq; [|done]. by apply json_eqb_eq in Heq.
Qed.

(** JavaScript falsiness of a parsed JSON value, case by case. *)
Lemma truthy_false (j : Json) :
  truthy j = false <-> j = JNull \/ j = JBool false \/ j = JNum 0 \/ j = JStr "".
Proof.
  split.
  - destruct j as [| b | n | s | items | fields]; simpl; intros H; try done.
    + by left.
    + right; left. by rewrite H.
    + right; right; left. apply negb_false_iff, Z.eqb_eq in H. by rewrite H.
    + right; right; right. apply negb_false_iff, String.eqb_eq in H. by rewrite H.
  - by intros [-> | [-> | [-> | ->]]].
Qed.

(** * Exactly-once steps: the main results *)

(** ** Replay of a recorded step *)

(** C1, as amended: when the row of step [F] of workflow [W] is already in
    [dbos.transaction_outputs], a call of [transaction] at counter [F]
    never invokes the user function, however it ends.  It returns the
    recorded output when the recorded error decodes to null.  Otherwise
    (the recorded error not being one the adapter retries) it throws the
    deserialized recorded error if no function id in the result buffer
    has a row yet; if one has, the flush in the catch block fails and the
    call throws the workflow-conflict error instead. *)
Theorem C1_recorded_step_is_replayed (s : State) (txnName : string)
    (config : TransactionConfig) (txn : UserFunction) (row : transaction_outputs)
    (fuel : nat) :
  txn_table (world s) !! (workflowUUID (ctx s), functionID (ctx s)) = Some row ->
  let next := mkState (world s) (mkCtx (workflowUUID (ctx s)) (S (functionID (ctx s)))
                                       (resultBuffer (ctx s))) in
  (forall n out s',
     transaction n txnName (Some config) txn s = Some (out, s') ->
     invocations (world s') = invocations (world s))
  /\ (is_null (JSON_parse (row_error row)) = true ->
      transaction (S fuel) txnName (Some config) txn s
      = Some (Returns (VJson (JSON_parse (row_output row))), next))
  /\ (is_null (JSON_parse (row_error row)) = false ->
      isRetriableTransactionError (deserializeError (JSON_parse (row_error row))) = false ->
      (buffer_fresh s ->
       exists s',
         transaction (S fuel) txnName (Some config) txn s
         = Some (Throws (deserializeError (JSON_parse (row_error row))), s')
         /\ invocations (world s') = invocations (world s))
      /\ (~ buffer_fresh s ->
          exists s',
            transaction (S fuel) txnName (Some config) txn s
            = Some (Throws (DBOSWorkflowConflictUUIDError (workflowUUID (ctx s))), s')
            /\ invocations (world s') = invocations (world s))).
Proof.
  intros Hrow next. split; [|split].
  - intros n out s'. rewrite transaction_eq. intros Hrun.
    by apply (replay_never_invokes _ _ _ _ _ _ row) in Hrun.
  - intros Hnull. rewrite transaction_eq, transaction_loop_step.
    rewrite (attempt_recorded _ _ _ _ row) by done. by rewrite Hnull.
  - intros Hnull Hfinal. split.
    + intros Hfresh. rewrite transaction_eq.
      destruct (replay_outcome fuel (is_readOnly config) (functionID (ctx s)) txn 1 next row)
        as [s' [Hrun Hinv]]; [done | by apply buffer_fresh_next | done |].
      rewrite Hnull in Hrun. by exists s'.
    + intros Hstale. exists next. rewrite transaction_eq. split; [|done].
      apply (replay_stale_conflict fuel (is_readOnly config) (functionID (ctx s)) txn 1 next
               row); [done | done | done |].
      intros Hfresh. apply Hstale. intros f Hf. by apply (Hfresh f).
Qed.

Lemma C1_witness :
  txn_table (world replay_of_boom) !! ("W", 0) = Some boom_row
  /\ buffer_fresh replay_of_boom
  /\ (exists s',
        transaction 1 "testFunction" (Some write_config) returns_12 replay_of_boom
        = Some (Throws boom, s')
        /\ invocations (world s') = 0)
  /\ txn_table (world (reaches "W" 0 (debug_world debug_replay))) !! ("W", 0) = Some recorded_12
  /\ transaction 1 "testFunction" (Some write_config) returns_13
                 (reaches "W" 0 (debug_world debug_replay))
     = Some (Returns (VJson (JNum 12)), reaches "W" 1 (debug_world debug_replay))
  /\ txn_table (world duplicate_with_stale_buffer) !! ("W", 1) = Some boom_row
  /\ ~ buffer_fresh duplicate_with_stale_buffer
  /\ exists s',
       transaction 1 "testFunction" (Some write_config) returns_12 duplicate_with_stale_buffer
       = Some (Throws (DBOSWorkflowConflictUUIDError "W"), s')
       /\ invocations (world s') = 0.
Proof.
  assert (Hstale : ~ buffer_fresh duplicate_with_stale_buffer).
  { intros Hfresh. specialize (Hfresh 0 (mk_is_Some _ _ eq_refl)). discriminate Hfresh. }
  split; [reflexivity|]. split; [exact (proj1 replay_of_boom_consistent)|].
  split.
  - exact (proj1 (proj2 (proj2 (C1_recorded_step_is_replayed replay_of_boom "testFunction"
                                  write_config returns_12 boom_row 0 eq_refl))
                   eq_refl eq_refl) (proj1 replay_of_boom_consistent)).
  - split; [reflexivity|]. split.
    + exact (proj1 (proj2 (C1_recorded_step_is_replayed
                             (reaches "W" 0 (debug_world debug_replay)) "testFunction"
                             write_config returns_13 recorded_12 0 eq_refl)) eq_refl).
    + split; [reflexivity|]. split; [exact Hstale|].
      exact (proj2 (proj2 (proj2 (C1_recorded_step_is_replayed duplicate_with_stale_buffer
                                    "testFunction" write_config returns_12 boom_row 0
                                    eq_refl))
                     eq_refl eq_refl) Hstale).
Defined.

(** C1, as stated, fails for a duplicate execution whose buffered output
    another execution has flushed: the row of step 1 records the error
    [boom], yet the call at counter 1 throws the workflow-conflict
    error. *)
Lemma C1_stale_buffer_gets_conflict :
  functionID (ctx duplicate_with_stale_buffer) = 1
  /\ txn_table (world duplicate_with_stale_buffer) !! ("W", 1) = Some boom_row
  /\ is_null (JSON_parse (row_error boom_row)) = false
  /\ deserializeError (JSON_parse (row_error boom_row)) = boom
  /\ (exists s',
        transaction 1 "testFunction" (Some write_config) returns_12 duplicate_with_stale_buffer
        = Some (Throws (DBOSWorkflowConflictUUIDError "W"), s'))
  /\ DBOSWorkflowConflictUUIDError "W" <> boom.
Proof.
  split; [reflexivity|]. split; [reflexivity|]. split; [reflexivity|]. split; [reflexivity|].
  split; [|discriminate]. eexists. vm_compute. reflexivity.
Qed.

(** ** At most one committed run of a step *)




(** ** Conflicts of the flush *)

(** C5, as amended: [flushResultBuffer] raises the workflow-conflict error
    as soon as one buffered function id has a row, whatever that row
    holds, and leaves the table alone; when no buffered id has a row it
    inserts every buffered row. *)
Theorem C5_flush_conflicts_on_any_existing_row (s : State) :
  ((exists f, is_Some (resultBuffer (ctx s) !! f)
              /\ is_Some (txn_table (world s) !! (workflowUUID (ctx s), f)))
   /\ flushResultBuffer s
      = (Throws (DBOSWorkflowConflictUUIDError (workflowUUID (ctx s))), s))
  \/ (buffer_fresh s
      /\ exists tbl,
           flushResultBuffer s = (Returns tt, mkState (set_txn_table tbl (world s)) (ctx s))
           /\ forall uuid f,
                tbl !! (uuid, f)
                = match (if decide (uuid = workflowUUID (ctx s))
                         then resultBuffer (ctx s) !! f else None) with
                  | Some b => Some (buffered_row b)
                  | None => txn_table (world s) !! (uuid, f)
                  end).
Proof.
  destruct (buffer_fresh_dec s) as [Hfresh | [f [Hbuf Hrow]]].
  - right. split; [done|]. eexists. split; [by apply flushResultBuffer_fresh|].
    intros uuid f. destruct (decide (uuid = workflowUUID (ctx s))) as [->|Hne].
    + destruct (resultBuffer (ctx s) !! f) as [b|] eqn:Hb.
      * by apply lookup_flushed_buffered.
      * apply lookup_flushed_other. by right.
    + apply lookup_flushed_other. by left.
  - left. split; [by exists f|]. by apply (flushResultBuffer_taken s f).
Qed.

(** C5, as stated, fails: the flush of a buffered output over a row with
    the very same payload raises the workflow-conflict error. *)
Lemma C5_identical_row_conflicts :
  txn_table (world flush_over_identical_row) !! ("W", 0) = Some (buffered_row buffered_12)
  /\ flush_values "W" (resultBuffer (ctx flush_over_identical_row))
     = [(("W", 0), buffered_row buffered_12)]
  /\ flushResultBuffer flush_over_identical_row
     = (Throws (DBOSWorkflowConflictUUIDError "W"), flush_over_identical_row).
Proof.
  split; [reflexivity|]. split; [vm_compute; reflexivity|].
  apply (flushResultBuffer_taken flush_over_identical_row 0); by eexists.
Qed.

(** ** Buffering of read-only steps *)

(** C7: a read-only step writes no row during its own transaction,
    whether it replays, returns or throws: the guard, and then the output,
    are put in the result buffer under the step's function id.  When the
    step returns (after [k] attempts that failed retriably), the table is
    as before the call and the buffer holds the output, from where a later
    flush writes the row. *)
Theorem C7_readonly_step_is_buffered (s : State) (txnName : string)
    (config : TransactionConfig) (txn : UserFunction) (k fuel : nat) (v : JSValue) :
  is_readOnly config = true ->
  buffer_fresh s ->
  txn_table (world s) !! (workflowUUID (ctx s), functionID (ctx s)) = None ->
  fails_retriably txn (invocations (world s)) k ->
  txn (invocations (world s) + k) = Returns v ->
  (forall s0,
     txn_table (world (wrappedTransaction (is_readOnly config) (functionID (ctx s)) txn s0).2)
     = txn_table (world s0))
  /\ (forall s0,
        txn_table (world s0) !! (workflowUUID (ctx s0), functionID (ctx s)) = None ->
        resultBuffer (ctx (wrappedTransaction (is_readOnly config) (functionID (ctx s))
                                              txn s0).2) !! functionID (ctx s)
        = Some (match (wrappedTransaction (is_readOnly config) (functionID (ctx s)) txn s0).1
                with
                | Returns v0 => mkBuffered v0 (pg_current_snapshot (world s0))
                | Throws _ => guard_of (world s0)
                end))
  /\ exists s1,
       transaction (S k + fuel) txnName (Some config) txn s = Some (Returns v, s1)
       /\ txn_table (world s1) = txn_table (world s)
       /\ resultBuffer (ctx s1)
          = <[functionID (ctx s) := mkBuffered v (pg_current_snapshot (world s))]>
              (resultBuffer (ctx s))
       /\ exists s2,
            flushResultBuffer s1 = (Returns tt, s2)
            /\ txn_table (world s2) !! (workflowUUID (ctx s), functionID (ctx s))
               = Some (mkRow (JSON_stringify v) (Some JNull) None
                             (pg_current_snapshot (world s))).
Proof.
  intros Hro Hfresh Hrow Hfail Hv. rewrite Hro. split; [|split].
  { intros s0. apply wrappedTransaction_readonly_table. }
  { intros s0 Hrow0. by apply wrappedTransaction_readonly_buffer. }
  destruct (transaction_loop_retries k fuel true (functionID (ctx s)) txn 1
              (mkState (world s) (mkCtx (workflowUUID (ctx s)) (S (functionID (ctx s)))
                                        (resultBuffer (ctx s)))) (Returns v))
    as [s1 [Hrun _]]; [by apply buffer_fresh_next | done | done | done | done |].
  exists s1. rewrite transaction_eq, Hro. split; [done|].
  apply readonly_step_buffered in Hrun; [|done].
  cbn [ctx world workflowUUID resultBuffer] in Hrun.
  destruct Hrun as (Htbl & Hbuf & Huuid). split; [done|]. split; [done|].
  assert (Hfresh1 : buffer_fresh s1).
  { intros f Hf. rewrite Htbl, Huuid. rewrite Hbuf in Hf.
    destruct (decide (functionID (ctx s) = f)) as [<-|Hne]; [done|].
    rewrite lookup_insert_ne in Hf by done. by apply Hfresh. }
  eexists. split; [by apply flushResultBuffer_fresh|].
  cbn [world txn_table set_txn_table]. rewrite Huuid, Hbuf.
  by rewrite (lookup_flushed_buffered _ _ _ _ (mkBuffered v (pg_current_snapshot (world s))))
    by apply lookup_insert_eq.
Qed.

Lemma C7_witness :
  is_readOnly readonly_config = true
  /\ buffer_fresh first_run
  /\ txn_table (world first_run) !! ("W", 0) = None
  /\ fails_retriably returns_12 0 0
  /\ exists s1,
       transaction 1 "testFunction" (Some readonly_config) returns_12 first_run
       = Some (Returns (VJson (JNum 12)), s1)
       /\ txn_table (world s1) = ∅
       /\ resultBuffer (ctx s1) = <[0 := mkBuffered (VJson (JNum 12)) "100:100:"]> ∅.
Proof.
  assert (Hnone : fails_retriably returns_12 0 0) by (intros i Hi; lia).
  split; [reflexivity|]. split; [exact first_run_fresh|]. split; [reflexivity|].
  split; [exact Hnone|].
  destruct (C7_readonly_step_is_buffered first_run "testFunction" readonly_config
              returns_12 0 0 (VJson (JNum 12)) eq_refl first_run_fresh eq_refl Hnone eq_refl)
    as (_ & _ & s1 & Hrun & Htbl & Hbuf & _).
  exists s1. split; [exact Hrun|]. split; [exact Htbl | exact Hbuf].
Defined.

(** ** Retries of a transactional step *)

(** C6, as amended: a transactional step whose attempts end in errors
    classified as retriable is retried after waits of 1, 2, 4, ...
    milliseconds, the wait doubling each time, for as many attempts as
    keep failing: no number of retries makes the error surface.  The call
    ends with the outcome of the first attempt that does not fail
    retriably. *)
Theorem C6_serialization_retries_back_off (k fuel : nat) (s : State) (txnName : string)
    (config : TransactionConfig) (txn : UserFunction) (out : Completion JSValue) :
  buffer_fresh s ->
  txn_table (world s) !! (workflowUUID (ctx s), functionID (ctx s)) = None ->
  fails_retriably txn (invocations (world s)) k ->
  txn (invocations (world s) + k) = out ->
  match out with Returns _ => True | Throws e => isRetriableTransactionError e = false end ->
  (exists s',
     transaction (S k + fuel) txnName (Some config) txn s = Some (out, s')
     /\ trace (world s') = trace (world s) ++ retry_history k)
  /\ sleeps (retry_history k) = (fun i => inject_Z (2 ^ Z.of_nat i)) <$> seq 0 k
  /\ (forall n, n <= k -> transaction n txnName (Some config) txn s = None).
Proof.
  intros Hfresh Hrow Hfail Hout Hfin. split; [|split].
  - rewrite transaction_eq, <- retry_history_from_1.
    apply (transaction_loop_retries k fuel (is_readOnly config) (functionID (ctx s)) txn 1
             (mkState (world s) (mkCtx (workflowUUID (ctx s)) (S (functionID (ctx s)))
                                       (resultBuffer (ctx s)))) out);
      [by apply buffer_fresh_next | done | done | done | done].
  - apply sleeps_retry_history.
  - intros n Hn. rewrite transaction_eq.
    apply transaction_loop_running; [by apply buffer_fresh_next | done |].
    by apply (fails_retriably_le txn (invocations (world s)) k).
Qed.

Lemma C6_witness :
  buffer_fresh first_run
  /\ txn_table (world first_run) !! ("W", 0) = None
  /\ fails_retriably fails_twice 0 2
  /\ (exists s',
        transaction 3 "testFunction" (Some write_config) fails_twice first_run
        = Some (Returns (VJson (JStr "done")), s')
        /\ trace (world s')
           = [Invoke; Sleep (inject_Z 1); Invoke; Sleep (inject_Z 2); Invoke])
  /\ transaction 2 "testFunction" (Some write_config) fails_twice first_run = None.
Proof.
  split; [exact first_run_fresh|]. split; [reflexivity|]. split; [exact fails_twice_fails|].
  pose proof (C6_serialization_retries_back_off 2 0 first_run "testFunction" write_config
                fails_twice (Returns (VJson (JStr "done"))) first_run_fresh eq_refl
                fails_twice_fails eq_refl I) as (Hrun & _ & Hnone).
  split; [exact Hrun | exact (Hnone 2 (le_n 2))].
Defined.

(** C6, as stated, fails: no bound [N] on the retries makes the error of
    a transaction that keeps hitting serialization failures surface. *)
Lemma C6_no_retry_bound : ~ exists N, surfaces_after N.
Proof.
  intros [N [e [s' Hrun]]]. rewrite transaction_eq in Hrun.
  rewrite transaction_loop_running in Hrun; [done | apply buffer_fresh_empty | done |].
  apply always_serialization_failure_fails.
Qed.

(** ** Non-transactional steps *)

(** C3, as amended: with retries allowed, [external] invokes the user
    function while the number of attempts made is below [maxAttempts], so
    at most the ceiling of [maxAttempts] times.  After each failed attempt
    that is not the last one allowed it sleeps, the first failure
    included; the sleep after the [i]-th failure (counted from 0) lasts
    [intervalSeconds] multiplied [i] times in succession by [backoffRate],
    in the arithmetic of doubles; nothing is slept after the last
    attempt.  [k] is the number of failed attempts before the final
    one. *)
Theorem C3_retry_schedule (times : Q -> Q -> Q) (s : State) (commName : string)
    (ctxt : CommunicatorContextImpl) (commFn : UserFunction) (k fuel : nat) :
  retriesAllowed ctxt = true ->
  buffer_fresh s ->
  op_table (world s) !! (workflowUUID (ctx s), functionID (ctx s)) = None ->
  within_attempts k (maxAttempts ctxt) ->
  fails commFn (invocations (world s)) k ->
  ((exists v, commFn (invocations (world s) + k) = Returns v)
   \/ (~ within_attempts (S k) (maxAttempts ctxt)
       /\ exists e, commFn (invocations (world s) + k) = Throws e)) ->
  (exists out s',
     external times (S k + fuel) commName (Some ctxt) commFn s = Some (out, s')
     /\ trace (world s') = trace (world s) ++ attempts_history times ctxt k)
  /\ count_invoke (attempts_history times ctxt k) = S k
  /\ length (sleeps (attempts_history times ctxt k)) = k
  /\ (0 < k -> sleeps (attempts_history times ctxt k) !! 0 = Some (intervalSeconds ctxt))
  /\ (forall i d,
        S i < k ->
        sleeps (attempts_history times ctxt k) !! i = Some d ->
        sleeps (attempts_history times ctxt k) !! S i = Some (times d (backoffRate ctxt)))
  /\ (forall s0 n out s',
        external times n commName (Some ctxt) commFn s0 = Some (out, s') ->
        let made := invocations (world s') - invocations (world s0) in
        match maxAttempts ctxt with
        | Finite m => (Z.of_nat made <= Z.max 0 (Qceiling m))%Z
        | Infinity => True
        | NegInfinity | NaN => made = 0
        end).
Proof.
  intros Hretry Hfresh Hrow Hlt Hfail Hfinal. apply counter_lt_spec in Hlt.
  split; [|split; [|split; [|split; [|split]]]].
  - rewrite external_eq, Hretry by done. unfold after_flush.
    destruct Hfinal as [[v Hv] | [Hmax [e He]]].
    + rewrite (external_loop_succeeds times k fuel _ _ _ _ v); [|done|exact Hfail|exact Hv].
      rewrite external_record_fresh by exact Hrow. eexists. eexists. split; [done|]. done.
    + apply counter_lt_false in Hmax.
      rewrite (external_loop_last_failure times k fuel); [|done|done|].
      * rewrite external_record_fresh by exact Hrow. eexists. eexists. split; [done|]. done.
      * intros i Hi. destruct (decide (i = k)) as [->|Hne]; [by exists e|].
        apply Hfail. lia.
  - unfold attempts_history. apply count_invoke_attempts_history.
  - unfold attempts_history. by rewrite sleeps_attempts_history, length_fmap, length_seq.
  - intros Hk. unfold attempts_history.
    by rewrite sleeps_attempts_history, list_lookup_fmap, lookup_seq_lt.
  - intros i d Hi. unfold attempts_history. rewrite sleeps_attempts_history.
    rewrite !list_lookup_fmap, !lookup_seq_lt by lia. by intros [= <-].
  - intros s0 n out s' Hrun made. apply attempts_bound.
    by apply (external_invocations_bound times n commName ctxt commFn s0 out s').
Qed.

Lemma C3_witness :
  retriesAllowed three_attempts = true
  /\ buffer_fresh first_run
  /\ op_table (world first_run) !! ("W", 0) = None
  /\ within_attempts 2 (maxAttempts three_attempts)
  /\ ~ within_attempts 3 (maxAttempts three_attempts)
  /\ fails always_boom 0 2
  /\ (exists out s',
        external small_product 3 "testCommunicator" (Some three_attempts) always_boom
                 first_run
        = Some (out, s')
        /\ trace (world s') = [Invoke; Sleep 1; Invoke; Sleep (small_product 1 2); Invoke])
  /\ sleeps (attempts_history small_product three_attempts 2) = [1; small_product 1 2]%Q.
Proof.
  assert (Hin : within_attempts 2 (maxAttempts three_attempts)) by reflexivity.
  assert (Hout : ~ within_attempts 3 (maxAttempts three_attempts)) by (intros H; discriminate H).
  split; [reflexivity|]. split; [exact first_run_fresh|]. split; [reflexivity|].
  split; [exact Hin|]. split; [exact Hout|]. split; [exact (fails_always_boom 0 2)|].
  pose proof (C3_retry_schedule small_product first_run "testCommunicator" three_attempts
                always_boom 2 0 eq_refl first_run_fresh eq_refl Hin (fails_always_boom 0 2)
                (or_intror (conj Hout (ex_intro _ boom eq_refl))))
    as (Hrun & _ & _ & _ & _ & _).
  split; [exact Hrun | reflexivity].
Defined.

(** C3, as stated, fails in two ways.  With two attempts allowed and a
    function that always throws, a sleep of [intervalSeconds] follows the
    first failure.  And with [maxAttempts] at 2.5 the function is invoked
    three times. *)
Lemma C3_sleeps_after_first_failure :
  (exists out s',
     external small_product 2 "testCommunicator" (Some two_attempts) always_boom first_run
     = Some (out, s')
     /\ trace (world s') = [Invoke; Sleep (intervalSeconds two_attempts); Invoke])
  /\ (exists out s',
        external small_product 3 "testCommunicator" (Some two_and_a_half_attempts)
                 always_boom first_run
        = Some (out, s')
        /\ invocations (world s') = 3
        /\ maxAttempts two_and_a_half_attempts = Finite (5 # 2)
        /\ (5 # 2 < inject_Z 3)%Q).
Proof.
  split.
  - eexists. eexists. split; [vm_compute; reflexivity|]. reflexivity.
  - eexists. eexists. split; [vm_compute; reflexivity|]. by repeat split.
Qed.




(** ** Debug replay of a transactional step *)

(** C10: the replay, with a debug proxy, of a step whose recorded output
    is the number 0, when the re-execution returns nothing.  The test
    [!check.output] takes the recorded 0 for an absent output, and the
    call returns [undefined] instead of the recorded output, without
    logging a difference. *)
Lemma C10_recorded_zero_is_replaced_by_undefined :
  txn_table (debug_world debug_replay_of_0) !! ("W", 0) = Some recorded_0
  /\ JSON_parse (row_output recorded_0) = JNum 0
  /\ is_null (JSON_parse (row_error recorded_0)) = true
  /\ returns_undefined 0 = Returns VUndefined
  /\ debug_transaction true "testFunction" (Some write_config) returns_undefined
                       debug_replay_of_0
     = (Returns VUndefined,
        mkDebugState (add_event Invoke (debug_world debug_replay_of_0)) (mkDebugCtx "W" 1)).
Proof. repeat split. Qed.

(** ** Child workflow identifiers *)

(** C8: a launch made when the parent's counter holds [n] names the child
    [P ++ "-" ++ decimal n], the decimal numeral of [n] after the parent's
    id and a hyphen; it hands [n] to the executor and leaves the counter
    at [n + 1].  The normal context, the same context in debug mode and
    the replay context (for a workflow function and for a method of a
    configured instance) all compute the same child id. *)
Theorem C8_child_workflow_id (P : string) (n : nat) (buf : gmap nat BufferedResult)
    (debugMode : bool) (wfn : string) :
  let expected := (P ++ "-" ++ decimal n)%string in
  let '(launch, ctx') := childWorkflow debugMode (mkCtx P n buf) in
  let '(dlaunch, dctx') := startChildWorkflow TargetWorkflow (mkDebugCtx P n) in
  child_workflowUUID launch = expected
  /\ callerUUID launch = P /\ callerFunctionID launch = n
  /\ via_debugWorkflow launch = debugMode
  /\ functionID ctx' = S n
  /\ dlaunch = Returns (mkLaunch true expected P n)
  /\ debug_functionID dctx' = S n
  /\ startChildWorkflow (TargetInstance true wfn) (mkDebugCtx P n)
     = (Returns (mkLaunch true expected P n), mkDebugCtx P (S n)).
Proof.
  intros expected. subst expected. rewrite <- number_to_string_decimal.
  destruct debugMode; cbn; repeat split.
Qed.

(** The first, the eleventh and the hundred and twenty-fourth launch of
    "P", and a launch by the child "P-1" itself. *)
Lemma C8_witness :
  child_workflowUUID (childWorkflow false (new_context "P")).1 = "P-0"
  /\ child_workflowUUID (childWorkflow false (mkCtx "P" 10 ∅)).1 = "P-10"
  /\ child_workflowUUID (childWorkflow true (mkCtx "P" 123 ∅)).1 = "P-123"
  /\ child_workflowUUID (childWorkflow false (mkCtx "P-1" 5 ∅)).1 = "P-1-5"
  /\ startChildWorkflow TargetWorkflow (mkDebugCtx "P" 10)
     = (Returns (mkLaunch true "P-10" "P" 10), mkDebugCtx "P" 11).
Proof.
  split; [exact (proj1 (C8_child_workflow_id "P" 0 ∅ false ""))|].
  split; [exact (proj1 (C8_child_workflow_id "P" 10 ∅ false ""))|].
  split; [exact (proj1 (C8_child_workflow_id "P" 123 ∅ true ""))|].
  split; [exact (proj1 (C8_child_workflow_id "P-1" 5 ∅ false ""))|].
  pose proof (C8_child_workflow_id "P" 10 ∅ false "") as (_ & _ & _ & _ & _ & Hd & Hc & _).
  cbn in Hd, Hc |- *. by rewrite Hd.
Defined.

(** * Further properties of the workflow contexts *)

(** ** Rows that a step leaves alone *)

Lemma sql_insert_subseteq (rows : list ((string * nat) * transaction_outputs))
    (tbl tbl' : gmap (string * nat) transaction_outputs) :
  sql_insert rows tbl = Some tbl' -> tbl ⊆ tbl'.
Proof.
  revert tbl. induction rows as [|[k r] rows IH]; intros tbl; simpl.
  - by intros [= <-].
  - destruct (tbl !! k) eqn:Hk; [done|]. intros H. apply IH in H.
    etrans; [|exact H]. by apply insert_subseteq.
Qed.

Lemma flushResultBuffer_rows_kept (s : State) (key : string * nat) (r : transaction_outputs) :
  txn_table (world s) !! key = Some r ->
  txn_table (world (flushResultBuffer s).2) !! key = Some r.
Proof.
  intros Hrow. unfold flushResultBuffer.
  destruct (length (sorted_funcIDs (resultBuffer (ctx s))) =? 0)%nat; [done|].
  destruct (sql_insert _ _) as [tbl|] eqn:Hins; [|done].
  apply sql_insert_subseteq in Hins. cbn [snd world txn_table set_txn_table].
  by apply (lookup_weaken _ _ _ _ Hrow).
Qed.

Section Frames.

Context {A B : Type} (R : State -> State -> Prop) `{!PreOrder R}.

Lemma preserves_ret (a : A) : preserves R (ret a).
Proof. intros s. reflexivity. Qed.

Lemma preserves_throw (e : JsError) : preserves R (throw (A := A) e).
Proof. intros s. reflexivity. Qed.

Lemma preserves_bind (m : M State A) (k : A -> M State B) :
  preserves R m -> (forall a, preserves R (k a)) -> preserves R (bind m k).
Proof.
  intros Hm Hk s. unfold bind. specialize (Hm s).
  destruct (m s) as [[a|e] s1]; [|exact Hm].
  etrans; [exact Hm | apply Hk].
Qed.

End Frames.

Lemma step_frame_preorder (f : nat) : PreOrder (step_frame f).
Proof.
  split.
  - intros s. by repeat split.
  - intros s1 s2 s3 (Hu1 & Hf1 & Ho1 & Hk1) (Hu2 & Hf2 & Ho2 & Hk2).
    split; [congruence|]. split; [congruence|]. split; [congruence|].
    intros key r Hne Hrow. apply Hk2; [by rewrite Hu1|]. by apply Hk1.
Qed.

#[local] Existing Instance step_frame_preorder.

Lemma error_frame_preorder (f : nat) : PreOrder (error_frame f).
Proof.
  split.
  - intros s. split; [reflexivity|]. intros r Hr. exists r. by repeat split.
  - intros s1 s2 s3 [H1 Hr1] [H2 Hr2]. split; [by etrans|].
    intros r Hr. destruct (Hr1 r Hr) as (r' & Hr' & Ho & Hi & Hs).
    destruct H1 as (Hu1 & _). rewrite <- Hu1 in Hr'.
    destruct (Hr2 r' Hr') as (r'' & Hr'' & Ho' & Hi' & Hs').
    exists r''. rewrite <- Hu1. split; [done|]. repeat split; congruence.
Qed.

#[local] Existing Instance error_frame_preorder.

Lemma log_frame_preorder : PreOrder log_frame.
Proof.
  split.
  - intros s. by repeat split.
  - intros s1 s2 s3 (Hu1 & Hf1 & Ht1 & Ho1) (Hu2 & Hf2 & Ht2 & Ho2).
    split; [congruence|]. split; [congruence|]. split; eauto.
Qed.

#[local] Existing Instance log_frame_preorder.

(** A change of the history and of the result buffer is within every
    frame. *)
Lemma step_frame_memory (f : nat) (s : State) (evs : list Event)
    (buf : gmap nat BufferedResult) :
  step_frame f s (mkState (add_events evs (world s))
                          (mkCtx (workflowUUID (ctx s)) (functionID (ctx s)) buf)).
Proof. by repeat split. Qed.

Lemma error_frame_step (f : nat) (s s' : State) :
  step_frame f s s' -> txn_table (world s') !! (workflowUUID (ctx s), f)
                       = txn_table (world s) !! (workflowUUID (ctx s), f) ->
  error_frame f s s'.
Proof.
  intros H Hsame. split; [done|]. intros r Hr. exists r. rewrite Hsame. by repeat split.
Qed.

Lemma step_frame_rollback (f : nat) (s s' : State) :
  step_frame f s s' ->
  step_frame f s (mkState (set_txn_table (txn_table (world s)) (world s')) (ctx s')).
Proof. intros (Hu & Hf & Ho & _). by repeat split. Qed.

Lemma error_frame_rollback (f : nat) (s s' : State) :
  error_frame f s s' ->
  error_frame f s (mkState (set_txn_table (txn_table (world s)) (world s')) (ctx s')).
Proof.
  intros [H _]. apply error_frame_step; [by apply step_frame_rollback | done].
Qed.

Lemma log_frame_rollback (s s' : State) :
  log_frame s s' ->
  log_frame s (mkState (set_txn_table (txn_table (world s)) (world s')) (ctx s')).
Proof. intros (Hu & Hf & _ & Ho). by repeat split. Qed.

Lemma preserves_userDatabase_transaction {A : Type} (R : State -> State -> Prop)
    (m : M State A) :
  (forall s s', R s s' ->
                R s (mkState (set_txn_table (txn_table (world s)) (world s')) (ctx s'))) ->
  preserves R m -> preserves R (userDatabase_transaction m).
Proof.
  intros Hroll Hm s. unfold userDatabase_transaction. specialize (Hm s).
  destruct (m s) as [[a|e] s1]; [exact Hm|]. by apply Hroll.
Qed.

Section StepFrame.

Variable f : nat.

Lemma step_frame_checkExecution (funcID : nat) : preserves (step_frame f) (checkExecution funcID).
Proof.
  intros s. unfold checkExecution, checkExecution_query.
  destruct (txn_table (world s) !! (workflowUUID (ctx s), funcID)) as [r|]; cbn.
  - destruct (negb (is_null (JSON_parse (row_error r)))); reflexivity.
  - reflexivity.
Qed.

Lemma step_frame_set_resultBuffer (b : gmap nat BufferedResult) :
  preserves (step_frame f) (set_resultBuffer b).
Proof. intros s. by repeat split. Qed.

Lemma step_frame_guardOperation (funcID : nat) (snapshot : string) :
  preserves (step_frame f) (guardOperation funcID snapshot).
Proof. intros s. by repeat split. Qed.

Lemma step_frame_flushResultBuffer : preserves (step_frame f) flushResultBuffer.
Proof.
  intros s. destruct (flushResultBuffer_memory s) as (_ & Hctx & Hop & _).
  split; [by rewrite Hctx|]. split; [by rewrite Hctx|]. split; [done|].
  intros key r _. apply flushResultBuffer_rows_kept.
Qed.

Lemma step_frame_call (fn : UserFunction) : preserves (step_frame f) (call fn).
Proof. intros s. by repeat split. Qed.

Lemma step_frame_sleep (d : Q) : preserves (step_frame f) (sleep d).
Proof. intros s. by repeat split. Qed.

Lemma step_frame_recordGuardedOutput (out : JSValue) :
  preserves (step_frame f) (recordGuardedOutput f out).
Proof.
  intros s. unfold recordGuardedOutput.
  destruct (txn_table (world s) !! (workflowUUID (ctx s), f)) as [r|]; [|reflexivity].
  split; [done|]. split; [done|]. split; [done|].
  intros key r0 Hne Hrow. cbn [snd world txn_table set_txn_table].
  by rewrite lookup_insert_ne.
Qed.

Lemma step_frame_recordGuardedError (err : JsError) :
  preserves (step_frame f) (recordGuardedError f err).
Proof.
  intros s. unfold recordGuardedError.
  destruct (txn_table (world s) !! (workflowUUID (ctx s), f)) as [r|]; [|reflexivity].
  split; [done|]. split; [done|]. split; [done|].
  intros key r0 Hne Hrow. cbn [snd world txn_table set_txn_table].
  by rewrite lookup_insert_ne.
Qed.

Lemma step_frame_wrappedTransaction (readOnly : bool) (txn : UserFunction) :
  preserves (step_frame f) (wrappedTransaction readOnly f txn).
Proof.
  unfold wrappedTransaction.
  apply preserves_bind; [apply _ | apply step_frame_checkExecution |]. intros check.
  destruct (check_output check); [by apply preserves_ret, _|].
  apply preserves_bind; [apply _ | apply step_frame_guardOperation |]. intros _.
  apply preserves_bind; [apply _ | |].
  { destruct (negb readOnly); [apply step_frame_flushResultBuffer | by apply preserves_ret, _]. }
  intros _. apply preserves_bind; [apply _ | apply step_frame_call |]. intros result.
  apply preserves_bind; [apply _ | | intros _; by apply preserves_ret, _].
  destruct readOnly.
  - intros s. by repeat split.
  - apply preserves_bind; [apply _ | apply step_frame_recordGuardedOutput |].
    intros _. apply step_frame_set_resultBuffer.
Qed.

Lemma step_frame_record_and_throw (err : JsError) :
  preserves (step_frame f) (record_and_throw f err).
Proof.
  unfold record_and_throw.
  apply preserves_bind; [apply _ | |].
  { apply preserves_userDatabase_transaction; [apply step_frame_rollback|].
    apply preserves_bind; [apply _ | apply step_frame_flushResultBuffer |].
    intros _. apply step_frame_recordGuardedError. }
  intros _. apply preserves_bind; [apply _ | apply step_frame_set_resultBuffer |].
  intros _. by apply preserves_throw, _.
Qed.

Lemma step_frame_attempt (readOnly : bool) (txn : UserFunction) :
  preserves (step_frame f) (userDatabase_transaction (wrappedTransaction readOnly f txn)).
Proof.
  apply preserves_userDatabase_transaction; [apply step_frame_rollback|].
  apply step_frame_wrappedTransaction.
Qed.

Lemma transaction_loop_step_frame (fuel : nat) (readOnly : bool) (txn : UserFunction)
    (wait : Z) (s : State) (out : Completion JSValue) (s' : State) :
  transaction_loop fuel readOnly f txn wait s = Some (out, s') -> step_frame f s s'.
Proof.
  revert wait s. induction fuel as [|fuel IH]; intros wait s; [done|].
  rewrite transaction_loop_step.
  pose proof (step_frame_attempt readOnly txn s) as Hatt.
  destruct (userDatabase_transaction (wrappedTransaction readOnly f txn) s) as [[v|e] s1].
  - intros [= <- <-]. exact Hatt.
  - destruct (isRetriableTransactionError e).
    + intros Hrun. apply IH in Hrun. etrans; [exact Hatt|]. etrans; [|exact Hrun].
      by repeat split.
    + intros [= Hrun]. etrans; [exact Hatt|].
      pose proof (step_frame_record_and_throw e s1) as Hrec.
      by rewrite Hrun in Hrec.
Qed.

End StepFrame.

Section ErrorFrame.

Variable f : nat.

Lemma error_frame_flushResultBuffer : preserves (error_frame f) flushResultBuffer.
Proof.
  intros s. split; [apply step_frame_flushResultBuffer|].
  intros r Hr. exists r. split; [by apply flushResultBuffer_rows_kept | by repeat split].
Qed.

Lemma error_frame_recordGuardedError (err : JsError) :
  preserves (error_frame f) (recordGuardedError f err).
Proof.
  intros s. split; [apply step_frame_recordGuardedError|].
  intros r Hr. unfold recordGuardedError. rewrite Hr.
  cbn [snd world txn_table set_txn_table]. rewrite lookup_insert_eq.
  eexists. split; [done|]. by repeat split.
Qed.

Lemma error_frame_memory (s : State) (evs : list Event) (buf : gmap nat BufferedResult) :
  error_frame f s (mkState (add_events evs (world s))
                           (mkCtx (workflowUUID (ctx s)) (functionID (ctx s)) buf)).
Proof. apply error_frame_step; [apply step_frame_memory | done]. Qed.

Lemma error_frame_record_and_throw (err : JsError) :
  preserves (error_frame f) (record_and_throw f err).
Proof.
  unfold record_and_throw.
  apply preserves_bind; [apply _ | |].
  { apply preserves_userDatabase_transaction; [apply error_frame_rollback|].
    apply preserves_bind; [apply _ | apply error_frame_flushResultBuffer |].
    intros _. apply error_frame_recordGuardedError. }
  intros _. apply preserves_bind; [apply _ | | intros _; by apply preserves_throw, _].
  intros s. destruct s as [w [u n b]]. apply error_frame_step; [by repeat split | done].
Qed.

(** The attempts of a step whose row is in place change at most the
    error column of that row. *)
Lemma transaction_loop_recorded_frame (fuel : nat) (readOnly : bool) (txn : UserFunction)
    (wait : Z) (s : State) (row : transaction_outputs) (out : Completion JSValue)
    (s' : State) :
  txn_table (world s) !! (workflowUUID (ctx s), f) = Some row ->
  transaction_loop fuel readOnly f txn wait s = Some (out, s') -> error_frame f s s'.
Proof.
  revert wait s. induction fuel as [|fuel IH]; intros wait s Hrow; [done|].
  rewrite transaction_loop_step, (attempt_recorded _ _ _ _ row) by done.
  destruct (is_null (JSON_parse (row_error row))).
  - intros [= <- <-]. reflexivity.
  - destruct (isRetriableTransactionError _).
    + intros Hrun. apply IH in Hrun; [|done]. etrans; [|exact Hrun].
      destruct s as [w [u n b]]. rewrite add_event_single. apply error_frame_memory.
    + intros [= Hrun].
      pose proof (error_frame_record_and_throw
                    (deserializeError (JSON_parse (row_error row))) s) as Hrec.
      by rewrite Hrun in Hrec.
Qed.

Lemma transaction_loop_error_frame (fuel : nat) (readOnly : bool) (txn : UserFunction)
    (wait : Z) (s : State) (out : Completion JSValue) (s' : State) :
  transaction_loop fuel readOnly f txn wait s = Some (out, s') -> error_frame f s s'.
Proof.
  intros Hrun.
  destruct (txn_table (world s) !! (workflowUUID (ctx s), f)) as [row|] eqn:Hrow.
  - by apply (transaction_loop_recorded_frame fuel readOnly txn wait s row out).
  - split; [by apply (transaction_loop_step_frame f fuel readOnly txn wait s out)|].
    intros r Hr. congruence.
Qed.

End ErrorFrame.

(** X1: a call of [transaction] that ends leaves the workflow id and the
    operation log as they were, moves the counter by one (by nothing when
    the transaction is not registered), keeps every row of
    [dbos.transaction_outputs] other than that of its own step exactly as
    it was, and of a row its own step already had changes at most the
    error column: no recorded row is ever deleted, and no recorded output
    is ever replaced. *)
Theorem X1_transaction_keeps_recorded_rows (fuel : nat) (txnName : string)
    (config : option TransactionConfig) (txn : UserFunction) (s : State)
    (out : Completion JSValue) (s' : State) :
  transaction fuel txnName config txn s = Some (out, s') ->
  let step := (workflowUUID (ctx s), functionID (ctx s)) in
  workflowUUID (ctx s') = workflowUUID (ctx s)
  /\ functionID (ctx s')
     = match config with
       | Some _ => S (functionID (ctx s))
       | None => functionID (ctx s)
       end
  /\ op_table (world s') = op_table (world s)
  /\ (forall key r,
        key <> step ->
        txn_table (world s) !! key = Some r -> txn_table (world s') !! key = Some r)
  /\ (forall r,
        txn_table (world s) !! step = Some r ->
        exists r', txn_table (world s') !! step = Some r' /\ same_output r r').
Proof.
  destruct config as [config|]; cbn zeta.
  - rewrite transaction_eq. intros Hrun.
    apply transaction_loop_error_frame in Hrun as [(Hu & Hf & Ho & Hk) Hown].
    cbn [ctx world workflowUUID functionID] in *. by repeat split.
  - intros [= _ <-]. repeat split; try done. intros r Hr. exists r. by repeat split.
Qed.

Lemma X1_witness :
  transaction 1 "testFunction" (Some write_config) returns_12 step_1_after_boom
  = Some (Returns (VJson (JNum 12)), after_step_1)
  /\ txn_table (world after_step_1) !! ("W", 0) = Some boom_row
  /\ functionID (ctx after_step_1) = 2.
Proof.
  assert (Hrun : transaction 1 "testFunction" (Some write_config) returns_12 step_1_after_boom
                 = Some (Returns (VJson (JNum 12)), after_step_1))
    by (vm_compute; reflexivity).
  split; [exact Hrun|].
  destruct (X1_transaction_keeps_recorded_rows 1 "testFunction" (Some write_config)
              returns_12 step_1_after_boom (Returns (VJson (JNum 12))) after_step_1 Hrun)
    as (_ & Hf & _ & Hk & _).
  split; [|exact Hf].
  apply (Hk ("W", 0) boom_row); [discriminate | reflexivity].
Defined.

(** ** Rows that a non-transactional step leaves alone *)

Lemma log_frame_flushResultBuffer : preserves log_frame flushResultBuffer.
Proof.
  intros s. destruct (flushResultBuffer_memory s) as (_ & Hctx & Hop & _).
  split; [by rewrite Hctx|]. split; [by rewrite Hctx|]. split.
  - intros key r. apply flushResultBuffer_rows_kept.
  - intros key r. by rewrite Hop.
Qed.

Lemma log_frame_set_resultBuffer (b : gmap nat BufferedResult) :
  preserves log_frame (set_resultBuffer b).
Proof. intros s. by repeat split. Qed.

Lemma log_frame_checkOperationOutput (uuid : string) (funcID : nat) :
  preserves log_frame (checkOperationOutput uuid funcID).
Proof.
  intros s. unfold checkOperationOutput.
  destruct (op_table (world s) !! (uuid, funcID)) as [r|]; [|reflexivity].
  destruct (negb (is_null (JSON_parse (op_error r)))); reflexivity.
Qed.

Lemma log_frame_record_operation (uuid : string) (funcID : nat) (r : operation_outputs) :
  preserves log_frame (record_operation uuid funcID r).
Proof.
  intros s. unfold record_operation.
  destruct (op_table (world s) !! (uuid, funcID)) as [old|] eqn:Hold.
  - destruct (_ && _); reflexivity.
  - split; [done|]. split; [done|]. split; [done|].
    intros key r0 Hrow. cbn [snd world op_table set_op_table].
    rewrite lookup_insert_ne; [done|]. intros <-. congruence.
Qed.

Lemma log_frame_external_record (funcID : nat) (result : option JSValue)
    (err : option JsError) :
  preserves log_frame (external_record funcID result err).
Proof.
  intros s. unfold external_record. destruct result as [v|].
  - apply (preserves_bind log_frame); [apply log_frame_record_operation|].
    intros _. by apply preserves_ret, _.
  - apply (preserves_bind log_frame); [apply log_frame_record_operation|].
    intros _. by apply preserves_throw, _.
Qed.

Lemma external_record_frame (funcID : nat) (result : option JSValue) (err : option JsError)
    (s : State) (c : Completion JSValue) (s' : State) :
  external_record funcID result err s = (c, s') -> log_frame s s'.
Proof.
  intros H. pose proof (log_frame_external_record funcID result err s) as Hrec.
  by rewrite H in Hrec.
Qed.

Lemma log_frame_memory (s : State) (evs : list Event) :
  log_frame s (mkState (add_events evs (world s)) (ctx s)).
Proof. by repeat split. Qed.

(** What follows the increment of the counter in the head of
    [external]. *)
Lemma log_frame_external_begin (s : State) :
  log_frame (mkState (world s) (mkCtx (workflowUUID (ctx s)) (S (functionID (ctx s)))
                                      (resultBuffer (ctx s))))
            (external_begin s).2.
Proof.
  unfold external_begin. unfold bind at 1. rewrite next_functionID_eq.
  apply (preserves_bind log_frame).
  { apply preserves_userDatabase_transaction; [apply log_frame_rollback|].
    apply log_frame_flushResultBuffer. }
  intros _. apply (preserves_bind log_frame); [apply log_frame_set_resultBuffer|].
  intros _. apply (preserves_bind log_frame).
  { intros s0. apply log_frame_checkOperationOutput. }
  intros check. by apply preserves_ret, _.
Qed.

(** X2: a call of [external] that ends leaves the workflow id as it was,
    moves the counter by one (by nothing when the communicator is not
    registered) and keeps every row that either table held: it only adds
    rows, those of the buffered outputs it flushes and the one of its own
    outcome. *)
Theorem X2_external_keeps_recorded_rows (times : Q -> Q -> Q) (fuel : nat)
    (commName : string) (commConfig : option CommunicatorContextImpl)
    (commFn : UserFunction) (s : State) (out : Completion JSValue) (s' : State) :
  external times fuel commName commConfig commFn s = Some (out, s') ->
  workflowUUID (ctx s') = workflowUUID (ctx s)
  /\ functionID (ctx s')
     = match commConfig with
       | Some _ => S (functionID (ctx s))
       | None => functionID (ctx s)
       end
  /\ (forall key r,
        txn_table (world s) !! key = Some r -> txn_table (world s') !! key = Some r)
  /\ (forall key r,
        op_table (world s) !! key = Some r -> op_table (world s') !! key = Some r).
Proof.
  destruct commConfig as [ctxt|]; [|cbn; intros [= _ <-]; by repeat split].
  unfold external. pose proof (log_frame_external_begin s) as Hbegin.
  assert (Hend : forall s1, log_frame (external_begin s).2 s1 ->
            workflowUUID (ctx s1) = workflowUUID (ctx s)
            /\ functionID (ctx s1) = S (functionID (ctx s))
            /\ (forall key r, txn_table (world s) !! key = Some r
                              -> txn_table (world s1) !! key = Some r)
            /\ (forall key r, op_table (world s) !! key = Some r
                              -> op_table (world s1) !! key = Some r)).
  { intros s1 H1. assert (H : log_frame _ s1) by (etrans; [exact Hbegin | exact H1]).
    destruct H as (Hu & Hf & Ht & Ho). by repeat split. }
  destruct (external_begin s) as [[[funcID [check|]]|e] s1].
  - intros [= _ <-]. by apply Hend.
  - destruct (retriesAllowed ctxt).
    + destruct (external_loop _ _ _ _ _ _ _) as [[result s2]|] eqn:Hloop; [|done].
      destruct (external_loop_frame _ _ _ _ _ _ _ _ _ Hloop) as [evs [-> _]].
      destruct (external_record _ _ _ _) as [c s3] eqn:Hrec. intros [= _ <-]. apply Hend.
      apply external_record_frame in Hrec.
      etrans; [apply (log_frame_memory s1 evs) | exact Hrec].
    + unfold external_once, call.
      destruct (commFn (invocations (world s1))) as [v|e];
        (destruct (external_record _ _ _ _) as [c s3] eqn:Hrec; intros [= _ <-]; apply Hend;
         apply external_record_frame in Hrec; etrans; [|exact Hrec]; by repeat split).
  - intros [= _ <-]. by apply Hend.
Qed.

Lemma X2_witness :
  external small_product 0 "testCommunicator" (Some no_retries) returns_12 step_1_after_boom
  = Some (Returns (VJson (JNum 12)), after_external_step_1)
  /\ txn_table (world after_external_step_1) !! ("W", 0) = Some boom_row
  /\ functionID (ctx after_external_step_1) = 2.
Proof.
  assert (Hrun : external small_product 0 "testCommunicator" (Some no_retries) returns_12
                           step_1_after_boom
                 = Some (Returns (VJson (JNum 12)), after_external_step_1))
    by (vm_compute; reflexivity).
  split; [exact Hrun|].
  destruct (X2_external_keeps_recorded_rows small_product 0 "testCommunicator"
              (Some no_retries) returns_12 step_1_after_boom (Returns (VJson (JNum 12)))
              after_external_step_1 Hrun)
    as (_ & Hf & Hk & _).
  split; [|exact Hf]. by apply Hk.
Defined.

(** ** Invariants of a sequential execution *)

Lemma first_run_consistent : consistent first_run.
Proof. split; [exact first_run_fresh|]. intros key r Hr.
  unfold first_run, empty_world in Hr. cbn [world txn_table] in Hr.
  by rewrite lookup_empty in Hr.
Qed.

(** X3: the states of a sequential execution are closed under its steps:
    from a state in which no buffered function id has a row and no
    recorded error is one the adapter retries, every call of [transaction]
    or [external] that ends, and every restart after a crash, leads to
    such a state again. *)
Theorem X3_steps_preserve_consistency (s : State) :
  consistent s ->
  (forall fuel txnName config txn out s',
     transaction fuel txnName config txn s = Some (out, s') -> consistent s')
  /\ (forall times fuel commName commConfig commFn out s',
        external times fuel commName commConfig commFn s = Some (out, s') -> consistent s')
  /\ (forall uuid, consistent (restart uuid s)).
Proof.
  intros Hs. split; [|split].
  - intros fuel txnName config txn out s'. by apply transaction_consistent.
  - intros times fuel commName commConfig commFn out s'. by apply external_consistent.
  - intros uuid. apply restart_consistent. by destruct Hs.
Qed.

Lemma X3_witness :
  consistent first_run /\ consistent after_write_step /\ consistent after_external_step.
Proof.
  split; [exact first_run_consistent|].
  destruct (X3_steps_preserve_consistency first_run first_run_consistent)
    as (Htxn & Hext & _).
  split.
  - apply (Htxn 1 "testFunction" (Some write_config) returns_12 (Returns (VJson (JNum 12)))).
    vm_compute; reflexivity.
  - apply (Hext small_product 0 "testCommunicator" (Some no_retries) returns_12
             (Returns (VJson (JNum 12)))).
    vm_compute; reflexivity.
Defined.

(** ** The flush and the buffer *)

(** X4: the flush is not idempotent.  After a flush that wrote the rows of
    a buffer that is not empty, a second flush of the same buffer raises
    the workflow-conflict error against its own rows and writes nothing;
    this is why every caller clears the buffer once the flush has
    committed. *)
Theorem X4_second_flush_conflicts (s s1 : State) :
  flushResultBuffer s = (Returns tt, s1) ->
  resultBuffer (ctx s) <> ∅ ->
  flushResultBuffer s1
  = (Throws (DBOSWorkflowConflictUUIDError (workflowUUID (ctx s))), s1).
Proof.
  intros Hflush Hbuf.
  destruct (buffer_fresh_dec s) as [Hfresh | [f [Hf Hrow]]].
  - rewrite flushResultBuffer_fresh in Hflush by done. injection Hflush as <-.
    apply map_choose in Hbuf as [f [b Hb]].
    rewrite (flushResultBuffer_taken _ f); [done | |];
      cbn [ctx world txn_table set_txn_table].
    + by rewrite Hb.
    + by rewrite (lookup_flushed_buffered _ _ _ _ b).
  - rewrite (flushResultBuffer_taken s f) in Hflush by done. discriminate Hflush.
Qed.

Lemma X4_witness :
  resultBuffer (ctx after_readonly_step) !! 0 = Some buffered_12
  /\ flushResultBuffer after_readonly_flush
     = (Throws (DBOSWorkflowConflictUUIDError "W"), after_readonly_flush).
Proof.
  split; [vm_compute; reflexivity|].
  apply (X4_second_flush_conflicts after_readonly_step after_readonly_flush).
  - vm_compute; reflexivity.
  - intros Hempty. apply (f_equal (fun m => m !! 0)) in Hempty. vm_compute in Hempty.
    discriminate Hempty.
Defined.

(** ** What a step records together with its own outcome *)








(** ** A duplicate execution whose buffer was flushed by another *)



(** ** Messages and events *)

Section NotificationSteps.

Variable systemDatabase_send : string -> nat -> string -> JSValue -> option string -> SystemCall unit.
Variable systemDatabase_recv : string -> nat -> option string -> Q -> SystemCall JSValue.
Variable systemDatabase_setEvent : string -> nat -> string -> JSValue -> SystemCall unit.
Variable systemDatabase_getEvent : string -> string -> Q -> string -> nat -> SystemCall JSValue.
Variable defaultNotificationTimeoutSec : Q.

(** X8: [send], [recv] and [setEvent] record the buffered outputs before
    they call the system database: the call is made with the step number
    taken on entry, on a database that holds the rows of the buffer, and
    with the buffer emptied.  When a buffered function id already has a
    row the call is not made at all: the step ends with the
    workflow-conflict error, nothing is written and the buffer is kept.
    [getEvent] and [retrieveWorkflow] take a step number and leave buffer
    and table alone. *)
Theorem X8_messages_flush_before_the_call (s : State) :
  let uuid := workflowUUID (ctx s) in
  let F := functionID (ctx s) in
  let next := mkState (world s) (mkCtx uuid (S F) (resultBuffer (ctx s))) in
  ((buffer_fresh s
    /\ (forall destinationUUID message topic,
          send systemDatabase_send destinationUUID message topic s
          = systemDatabase_call (systemDatabase_send uuid F destinationUUID message topic)
                                (after_flush s))
    /\ (forall topic timeoutSeconds,
          recv systemDatabase_recv defaultNotificationTimeoutSec topic timeoutSeconds s
          = systemDatabase_call
              (systemDatabase_recv uuid F topic
                 (default defaultNotificationTimeoutSec timeoutSeconds))
              (after_flush s))
    /\ (forall key value,
          setEvent systemDatabase_setEvent key value s
          = systemDatabase_call (systemDatabase_setEvent uuid F key value) (after_flush s)))
   \/ ((exists f, is_Some (resultBuffer (ctx s) !! f)
                  /\ is_Some (txn_table (world s) !! (uuid, f)))
       /\ (forall destinationUUID message topic,
             send systemDatabase_send destinationUUID message topic s
             = (Throws (DBOSWorkflowConflictUUIDError uuid), next))
       /\ (forall topic timeoutSeconds,
             recv systemDatabase_recv defaultNotificationTimeoutSec topic timeoutSeconds s
             = (Throws (DBOSWorkflowConflictUUIDError uuid), next))
       /\ (forall key value,
             setEvent systemDatabase_setEvent key value s
             = (Throws (DBOSWorkflowConflictUUIDError uuid), next))))
  /\ (forall targetUUID key timeoutSeconds,
        getEvent systemDatabase_getEvent defaultNotificationTimeoutSec targetUUID key
                 timeoutSeconds s
        = systemDatabase_call
            (systemDatabase_getEvent targetUUID key
               (default defaultNotificationTimeoutSec timeoutSeconds) uuid F)
            next)
  /\ (forall targetUUID,
        retrieveWorkflow targetUUID s
        = (Returns (mkRetrievedHandle targetUUID (Some uuid) (Some F)), next)).
Proof.
  cbn zeta. split; [|split].
  - destruct (buffer_fresh_dec s) as [Hfresh | [f [Hbuf Hrow]]].
    + left. split; [done|]. split; [|split].
      * intros destinationUUID message topic. unfold send.
        by rewrite flush_then_fresh.
      * intros topic timeoutSeconds. unfold recv. by rewrite flush_then_fresh.
      * intros key value. unfold setEvent. by rewrite flush_then_fresh.
    + right. split; [by exists f|]. split; [|split].
      * intros destinationUUID message topic. unfold send.
        by rewrite (flush_then_stale _ s f).
      * intros topic timeoutSeconds. unfold recv. by rewrite (flush_then_stale _ s f).
      * intros key value. unfold setEvent. by rewrite (flush_then_stale _ s f).
  - intros targetUUID key timeoutSeconds. unfold getEvent, bind.
    by rewrite next_functionID_eq.
  - intros targetUUID. unfold retrieveWorkflow, bind. by rewrite next_functionID_eq.
Qed.

End NotificationSteps.

(** ** Child workflow identifiers *)

Lemma string_of_uint_no_dash (d : Decimal.uint) (c : Ascii.ascii) :
  In c (list_ascii_of_string (NilEmpty.string_of_uint d)) -> c <> "-"%char.
Proof.
  induction d as [|d IH|d IH|d IH|d IH|d IH|d IH|d IH|d IH|d IH|d IH]; simpl;
    [tauto | intros [<-|H]; [discriminate | by apply IH] ..].
Qed.

Lemma number_to_string_inj (n m : nat) : number_to_string n = number_to_string m -> n = m.
Proof.
  unfold number_to_string. intros H.
  apply (f_equal NilEmpty.uint_of_string) in H. rewrite !NilEmpty.usu in H.
  injection H as H. apply (f_equal Nat.of_uint) in H. by rewrite !Unsigned.of_to in H.
Qed.

Lemma dash_in_append (a x : string) :
  In "-"%char (list_ascii_of_string (a ++ String "-" x)%string).
Proof. induction a as [|c a IH]; cbn; [by left | by right]. Qed.

(** A string is split in one way only at a dash that no dash follows. *)
Lemma append_dash_inj (a b x y : string) :
  (forall c, In c (list_ascii_of_string x) -> c <> "-"%char) ->
  (forall c, In c (list_ascii_of_string y) -> c <> "-"%char) ->
  (a ++ String "-" x)%string = (b ++ String "-" y)%string -> a = b /\ x = y.
Proof.
  intros Hx Hy. revert b. induction a as [|c a IH]; intros [|c' b]; cbn.
  - by intros [= ->].
  - intros [= <- ->]. exfalso. by apply (Hx "-"%char (dash_in_append b y)).
  - intros [= -> <-]. exfalso. by apply (Hy "-"%char (dash_in_append a x)).
  - intros [= -> H]. apply IH in H as [-> ->]. done.
Qed.

Lemma child_id_inj (P1 P2 : string) (n1 n2 : nat) :
  (P1 ++ "-" ++ number_to_string n1)%string = (P2 ++ "-" ++ number_to_string n2)%string ->
  P1 = P2 /\ n1 = n2.
Proof.
  change ("-" ++ number_to_string n1)%string with (String "-" (number_to_string n1)).
  change ("-" ++ number_to_string n2)%string with (String "-" (number_to_string n2)).
  intros H. apply append_dash_inj in H as [-> H];
    [| apply string_of_uint_no_dash | apply string_of_uint_no_dash].
  split; [done|]. by apply number_to_string_inj.
Qed.

(** X9: a child workflow id identifies the launch that made it.  Two
    launches that differ in the parent's workflow id or in the step number
    name different children, also when the parents are themselves children
    of one another (the id of step 11 of "P" is not that of step 1 of
    "P-1"); this holds for [childWorkflow] and for the replay's
    [startChildWorkflow]. *)
Theorem X9_child_id_identifies_launch (uuid1 uuid2 : string) (n1 n2 : nat) :
  (uuid1, n1) <> (uuid2, n2) ->
  (forall debugMode1 debugMode2 buf1 buf2,
     child_workflowUUID (childWorkflow debugMode1 (mkCtx uuid1 n1 buf1)).1
     <> child_workflowUUID (childWorkflow debugMode2 (mkCtx uuid2 n2 buf2)).1)
  /\ (forall target1 target2 launch1 launch2 ctx1 ctx2,
        startChildWorkflow target1 (mkDebugCtx uuid1 n1) = (Returns launch1, ctx1) ->
        startChildWorkflow target2 (mkDebugCtx uuid2 n2) = (Returns launch2, ctx2) ->
        child_workflowUUID launch1 <> child_workflowUUID launch2).
Proof.
  intros Hne. split.
  - intros d1 d2 buf1 buf2 Heq. apply Hne.
    destruct d1, d2; cbn in Heq; apply child_id_inj in Heq as [-> ->]; done.
  - intros t1 t2 l1 l2 c1 c2 H1 H2 Heq. apply Hne.
    assert (Hid : forall t uuid n l c,
              startChildWorkflow t (mkDebugCtx uuid n) = (Returns l, c) ->
              child_workflowUUID l = (uuid ++ "-" ++ number_to_string n)%string).
    { intros [|[] wfn] uuid n l c; cbn; intros [= <- _]; done. }
    rewrite (Hid _ _ _ _ _ H1), (Hid _ _ _ _ _ H2) in Heq.
    by apply child_id_inj in Heq as [-> ->].
Qed.

Lemma X9_witness :
  child_workflowUUID (childWorkflow false (mkCtx "P" 11 ∅)).1
  <> child_workflowUUID (childWorkflow false (mkCtx "P-1" 1 ∅)).1.
Proof.
  apply (X9_child_id_identifies_launch "P" "P-1" 11 1); discriminate.
Defined.

(** ** Replay in the debugger *)

Lemma debug_checkExecution_error (debugProxy : bool) (funcID : nat) (s : DebugState)
    (row : transaction_outputs) :
  txn_table (debug_world s) !! (debug_workflowUUID (debug_ctx s), funcID) = Some row ->
  is_null (JSON_parse (row_error row)) = false ->
  debug_checkExecution debugProxy funcID s
  = (Returns (CheckError (deserializeError (JSON_parse (row_error row)))), s).
Proof.
  intros Hrow Hnull. unfold debug_checkExecution, debug_query. by rewrite Hrow, Hnull.
Qed.

Lemma debug_rollback_same (s : DebugState) :
  mkDebugState (set_txn_table (txn_table (debug_world s)) (debug_world s)) (debug_ctx s) = s.
Proof. destruct s as [w c]. cbn. by rewrite set_txn_table_same. Qed.

(** The replay, without a debug proxy, of a step whose row records the
    outcome [out]. *)
Lemma debug_replay_direct (txnName : string) (txnInfo : TransactionConfig)
    (txn : UserFunction) (uuid : string) (f : nat) (w : World) (row : transaction_outputs)
    (out : Completion JSValue) :
  txn_table w !! (uuid, f) = Some row ->
  records row out ->
  debug_transaction false txnName (Some txnInfo) txn (debug_reaches uuid f w)
  = (replayed out, debug_reaches uuid (S f) w).
Proof.
  intros Hrow Hrec. unfold debug_transaction, debug_reaches.
  cbn [debug_functionIDGetIncrement debug_ctx debug_world debug_workflowUUID
         debug_functionID].
  unfold debug_wrappedTransaction. destruct out as [v|e]; cbn [records] in Hrec.
  - destruct Hrec as [Hnull Hout].
    rewrite (debug_checkExecution_recorded _ _ _ row) by done.
    cbn [negb debug_userDatabase_transaction recorded_output is_undefined andb
           JSON_stringify JSON_stringify_result text_eqb replayed].
    rewrite json_eqb_refl. cbn [negb]. by rewrite Hout.
  - destruct Hrec as [Herr _].
    rewrite (debug_checkExecution_error _ _ _ row); [|done|by rewrite Herr].
    cbn [negb debug_userDatabase_transaction debug_world debug_ctx replayed].
    rewrite set_txn_table_same, Herr, deserialize_serialize. done.
Qed.

(** X10: what the runtime records for a read-write step is what the
    debugger replays.  Once a call of [transaction] for a step that is not
    read-only, made when no function id in the buffer has a row yet, has
    ended, the replay of that step without a debug proxy returns the same
    result (after its JSON round trip) or throws the same error; it does
    not invoke user code, logs nothing and leaves the database as it
    is. *)
Theorem X10_debugger_replays_recorded_step (fuel : nat) (txnName txnName' : string)
    (config txnInfo : TransactionConfig) (txn txn' : UserFunction) (s : State)
    (out : Completion JSValue) (s' : State) :
  is_readOnly config = false ->
  buffer_fresh s ->
  transaction fuel txnName (Some config) txn s = Some (out, s') ->
  debug_transaction false txnName' (Some txnInfo) txn'
                    (debug_reaches (workflowUUID (ctx s)) (functionID (ctx s)) (world s'))
  = (replayed out,
     debug_reaches (workflowUUID (ctx s)) (S (functionID (ctx s))) (world s')).
Proof.
  intros Hrw Hfresh Hrun. rewrite transaction_eq, Hrw in Hrun.
  apply write_step_recorded in Hrun as [[row [Hrow Hrec]] _]; [|by apply buffer_fresh_next].
  cbn [ctx world workflowUUID] in Hrow.
  by apply (debug_replay_direct _ _ _ _ _ _ row).
Qed.

Lemma X10_witness :
  buffer_fresh first_run
  /\ transaction 1 "testFunction" (Some write_config) always_boom first_run
  = Some (Throws boom, after_write_failure)
  /\ debug_transaction false "testFunction" (Some write_config) returns_12
                       (debug_reaches "W" 0 (world after_write_failure))
     = (Throws boom, debug_reaches "W" 1 (world after_write_failure)).
Proof.
  assert (Hrun : transaction 1 "testFunction" (Some write_config) always_boom first_run
                 = Some (Throws boom, after_write_failure))
    by (vm_compute; reflexivity).
  split; [exact first_run_fresh|]. split; [exact Hrun|].
  exact (X10_debugger_replays_recorded_step 1 "testFunction" "testFunction" write_config
           write_config always_boom returns_12 first_run (Throws boom) after_write_failure
           eq_refl first_run_fresh Hrun).
Defined.

(** X11: the replay of a transactional step whose row records an error
    throws that error, with or without a debug proxy.  Without a proxy
    nothing else happens; with a proxy a warning is logged and the user
    transaction runs once more, but whatever it returns or throws is
    dropped.  The counter moves by one and nothing is written. *)
Theorem X11_debug_replay_throws_recorded_error (debugProxy : bool) (s : DebugState)
    (txnName : string) (txnInfo : TransactionConfig) (txn : UserFunction)
    (row : transaction_outputs) :
  txn_table (debug_world s) !! (debug_workflowUUID (debug_ctx s), debug_functionID (debug_ctx s))
  = Some row ->
  is_null (JSON_parse (row_error row)) = false ->
  debug_transaction debugProxy txnName (Some txnInfo) txn s
  = (Throws (deserializeError (JSON_parse (row_error row))),
     mkDebugState
       (add_events (if debugProxy then [Log "warn"; Invoke] else []) (debug_world s))
       (mkDebugCtx (debug_workflowUUID (debug_ctx s)) (S (debug_functionID (debug_ctx s))))).
Proof.
  intros Hrow Hnull. destruct s as [w [uuid n]].
  cbn [debug_world debug_ctx debug_workflowUUID debug_functionID] in *.
  unfold debug_transaction.
  cbn [debug_functionIDGetIncrement debug_ctx debug_world debug_workflowUUID
         debug_functionID].
  unfold debug_wrappedTransaction.
  rewrite (debug_checkExecution_error _ _ _ row) by done.
  destruct debugProxy; cbn [negb].
  - unfold debug_call, debug_log. cbn [debug_world debug_ctx].
    rewrite add_event_single, add_event_add_events. cbn [app].
    destruct (txn _) as [v|e]; cbn [debug_userDatabase_transaction debug_world debug_ctx].
    + done.
    + by destruct w.
  - cbn [debug_userDatabase_transaction debug_world debug_ctx].
    by rewrite set_txn_table_same, add_events_nil.
Qed.

Lemma X11_witness :
  debug_transaction true "testFunction" (Some write_config) returns_12 debug_replay_of_boom
  = (Throws boom,
     mkDebugState (add_events [Log "warn"; Invoke] world_with_boom) (mkDebugCtx "W" 1)).
Proof.
  exact (X11_debug_replay_throws_recorded_error true debug_replay_of_boom "testFunction"
           write_config returns_12 boom_row eq_refl eq_refl).
Defined.

(** X12: the replay of a transactional step that has no row does not end
    with the [DBOSDebuggerError] that [checkExecution] raises: that error
    is caught with the transaction, the variable [check] is still
    unassigned, and reading its output throws a [TypeError].  User code is
    not invoked, with or without a debug proxy; one error is logged and the
    counter moves by one. *)
Theorem X12_debug_replay_without_record (debugProxy : bool) (s : DebugState)
    (txnName : string) (txnInfo : TransactionConfig) (txn : UserFunction) :
  txn_table (debug_world s) !! (debug_workflowUUID (debug_ctx s), debug_functionID (debug_ctx s))
  = None ->
  debug_transaction debugProxy txnName (Some txnInfo) txn s
  = (Throws (TypeError "Cannot read properties of undefined (reading 'output')"),
     mkDebugState
       (add_event (Log "error") (debug_world s))
       (mkDebugCtx (debug_workflowUUID (debug_ctx s)) (S (debug_functionID (debug_ctx s))))).
Proof.
  intros Hrow. destruct s as [w [uuid n]].
  cbn [debug_world debug_ctx debug_workflowUUID debug_functionID] in *.
  unfold debug_transaction.
  cbn [debug_functionIDGetIncrement debug_ctx debug_world debug_workflowUUID
         debug_functionID].
  unfold debug_wrappedTransaction, debug_checkExecution, debug_query.
  cbn [debug_ctx debug_world debug_workflowUUID]. rewrite Hrow.
  cbn [debug_userDatabase_transaction debug_log debug_world debug_ctx].
  by destruct w.
Qed.

Lemma X12_witness :
  debug_transaction true "testFunction" (Some write_config) returns_12 debug_replay_of_nothing
  = (Throws (TypeError "Cannot read properties of undefined (reading 'output')"),
     mkDebugState (add_event (Log "error") empty_world) (mkDebugCtx "W" 1)).
Proof.
  exact (X12_debug_replay_without_record true debug_replay_of_nothing "testFunction"
           write_config returns_12 eq_refl).
Defined.

(** ** Replay of the other steps in the debugger *)

Lemma debug_recorded_step_eq (s : DebugState) :
  debug_recorded_step s
  = (match recorded_operation (debug_workflowUUID (debug_ctx s))
                              (debug_functionID (debug_ctx s)) (debug_world s) with
     | None => Returns None
     | Some (Returns j) => Returns (Some j)
     | Some (Throws e) => Throws e
     end,
     debug_reaches (debug_workflowUUID (debug_ctx s)) (S (debug_functionID (debug_ctx s)))
                   (debug_world s)).
Proof.
  destruct s as [w [uuid n]]. unfold debug_recorded_step, bind, debug_next_functionID.
  cbn [debug_functionIDGetIncrement debug_ctx debug_world debug_workflowUUID
         debug_functionID].
  unfold debug_checkExecution, debug_checkOperationOutput, recorded_operation.
  cbn [debug_world]. destruct (op_table w !! (uuid, n)) as [r|]; [|done].
  by destruct (negb (is_null (JSON_parse (op_error r)))).
Qed.

(** X13: in the debugger the steps that are not transactions are read
    from the operation log.  [external], [send], [recv], [setEvent] and
    [getEvent] return what is recorded under their step number, throw the
    recorded error, or throw a [DBOSDebuggerError] when nothing is
    recorded; the communicator is never invoked and no table changes, and
    the one event a step adds to the history is the line it writes to the
    debug log when it uses a recorded value.  [sleepms], [sleep] and
    [retrieveWorkflow] only take a step number, and a communicator that is
    not registered takes none.  The status of a retrieved handle is read
    under the step number its retrieval took, whatever the counter holds
    later.  [startChildWorkflow] takes its step number also when it fails
    because the named method is not a function, and the deprecated
    [childWorkflow] is [startChildWorkflow] for a workflow function. *)
Theorem X13_debug_steps_only_read_the_log (s : DebugState) :
  let uuid := debug_workflowUUID (debug_ctx s) in
  let F := debug_functionID (debug_ctx s) in
  let recorded := recorded_operation uuid F (debug_world s) in
  let next := debug_reaches uuid (S F) (debug_world s) in
  let after :=
    match recorded with
    | Some (Returns _) => debug_reaches uuid (S F) (add_event (Log "debug") (debug_world s))
    | _ => next
    end in
  (forall commName commConfig commFn,
     debug_external commName (Some commConfig) commFn s
     = (replay_of recorded VJson
          ("Cannot find recorded communicator output for " ++ commName
           ++ ". Shouldn't happen in debug mode!")%string, after))
  /\ (forall commName commFn,
        debug_external commName None commFn s
        = (Throws (DBOSDebuggerError ("Communicator " ++ commName ++ " not registered!")%string),
           s))
  /\ (forall destinationUUID message topic,
        debug_send destinationUUID message topic s
        = (replay_of recorded (fun _ => tt)
             "Cannot find recorded send. Shouldn't happen in debug mode!", after))
  /\ (forall topic timeoutSeconds,
        debug_recv topic timeoutSeconds s
        = (replay_of recorded VJson
             "Cannot find recorded recv. Shouldn't happen in debug mode!", after))
  /\ (forall key value,
        debug_setEvent key value s
        = (replay_of recorded (fun _ => tt)
             "Cannot find recorded setEvent. Shouldn't happen in debug mode!", after))
  /\ (forall targetUUID key timeoutSeconds,
        debug_getEvent targetUUID key timeoutSeconds s
        = (replay_of recorded VJson
             "Cannot find recorded getEvent. Shouldn't happen in debug mode!", after))
  /\ (forall ms, debug_sleepms ms s = (Returns tt, next))
  /\ (forall times seconds, debug_sleep times seconds s = (Returns tt, next))
  /\ (forall targetUUID,
        debug_retrieveWorkflow targetUUID s
        = (Returns (mkRetrievedHandleDebug targetUUID uuid F), next))
  /\ (forall targetUUID later,
        debug_getStatus (mkRetrievedHandleDebug targetUUID uuid F) later
        = (replay_of (recorded_operation uuid F (debug_world later)) id
             "Cannot find recorded workflow status. Shouldn't happen in debug mode!", later))
  /\ (forall wfn,
        startChildWorkflow (TargetInstance false wfn) (debug_ctx s)
        = (Throws (DBOSError ("In startChildWorkflow of " ++ wfn
                              ++ ", this is not a function on the target instance.")%string
                             None), debug_ctx next))
  /\ debug_childWorkflow (debug_ctx s)
     = (Returns (mkLaunch true (uuid ++ "-" ++ decimal F)%string uuid F), debug_ctx next).
Proof.
  cbn zeta. rewrite <- number_to_string_decimal.
  assert (Hstep := debug_recorded_step_eq s).
  repeat split; intros;
    try (unfold debug_external, debug_send, debug_recv, debug_setEvent, debug_getEvent;
         unfold bind; rewrite Hstep;
         by destruct (recorded_operation _ _ _) as [[j|e]|]).
  all: try by destruct s as [w [uuid n]].
  unfold debug_getStatus, bind, debug_checkOperationOutput, recorded_operation.
  cbn [debug_handle_callerUUID debug_handle_callerFunctionID].
  destruct (op_table (debug_world later) !! _) as [r|]; [|done].
  by destruct (negb (is_null (JSON_parse (op_error r)))).
Qed.

Lemma X13_witness :
  op_table (world after_external_step) !! ("W", 0) = Some (mkOp (Some (JNum 12)) None)
  /\ debug_external "testCommunicator" (Some no_retries) always_boom
                    (debug_reaches "W" 0 (world after_external_step))
     = (Returns (VJson (JNum 12)),
        debug_reaches "W" 1 (add_event (Log "debug") (world after_external_step)))
  /\ debug_recv (Some "topic") (Some 60%Q) (debug_reaches "W" 0 empty_world)
     = (Throws (DBOSDebuggerError "Cannot find recorded recv. Shouldn't happen in debug mode!"),
        debug_reaches "W" 1 empty_world)
  /\ debug_childWorkflow (debug_ctx (debug_reaches "W" 12 empty_world))
     = (Returns (mkLaunch true "W-12" "W" 12), mkDebugCtx "W" 13).
Proof.
  split; [reflexivity|]. split; [|split].
  - exact (proj1 (X13_debug_steps_only_read_the_log
                    (debug_reaches "W" 0 (world after_external_step)))
             "testCommunicator" no_retries always_boom).
  - exact (proj1 (proj2 (proj2 (proj2 (X13_debug_steps_only_read_the_log
                                         (debug_reaches "W" 0 empty_world)))))
             (Some "topic") (Some 60%Q)).
  - exact (proj2 (proj2 (proj2 (proj2 (proj2 (proj2 (proj2 (proj2 (proj2 (proj2 (proj2
             (X13_debug_steps_only_read_the_log (debug_reaches "W" 12 empty_world))))))))))))).
Defined.

(** ** Replay of a non-transactional step *)

Lemma recorded_operation_outcome (uuid : string) (f : nat) (w : World)
    (out : Completion JSValue) :
  op_table w !! (uuid, f) = Some (recorded_op out) ->
  recorded_operation uuid f w
  = Some match out with
         | Returns v => Returns (JSON_parse (JSON_stringify v))
         | Throws e => Throws e
         end.
Proof.
  intros Hrow. unfold recorded_operation. rewrite Hrow. destruct out as [v|e]; [done|].
  cbn [recorded_op op_error JSON_stringify JSON_parse is_null serializeError negb].
  by rewrite deserialize_serialize.
Qed.

Lemma external_begin_reaches (uuid : string) (f : nat) (w : World) :
  external_begin (reaches uuid f w)
  = (match recorded_operation uuid f w with
     | None => Returns (f, None)
     | Some (Returns j) => Returns (f, Some j)
     | Some (Throws e) => Throws e
     end, reaches uuid (S f) w).
Proof.
  unfold external_begin, reaches. unfold bind at 1. rewrite next_functionID_eq.
  cbn [ctx world workflowUUID functionID resultBuffer].
  unfold bind at 1. unfold userDatabase_transaction.
  rewrite flushResultBuffer_fresh by apply buffer_fresh_empty.
  cbn [ctx world workflowUUID functionID resultBuffer txn_table].
  rewrite flushed_table_empty, set_txn_table_same.
  unfold bind, set_resultBuffer, checkOperationOutput, recorded_operation, ret.
  cbn [ctx world workflowUUID functionID].
  destruct (op_table w !! (uuid, f)) as [r|]; [|done].
  by destruct (negb (is_null (JSON_parse (op_error r)))).
Qed.

(** Once [external] has ended for a step without a recorded outcome, the
    operation log holds the outcome under the step's number. *)
Lemma external_outcome_recorded (times : Q -> Q -> Q) (fuel : nat) (commName : string)
    (ctxt : CommunicatorContextImpl) (commFn : UserFunction) (s : State)
    (out : Completion JSValue) (s' : State) :
  buffer_fresh s ->
  op_table (world s) !! (workflowUUID (ctx s), functionID (ctx s)) = None ->
  external times fuel commName (Some ctxt) commFn s = Some (out, s') ->
  op_table (world s') !! (workflowUUID (ctx s), functionID (ctx s)) = Some (recorded_op out).
Proof.
  intros Hfresh Hrow. rewrite external_eq by done.
  assert (Hrecord : forall result err evs c,
            Some (external_record (functionID (ctx s)) result err
                    (mkState (add_events evs (world (after_flush s))) c))
            = Some (out, s') ->
            workflowUUID c = workflowUUID (ctx s) ->
            op_table (world s') !! (workflowUUID (ctx s), functionID (ctx s))
            = Some (recorded_op out)).
  { intros result err evs c Hrun Hc. rewrite external_record_fresh in Hrun.
    - injection Hrun as <- <-. cbn [ctx world op_table set_op_table].
      rewrite Hc. apply lookup_insert_eq.
    - cbn [ctx world op_table add_events after_flush set_txn_table]. by rewrite Hc. }
  destruct (retriesAllowed ctxt).
  - destruct (external_loop _ _ _ _ _ _ _) as [[result s2]|] eqn:Hloop; [|done].
    destruct (external_loop_frame _ _ _ _ _ _ _ _ _ Hloop) as [evs [-> _]].
    intros Hrun. by apply (Hrecord result None evs (ctx (after_flush s))).
  - unfold external_once, call. rewrite add_event_single.
    destruct (commFn _) as [v|e]; intros Hrun.
    + by apply (Hrecord (Some v) None [Invoke] (ctx (after_flush s))).
    + by apply (Hrecord None (Some e) [Invoke] (ctx (after_flush s))).
Qed.

(** X14: the outcome [external] records for a step is the outcome of
    every later execution of the step.  Once a call of [external], made
    when no function id in the result buffer had a row yet, has ended for
    a step that had no recorded outcome, an execution that reaches the
    step again with an empty buffer, in the runtime or in the debugger,
    returns the same result (after its JSON round trip) or throws the
    same error, invokes nothing and writes nothing; the debugger writes a
    line to its debug log when it returns the result. *)
Theorem X14_recorded_external_is_replayed (times times' : Q -> Q -> Q) (fuel fuel' : nat)
    (commName commName' : string) (ctxt ctxt' : CommunicatorContextImpl)
    (commFn commFn' : UserFunction) (s : State) (out : Completion JSValue) (s' : State) :
  buffer_fresh s ->
  op_table (world s) !! (workflowUUID (ctx s), functionID (ctx s)) = None ->
  external times fuel commName (Some ctxt) commFn s = Some (out, s') ->
  let uuid := workflowUUID (ctx s) in
  let F := functionID (ctx s) in
  external times' fuel' commName' (Some ctxt') commFn' (reaches uuid F (world s'))
  = Some (replayed out, reaches uuid (S F) (world s'))
  /\ debug_external commName' (Some ctxt') commFn' (debug_reaches uuid F (world s'))
     = (replayed out,
        debug_reaches uuid (S F)
          match out with
          | Returns _ => add_event (Log "debug") (world s')
          | Throws _ => world s'
          end).
Proof.
  intros Hfresh Hrow Hrun. cbn zeta.
  apply external_outcome_recorded in Hrun; [|done|done].
  apply recorded_operation_outcome in Hrun. split.
  - unfold external. rewrite external_begin_reaches, Hrun. by destruct out.
  - unfold debug_external, bind. rewrite debug_recorded_step_eq.
    cbn [debug_reaches debug_ctx debug_world debug_workflowUUID debug_functionID].
    rewrite Hrun. by destruct out.
Qed.

Lemma X14_witness :
  buffer_fresh first_run
  /\ op_table (world first_run) !! ("W", 0) = None
  /\ external small_product 0 "testCommunicator" (Some no_retries) returns_12 first_run
     = Some (Returns (VJson (JNum 12)), after_external_step)
  /\ external small_product 3 "testCommunicator" (Some three_attempts) always_boom
              (reaches "W" 0 (world after_external_step))
     = Some (Returns (VJson (JNum 12)), reaches "W" 1 (world after_external_step))
  /\ debug_external "testCommunicator" (Some three_attempts) always_boom
                    (debug_reaches "W" 0 (world after_external_step))
     = (Returns (VJson (JNum 12)),
        debug_reaches "W" 1 (add_event (Log "debug") (world after_external_step))).
Proof.
  assert (Hrun : external small_product 0 "testCommunicator" (Some no_retries) returns_12
                          first_run
                 = Some (Returns (VJson (JNum 12)), after_external_step))
    by (vm_compute; reflexivity).
  split; [exact first_run_fresh|]. split; [reflexivity|]. split; [exact Hrun|].
  exact (X14_recorded_external_is_replayed small_product small_product 0 3
           "testCommunicator" "testCommunicator" no_retries three_attempts returns_12
           always_boom first_run (Returns (VJson (JNum 12))) after_external_step
           first_run_fresh eq_refl Hrun).
Defined.

(** ** The debugger and the runtime on the same row *)

(** X15: the debugger without a proxy and the runtime on the same
    recorded row.  For a row of step [F] whose error is not one the
    runtime would retry, the replay in the debugger ends with the decoded
    recorded output or with the deserialized recorded error and invokes
    nothing.  A call of [transaction] by an execution of the runtime that
    is at step [F] invokes nothing either, and ends the same way when the
    row holds an output, or when it holds an error and no function id in
    the buffer of the execution has a row; when the row holds an error
    and a buffered function id has a row, the runtime throws the
    workflow-conflict error where the debugger throws the recorded
    error. *)
Theorem X15_debugger_agrees_with_runtime_replay (fuel : nat) (txnName txnName' : string)
    (config txnInfo : TransactionConfig) (txn txn' : UserFunction) (s : State)
    (row : transaction_outputs) :
  txn_table (world s) !! (workflowUUID (ctx s), functionID (ctx s)) = Some row ->
  isRetriableTransactionError (deserializeError (JSON_parse (row_error row))) = false ->
  let uuid := workflowUUID (ctx s) in
  let F := functionID (ctx s) in
  let out := if is_null (JSON_parse (row_error row))
             then Returns (VJson (JSON_parse (row_output row)))
             else Throws (deserializeError (JSON_parse (row_error row))) in
  debug_transaction false txnName' (Some txnInfo) txn' (debug_reaches uuid F (world s))
  = (out, debug_reaches uuid (S F) (world s))
  /\ (is_null (JSON_parse (row_error row)) = true \/ buffer_fresh s ->
      exists s',
        transaction (S fuel) txnName (Some config) txn s = Some (out, s')
        /\ invocations (world s') = invocations (world s))
  /\ (is_null (JSON_parse (row_error row)) = false ->
      ~ buffer_fresh s ->
      exists s',
        transaction (S fuel) txnName (Some config) txn s
        = Some (Throws (DBOSWorkflowConflictUUIDError uuid), s')
        /\ invocations (world s') = invocations (world s)).
Proof.
  intros Hrow Hfinal. cbn zeta. split; [|split].
  - destruct (is_null (JSON_parse (row_error row))) eqn:Hnull.
    + unfold debug_transaction, debug_reaches.
      cbn [debug_functionIDGetIncrement debug_ctx debug_world debug_workflowUUID
             debug_functionID].
      unfold debug_wrappedTransaction.
      rewrite (debug_checkExecution_recorded _ _ _ row) by done.
      cbn [negb debug_userDatabase_transaction recorded_output is_undefined andb
             JSON_stringify JSON_stringify_result text_eqb].
      by rewrite json_eqb_refl.
    + unfold debug_transaction, debug_reaches.
      cbn [debug_functionIDGetIncrement debug_ctx debug_world debug_workflowUUID
             debug_functionID].
      unfold debug_wrappedTransaction.
      rewrite (debug_checkExecution_error _ _ _ row) by done.
      cbn [negb debug_userDatabase_transaction debug_world debug_ctx].
      by rewrite set_txn_table_same.
  - intros Hcase. rewrite transaction_eq.
    destruct (is_null (JSON_parse (row_error row))) eqn:Hnull.
    + rewrite transaction_loop_step, (attempt_recorded _ _ _ _ row), Hnull by done.
      eexists. split; [done|]. done.
    + destruct Hcase as [Hcase|Hfresh]; [done|].
      destruct (replay_outcome fuel (is_readOnly config) (functionID (ctx s)) txn 1
                  (mkState (world s)
                           (mkCtx (workflowUUID (ctx s)) (S (functionID (ctx s)))
                                  (resultBuffer (ctx s)))) row)
        as [s' [Hrun Hinv]]; [done | by apply buffer_fresh_next | done |].
      rewrite Hnull in Hrun. by exists s'.
  - intros Hnull Hstale. rewrite transaction_eq.
    rewrite (replay_stale_conflict fuel (is_readOnly config) (functionID (ctx s)) txn 1
               (mkState (world s)
                        (mkCtx (workflowUUID (ctx s)) (S (functionID (ctx s)))
                               (resultBuffer (ctx s)))) row); [| done | done | done |].
    + eexists. split; [done|]. done.
    + intros Hfresh. apply Hstale. intros f Hf. by apply (Hfresh f).
Qed.

Lemma X15_witness :
  txn_table (world replay_of_boom) !! ("W", 0) = Some boom_row
  /\ debug_transaction false "testFunction" (Some write_config) returns_12
                       (debug_reaches "W" 0 world_with_boom)
     = (Throws boom, debug_reaches "W" 1 world_with_boom)
  /\ (exists s',
        transaction 1 "testFunction" (Some write_config) returns_12 replay_of_boom
        = Some (Throws boom, s')
        /\ invocations (world s') = 0)
  /\ txn_table (world duplicate_with_stale_buffer) !! ("W", 1) = Some boom_row
  /\ exists s',
       transaction 1 "testFunction" (Some write_config) returns_12 duplicate_with_stale_buffer
       = Some (Throws (DBOSWorkflowConflictUUIDError "W"), s')
       /\ invocations (world s') = 0.
Proof.
  destruct (X15_debugger_agrees_with_runtime_replay 0 "testFunction" "testFunction"
              write_config write_config returns_12 returns_12 replay_of_boom boom_row
              eq_refl eq_refl) as (Hdebug & Hfresh & _).
  destruct (X15_debugger_agrees_with_runtime_replay 0 "testFunction" "testFunction"
              write_config write_config returns_12 returns_12 duplicate_with_stale_buffer
              boom_row eq_refl eq_refl) as (_ & _ & Hstale).
  split; [reflexivity|]. split; [exact Hdebug|].
  split; [exact (Hfresh (or_intror (proj1 replay_of_boom_consistent)))|].
  split; [reflexivity|].
  apply (Hstale eq_refl). intros Hfresh'.
  specialize (Hfresh' 0 (mk_is_Some _ _ eq_refl)). discriminate Hfresh'.
Defined.

(** ** Rows that a step may add *)

Lemma writes_within_preorder (f : nat) : PreOrder (writes_within f).
Proof.
  split.
  - intros s. split; [done|]. split; [by right | by left].
  - intros s1 s2 s3 (Hu1 & Hb1 & Hk1) (Hu2 & Hb2 & Hk2).
    split; [congruence|]. split.
    + intros g Hg. destruct (Hb2 g Hg) as [->|Hg2]; [by left | by apply Hb1].
    + intros key Hkey. destruct (Hk2 key Hkey) as [H2 | [Hw Hf]].
      * by apply Hk1.
      * right. split; [congruence|]. destruct Hf as [Hf|Hf]; [by left|].
        by apply Hb1.
Qed.

#[local] Existing Instance writes_within_preorder.

Lemma sql_insert_keys (rows : list ((string * nat) * transaction_outputs))
    (tbl tbl' : gmap (string * nat) transaction_outputs) (key : string * nat) :
  sql_insert rows tbl = Some tbl' ->
  is_Some (tbl' !! key) -> is_Some (tbl !! key) \/ key ∈ rows.*1.
Proof.
  revert tbl. induction rows as [|[k r] rows IH]; intros tbl; simpl.
  - intros [= <-]. by left.
  - destruct (tbl !! k) eqn:Hk; [done|]. intros Hins Hkey.
    destruct (IH _ Hins Hkey) as [H | H].
    + destruct (decide (k = key)) as [->|Hne]; [right; by left|].
      rewrite lookup_insert_ne in H by done. by left.
    + right. by right.
Qed.

Lemma writes_within_rollback (f : nat) (s s' : State) :
  writes_within f s s' ->
  writes_within f s (mkState (set_txn_table (txn_table (world s)) (world s')) (ctx s')).
Proof. intros (Hu & Hb & _). split; [done|]. split; [done|]. intros key Hkey. by left. Qed.

Section WritesWithin.

Variable f : nat.

Lemma writes_within_memory (s : State) (evs : list Event) :
  writes_within f s (mkState (add_events evs (world s)) (ctx s)).
Proof. split; [done|]. split; [by right | by left]. Qed.

Lemma writes_within_checkExecution (funcID : nat) :
  preserves (writes_within f) (checkExecution funcID).
Proof.
  intros s. unfold checkExecution, checkExecution_query.
  destruct (txn_table (world s) !! (workflowUUID (ctx s), funcID)) as [r|]; cbn.
  - destruct (negb (is_null (JSON_parse (row_error r)))); reflexivity.
  - reflexivity.
Qed.

Lemma writes_within_insert (b : BufferedResult) :
  preserves (writes_within f)
            (fun s => set_resultBuffer (<[f := b]> (resultBuffer (ctx s))) s).
Proof.
  intros s. split; [done|]. split; [|by left].
  intros g Hg. cbn [snd set_resultBuffer ctx resultBuffer] in Hg.
  destruct (decide (f = g)) as [->|Hne]; [by left|].
  rewrite lookup_insert_ne in Hg by done. by right.
Qed.

Lemma writes_within_clear : preserves (writes_within f) (set_resultBuffer ∅).
Proof.
  intros s. split; [done|]. split; [|by left].
  intros g Hg. cbn [snd set_resultBuffer ctx resultBuffer] in Hg.
  rewrite lookup_empty in Hg. by destruct Hg.
Qed.

Lemma writes_within_flushResultBuffer : preserves (writes_within f) flushResultBuffer.
Proof.
  intros s. unfold flushResultBuffer.
  destruct (length (sorted_funcIDs (resultBuffer (ctx s))) =? 0)%nat; [reflexivity|].
  destruct (sql_insert _ _) as [tbl|] eqn:Hins; [|reflexivity].
  split; [done|]. split; [by right|].
  intros key Hkey. cbn [snd world txn_table set_txn_table] in Hkey.
  destruct (sql_insert_keys _ _ _ key Hins Hkey) as [H | H]; [by left|].
  right. rewrite flush_values_keys in H. apply list_elem_of_fmap in H as [g [-> Hg]].
  apply sorted_funcIDs_elem in Hg. cbn [fst snd]. split; [done | by right].
Qed.

Lemma writes_within_call (fn : UserFunction) : preserves (writes_within f) (call fn).
Proof. intros s. split; [done|]. split; [by right | by left]. Qed.

Lemma writes_within_recordGuardedOutput (out : JSValue) :
  preserves (writes_within f) (recordGuardedOutput f out).
Proof.
  intros s. unfold recordGuardedOutput.
  destruct (txn_table (world s) !! (workflowUUID (ctx s), f)) as [r|] eqn:Hr; [|reflexivity].
  split; [done|]. split; [by right|].
  intros key Hkey. cbn [snd world txn_table set_txn_table] in Hkey. left.
  destruct (decide ((workflowUUID (ctx s), f) = key)) as [<-|Hne]; [by rewrite Hr|].
  by rewrite lookup_insert_ne in Hkey.
Qed.

Lemma writes_within_recordGuardedError (err : JsError) :
  preserves (writes_within f) (recordGuardedError f err).
Proof.
  intros s. unfold recordGuardedError.
  destruct (txn_table (world s) !! (workflowUUID (ctx s), f)) as [r|] eqn:Hr; [|reflexivity].
  split; [done|]. split; [by right|].
  intros key Hkey. cbn [snd world txn_table set_txn_table] in Hkey. left.
  destruct (decide ((workflowUUID (ctx s), f) = key)) as [<-|Hne]; [by rewrite Hr|].
  by rewrite lookup_insert_ne in Hkey.
Qed.

Lemma writes_within_wrappedTransaction (readOnly : bool) (txn : UserFunction) :
  preserves (writes_within f) (wrappedTransaction readOnly f txn).
Proof.
  unfold wrappedTransaction.
  apply preserves_bind; [apply _ | apply writes_within_checkExecution |]. intros check.
  destruct (check_output check); [by apply preserves_ret, _|].
  apply preserves_bind; [apply _ | apply writes_within_insert |]. intros _.
  apply preserves_bind; [apply _ | |].
  { destruct (negb readOnly); [apply writes_within_flushResultBuffer
                              | by apply preserves_ret, _]. }
  intros _. apply preserves_bind; [apply _ | apply writes_within_call |]. intros result.
  apply preserves_bind; [apply _ | | intros _; by apply preserves_ret, _].
  destruct readOnly.
  - apply writes_within_insert.
  - apply preserves_bind; [apply _ | apply writes_within_recordGuardedOutput |].
    intros _. apply writes_within_clear.
Qed.

Lemma writes_within_record_and_throw (err : JsError) :
  preserves (writes_within f) (record_and_throw f err).
Proof.
  unfold record_and_throw.
  apply preserves_bind; [apply _ | |].
  { apply preserves_userDatabase_transaction; [apply writes_within_rollback|].
    apply preserves_bind; [apply _ | apply writes_within_flushResultBuffer |].
    intros _. apply writes_within_recordGuardedError. }
  intros _. apply preserves_bind; [apply _ | apply writes_within_clear |].
  intros _. by apply preserves_throw, _.
Qed.

Lemma transaction_loop_writes_within (fuel : nat) (readOnly : bool) (txn : UserFunction)
    (wait : Z) (s : State) (out : Completion JSValue) (s' : State) :
  transaction_loop fuel readOnly f txn wait s = Some (out, s') -> writes_within f s s'.
Proof.
  revert wait s. induction fuel as [|fuel IH]; intros wait s; [done|].
  rewrite transaction_loop_step.
  assert (Hatt : writes_within f s
                   (userDatabase_transaction (wrappedTransaction readOnly f txn) s).2).
  { apply preserves_userDatabase_transaction; [apply writes_within_rollback|].
    apply writes_within_wrappedTransaction. }
  destruct (userDatabase_transaction (wrappedTransaction readOnly f txn) s) as [[v|e] s1].
  - intros [= <- <-]. exact Hatt.
  - destruct (isRetriableTransactionError e).
    + intros Hrun. apply IH in Hrun. etrans; [exact Hatt|]. etrans; [|exact Hrun].
      rewrite add_event_single. apply writes_within_memory.
    + intros [= Hrun]. etrans; [exact Hatt|].
      pose proof (writes_within_record_and_throw e s1) as Hrec.
      by rewrite Hrun in Hrec.
Qed.

End WritesWithin.

(** X16: a transactional step writes only under its own workflow id.
    Every row that is in [dbos.transaction_outputs] after a call of
    [transaction] and was not there before is a row of the calling
    workflow, under the number of the step itself or of an output that
    was buffered when the call began; rows of other workflows are never
    created. *)
Theorem X16_transaction_adds_own_rows_only (fuel : nat) (txnName : string)
    (config : option TransactionConfig) (txn : UserFunction) (s : State)
    (out : Completion JSValue) (s' : State) (uuid : string) (g : nat) :
  transaction fuel txnName config txn s = Some (out, s') ->
  txn_table (world s) !! (uuid, g) = None ->
  is_Some (txn_table (world s') !! (uuid, g)) ->
  uuid = workflowUUID (ctx s)
  /\ (g = functionID (ctx s) \/ is_Some (resultBuffer (ctx s) !! g)).
Proof.
  destruct config as [config|].
  - rewrite transaction_eq. intros Hrun Hnone Hsome.
    apply transaction_loop_writes_within in Hrun as (_ & _ & Hk).
    destruct (Hk (uuid, g) Hsome) as [H | H]; [|done].
    cbn [ctx world] in H. rewrite Hnone in H. by destruct H.
  - intros [= _ <-] Hnone Hsome. rewrite Hnone in Hsome. by destruct Hsome.
Qed.

Lemma X16_witness :
  txn_table (world after_readonly_step) !! ("W", 0) = None
  /\ is_Some (txn_table (world after_readonly_then_write) !! ("W", 0))
  /\ is_Some (resultBuffer (ctx after_readonly_step) !! 0).
Proof.
  assert (Hrun : transaction 1 "testWrite" (Some write_config) returns_ok after_readonly_step
                 = Some (Returns (VJson (JStr "ok")), after_readonly_then_write))
    by (vm_compute; reflexivity).
  assert (Hnone : txn_table (world after_readonly_step) !! ("W", 0) = None)
    by (vm_compute; reflexivity).
  assert (Hsome : is_Some (txn_table (world after_readonly_then_write) !! ("W", 0)))
    by (eexists; vm_compute; reflexivity).
  split; [exact Hnone|]. split; [exact Hsome|].
  destruct (X16_transaction_adds_own_rows_only 1 "testWrite" (Some write_config) returns_ok
              after_readonly_step (Returns (VJson (JStr "ok"))) after_readonly_then_write
              "W" 0 Hrun Hnone Hsome) as [_ [Hself | Hbuf]].
  - discriminate Hself.
  - exact Hbuf.
Defined.

(** ** The proxy of [invoke] *)

Lemma existsb_sets_prototype (ops : list RegisteredOperation) :
  (forall op, op ∈ ops -> op_name op <> "__proto__") ->
  existsb sets_prototype ops = false.
Proof.
  induction ops as [|op ops IH]; intros Hall; [done|]. cbn [existsb].
  rewrite IH by (intros op' Hin; apply Hall; by right).
  unfold sets_prototype. rewrite orb_false_r. apply String.eqb_neq, Hall. by left.
Qed.

Lemma last_registered_snoc (name : string) (ops : list RegisteredOperation)
    (op : RegisteredOperation) :
  last_registered name (ops ++ [op])
  = if decide (op_name op = name) then Some op else last_registered name ops.
Proof.
  unfold last_registered. rewrite filter_app, filter_cons, filter_nil.
  destruct (decide (op_name op = name)).
  - by rewrite last_snoc.
  - by rewrite app_nil_r.
Qed.

Lemma proxy_lookup {A : Type} (method : RegisteredOperation -> A)
    (ops : list RegisteredOperation) (name : string) :
  proxy_properties method ops !! name = method <$> last_registered name ops.
Proof.
  unfold proxy_properties.
  induction ops as [|op ops IH] using rev_ind; [done|].
  rewrite foldl_app, last_registered_snoc. cbn [foldl].
  destruct (decide (op_name op = name)) as [<-|Hne].
  - by rewrite lookup_insert_eq.
  - by rewrite lookup_insert_ne.
Qed.

Lemma debug_proxy_eq (instance : option string) (ops : list RegisteredOperation) :
  proxy_properties (fun op => (proxy_method op, instance)) ops
  = (fun method => (method, instance)) <$> proxy_properties proxy_method ops.
Proof.
  unfold proxy_properties.
  induction ops as [|op ops IH] using rev_ind; [cbn [foldl]; by rewrite fmap_empty|].
  by rewrite !foldl_app, IH; cbn [foldl]; rewrite fmap_insert.
Qed.

(** X17: when no registered operation is named [__proto__], the proxy
    [invoke] builds has one own property for each name among the
    registered operations, and the last operation registered under a name
    decides what the property does: it runs the function with
    [transaction] when the operation has a transaction configuration
    (also when it has a communicator configuration as well), with
    [external] when it has only a communicator configuration, and is
    [undefined] otherwise.  The replay's [invoke] builds the same proxy,
    for a class and for a configured instance alike, and hands every
    method the instance (or null). *)
Theorem X17_invoke_dispatches_on_last_registration (ops : list RegisteredOperation) :
  (forall op, op ∈ ops -> op_name op <> "__proto__") ->
  exists proxy,
    invoke ops = Some proxy
    /\ (forall name op,
          last_registered name ops = Some op ->
          proxy !! name
          = Some match txnConfig op, commConfig op with
                 | Some _, _ => CallsTransaction (registeredFunction op)
                 | None, Some _ => CallsExternal (registeredFunction op)
                 | None, None => ProxyUndefined
                 end)
    /\ (forall name, proxy !! name = None <-> forall op, op ∈ ops -> op_name op <> name)
    /\ debug_invoke TargetClass ops = Some ((fun method => (method, None)) <$> proxy)
    /\ (forall targetInst,
          debug_invoke (TargetConfigured targetInst) ops
          = Some ((fun method => (method, Some targetInst)) <$> proxy)).
Proof.
  intros Hnames. apply existsb_sets_prototype in Hnames.
  unfold invoke, debug_invoke. rewrite Hnames. eexists. split; [done|].
  split; [|split; [|split]].
  - intros name op Hop. rewrite proxy_lookup, Hop. cbn. unfold proxy_method.
    by destruct (txnConfig op), (commConfig op).
  - intros name. rewrite proxy_lookup, fmap_None. unfold last_registered. rewrite last_None.
    split.
    + intros Hnil op Hin Hname.
      assert (Hop : op ∈ filter (fun op => op_name op = name) ops).
      { by apply list_elem_of_filter. }
      rewrite Hnil in Hop. by apply not_elem_of_nil in Hop.
    + intros Hall. destruct (filter _ ops) as [|op rest] eqn:Hf; [done|]. exfalso.
      assert (Hop : op ∈ filter (fun op => op_name op = name) ops)
        by (rewrite Hf; by left).
      apply list_elem_of_filter in Hop as [Hname Hin].
      by apply (Hall op).
  - by rewrite debug_proxy_eq.
  - intros targetInst. by rewrite debug_proxy_eq.
Qed.

Lemma X17_witness :
  (forall op, op ∈ sample_operations -> op_name op <> "__proto__")
  /\ exists proxy,
       invoke sample_operations = Some proxy
       /\ proxy !! "testFunction" = Some (CallsExternal returns_13)
       /\ proxy !! "testCommunicator" = Some (CallsExternal returns_12)
       /\ proxy !! "helper" = Some ProxyUndefined
       /\ proxy !! "toString" = None.
Proof.
  assert (Hnames : forall op, op ∈ sample_operations -> op_name op <> "__proto__").
  { intros op Hin. unfold sample_operations in Hin.
    repeat (apply elem_of_cons in Hin as [->|Hin]; [done|]).
    by apply not_elem_of_nil in Hin. }
  split; [exact Hnames|].
  destruct (X17_invoke_dispatches_on_last_registration sample_operations Hnames)
    as (proxy & Hinvoke & Hlast & Hnone & _).
  exists proxy. split; [exact Hinvoke|].
  split; [exact (Hlast "testFunction" _ eq_refl)|].
  split; [exact (Hlast "testCommunicator" _ eq_refl)|].
  split; [exact (Hlast "helper" _ eq_refl)|].
  apply Hnone. intros op Hin. unfold sample_operations in Hin.
  repeat (apply elem_of_cons in Hin as [->|Hin]; [done|]).
  by apply not_elem_of_nil in Hin.
Defined.

(** ** What the replay of a transaction never does *)

(** X18: the replay of a transactional step never writes.  However a
    call of the replay's [transaction] ends, with or without a debug
    proxy, whatever the table holds and whatever the user transaction
    does, both tables are as before, the workflow id is unchanged, the
    counter has moved by one (by nothing when the transaction is not
    registered), and user code has been invoked at most once, and not at
    all without a proxy. *)
Theorem X18_debug_replay_never_writes (debugProxy : bool) (txnName : string)
    (txnInfo : option TransactionConfig) (txn : UserFunction) (s : DebugState) :
  let s' := (debug_transaction debugProxy txnName txnInfo txn s).2 in
  txn_table (debug_world s') = txn_table (debug_world s)
  /\ op_table (debug_world s') = op_table (debug_world s)
  /\ debug_workflowUUID (debug_ctx s') = debug_workflowUUID (debug_ctx s)
  /\ debug_functionID (debug_ctx s')
     = match txnInfo with
       | Some _ => S (debug_functionID (debug_ctx s))
       | None => debug_functionID (debug_ctx s)
       end
  /\ invocations (debug_world s') <= S (invocations (debug_world s))
  /\ (debugProxy = false -> invocations (debug_world s') = invocations (debug_world s)).
Proof.
  cbn zeta. destruct s as [w [uuid n]]. destruct txnInfo as [txnInfo|];
    [|unfold debug_transaction; cbn [snd debug_world debug_ctx debug_workflowUUID
                                       debug_functionID];
      repeat split; try done; lia].
  unfold debug_transaction.
  cbn [debug_functionIDGetIncrement debug_ctx debug_world debug_workflowUUID
         debug_functionID].
  unfold debug_wrappedTransaction, debug_checkExecution, debug_query.
  cbn [debug_ctx debug_world debug_workflowUUID].
  assert (Hone : forall w0, invocations (add_event Invoke w0) = S (invocations w0)).
  { intros w0. rewrite add_event_single, invocations_add_events.
    change (count_invoke [Invoke]) with 1. lia. }
  assert (Hlog : forall level w0, invocations (add_event (Log level) w0) = invocations w0).
  { intros level w0. rewrite add_event_single, invocations_add_events.
    change (count_invoke [Log level]) with 0. lia. }
  destruct (txn_table w !! (uuid, n)) as [row|].
  - destruct (negb (is_null (JSON_parse (row_error row)))), debugProxy; cbn [negb];
      unfold debug_call, debug_log; cbn [debug_world debug_ctx];
      try destruct (txn _) as [v|e];
      cbn [debug_userDatabase_transaction debug_world debug_ctx recorded_output];
      repeat match goal with
             | |- context [if ?c then _ else _] => destruct c
             end;
      cbn [snd debug_world debug_ctx debug_workflowUUID debug_functionID txn_table op_table
             add_event set_txn_table];
      repeat split; try done; try discriminate;
      repeat (frame_invocations; rewrite ?Hlog, ?Hone); lia.
  - cbn [debug_userDatabase_transaction debug_log snd debug_world debug_ctx
           debug_workflowUUID debug_functionID txn_table op_table add_event set_txn_table].
    frame_invocations. rewrite Hlog. repeat split; try done; lia.
Qed.

(** ** Rows that a non-transactional step may add *)

Lemma log_writes_within_preorder (f : nat) : PreOrder (log_writes_within f).
Proof.
  split.
  - intros s. split; [done|]. split; [done|]. split; intros key Hkey; by left.
  - intros s1 s2 s3 (Hu1 & Hb1 & Hk1 & Ho1) (Hu2 & Hb2 & Hk2 & Ho2).
    split; [congruence|]. split; [by auto|]. split.
    + intros key Hkey. destruct (Hk2 key Hkey) as [H2 | [Hw Hg]]; [by apply Hk1|].
      right. split; [congruence | by apply Hb1].
    + intros key Hkey. destruct (Ho2 key Hkey) as [H2 | ->]; [by apply Ho1|].
      right. by rewrite Hu1.
Qed.

#[local] Existing Instance log_writes_within_preorder.

Lemma log_writes_within_rollback (f : nat) (s s' : State) :
  log_writes_within f s s' ->
  log_writes_within f s (mkState (set_txn_table (txn_table (world s)) (world s')) (ctx s')).
Proof.
  intros (Hu & Hb & _ & Ho). split; [done|]. split; [done|]. split; [|done].
  intros key Hkey. by left.
Qed.

Section LogWritesWithin.

Variable f : nat.

Lemma log_writes_within_memory (s : State) (evs : list Event) :
  log_writes_within f s (mkState (add_events evs (world s)) (ctx s)).
Proof. split; [done|]. split; [done|]. split; intros key Hkey; by left. Qed.

Lemma log_writes_within_flushResultBuffer : preserves (log_writes_within f) flushResultBuffer.
Proof.
  intros s. unfold flushResultBuffer.
  destruct (length (sorted_funcIDs (resultBuffer (ctx s))) =? 0)%nat; [reflexivity|].
  destruct (sql_insert _ _) as [tbl|] eqn:Hins; [|reflexivity].
  split; [done|]. split; [done|]. split; [|intros key Hkey; by left].
  intros key Hkey. cbn [snd world txn_table set_txn_table] in Hkey.
  destruct (sql_insert_keys _ _ _ key Hins Hkey) as [H | H]; [by left|].
  right. rewrite flush_values_keys in H. apply list_elem_of_fmap in H as [g [-> Hg]].
  apply sorted_funcIDs_elem in Hg. by split.
Qed.

Lemma log_writes_within_clear : preserves (log_writes_within f) (set_resultBuffer ∅).
Proof.
  intros s. split; [done|]. split; [|split; intros key Hkey; by left].
  intros g Hg. cbn [snd set_resultBuffer ctx resultBuffer] in Hg.
  rewrite lookup_empty in Hg. by destruct Hg.
Qed.

Lemma log_writes_within_checkOperationOutput (uuid : string) (funcID : nat) :
  preserves (log_writes_within f) (checkOperationOutput uuid funcID).
Proof.
  intros s. unfold checkOperationOutput.
  destruct (op_table (world s) !! (uuid, funcID)) as [r|]; [|reflexivity].
  destruct (negb (is_null (JSON_parse (op_error r)))); reflexivity.
Qed.

Lemma log_writes_within_external_record (result : option JSValue) (err : option JsError)
    (s : State) (c : Completion JSValue) (s' : State) :
  external_record f result err s = (c, s') -> log_writes_within f s s'.
Proof.
  assert (Hrec : forall r, log_writes_within f s (record_operation (workflowUUID (ctx s)) f r s).2).
  { intros r. unfold record_operation.
    destruct (op_table (world s) !! (workflowUUID (ctx s), f)) as [old|] eqn:Hold.
    - destruct (_ && _); reflexivity.
    - split; [done|]. split; [done|]. split; [intros key Hkey; by left|].
      intros key Hkey. cbn [snd world op_table set_op_table] in Hkey.
      destruct (decide ((workflowUUID (ctx s), f) = key)) as [<-|Hne]; [by right|].
      rewrite lookup_insert_ne in Hkey by done. by left. }
  unfold external_record, recordOperationOutput, recordOperationError, bind.
  destruct result as [v|].
  - specialize (Hrec (mkOp (JSON_stringify v) None)).
    destruct (record_operation _ _ _ s) as [[[]|e] s1]; intros [= _ <-]; exact Hrec.
  - specialize (Hrec (mkOp None (JSON_stringify
                        (VJson (serializeError
                                  match err with
                                  | Some e => e
                                  | None => DBOSError "Communicator reached maximum retries."
                                                      (Some 1%Z)
                                  end))))).
    destruct (record_operation _ _ _ s) as [[[]|e] s1]; intros [= _ <-]; exact Hrec.
Qed.

End LogWritesWithin.

Lemma log_writes_within_external_begin (s : State) :
  log_writes_within (functionID (ctx s)) s (external_begin s).2.
Proof.
  unfold external_begin. unfold bind at 1. rewrite next_functionID_eq.
  etrans; [|apply (preserves_bind (log_writes_within (functionID (ctx s))))].
  - split; [done|]. split; [done|]. split; intros key Hkey; by left.
  - apply preserves_userDatabase_transaction; [apply log_writes_within_rollback|].
    apply log_writes_within_flushResultBuffer.
  - intros _. apply (preserves_bind (log_writes_within (functionID (ctx s))));
      [apply log_writes_within_clear|].
    intros _. apply (preserves_bind (log_writes_within (functionID (ctx s)))).
    { intros s0. apply log_writes_within_checkOperationOutput. }
    intros check. by apply preserves_ret, _.
Qed.

Lemma external_begin_funcID (s : State) (funcID : nat) (check : option Json) (s1 : State) :
  external_begin s = (Returns (funcID, check), s1) -> funcID = functionID (ctx s).
Proof.
  unfold external_begin. unfold bind at 1. rewrite next_functionID_eq. unfold bind.
  destruct (userDatabase_transaction flushResultBuffer _) as [[[]|e] s2]; [|done].
  destruct (set_resultBuffer ∅ s2) as [[[]|e] s3]; [|done].
  destruct (checkOperationOutput _ _ s3) as [[c|e] s4]; [|done].
  by intros [= <- _ _].
Qed.

(** X19: a non-transactional step writes only what is its own.  Every row
    that is in [dbos.transaction_outputs] after a call of [external] and
    was not there before is the row of an output of the calling workflow
    that was buffered when the call began, and every row that is new in
    the operation log is that of the step itself. *)
Theorem X19_external_adds_own_rows_only (times : Q -> Q -> Q) (fuel : nat)
    (commName : string) (commConfig : option CommunicatorContextImpl)
    (commFn : UserFunction) (s : State) (out : Completion JSValue) (s' : State) :
  external times fuel commName commConfig commFn s = Some (out, s') ->
  (forall uuid g,
     txn_table (world s) !! (uuid, g) = None ->
     is_Some (txn_table (world s') !! (uuid, g)) ->
     uuid = workflowUUID (ctx s) /\ is_Some (resultBuffer (ctx s) !! g))
  /\ (forall uuid g,
        op_table (world s) !! (uuid, g) = None ->
        is_Some (op_table (world s') !! (uuid, g)) ->
        uuid = workflowUUID (ctx s) /\ g = functionID (ctx s)).
Proof.
  intros Hrun.
  assert (H : log_writes_within (functionID (ctx s)) s s').
  { destruct commConfig as [ctxt|]; [|by injection Hrun as _ <-].
    unfold external in Hrun.
    pose proof (log_writes_within_external_begin s) as Hbegin.
    destruct (external_begin s) as [[[funcID [check|]]|e] s1] eqn:Hb.
    - by injection Hrun as _ <-.
    - apply external_begin_funcID in Hb as ->.
      destruct (retriesAllowed ctxt).
      + destruct (external_loop _ _ _ _ _ _ _) as [[result s2]|] eqn:Hloop; [|done].
        destruct (external_loop_frame _ _ _ _ _ _ _ _ _ Hloop) as [evs [-> _]].
        destruct (external_record _ _ _ _) as [c s3] eqn:Hrec. injection Hrun as _ <-.
        apply log_writes_within_external_record in Hrec.
        etrans; [exact Hbegin|]. etrans; [apply (log_writes_within_memory _ s1 evs)|].
        exact Hrec.
      + unfold external_once, call in Hrun.
        destruct (commFn (invocations (world s1))) as [v|e];
          (destruct (external_record _ _ _ _) as [c s3] eqn:Hrec; injection Hrun as _ <-;
           apply log_writes_within_external_record in Hrec;
           etrans; [exact Hbegin|]; etrans; [|exact Hrec];
           rewrite add_event_single; apply log_writes_within_memory).
    - by injection Hrun as _ <-. }
  destruct H as (_ & _ & Hk & Ho). split.
  - intros uuid g Hnone Hsome. destruct (Hk (uuid, g) Hsome) as [H | H]; [|done].
    rewrite Hnone in H. by destruct H.
  - intros uuid g Hnone Hsome. destruct (Ho (uuid, g) Hsome) as [H | [= -> ->]]; [|done].
    rewrite Hnone in H. by destruct H.
Qed.

Lemma X19_witness :
  is_Some (txn_table (world after_readonly_then_external) !! ("W", 0))
  /\ is_Some (op_table (world after_readonly_then_external) !! ("W", 1))
  /\ is_Some (resultBuffer (ctx after_readonly_step) !! 0)
  /\ functionID (ctx after_readonly_step) = 1.
Proof.
  assert (Hrun : external small_product 0 "testCommunicator" (Some no_retries) returns_12
                          after_readonly_step
                 = Some (Returns (VJson (JNum 12)), after_readonly_then_external))
    by (vm_compute; reflexivity).
  assert (Htxn : is_Some (txn_table (world after_readonly_then_external) !! ("W", 0)))
    by (eexists; vm_compute; reflexivity).
  assert (Hop : is_Some (op_table (world after_readonly_then_external) !! ("W", 1)))
    by (eexists; vm_compute; reflexivity).
  split; [exact Htxn|]. split; [exact Hop|].
  destruct (X19_external_adds_own_rows_only small_product 0 "testCommunicator"
              (Some no_retries) returns_12 after_readonly_step (Returns (VJson (JNum 12)))
              after_readonly_then_external Hrun) as [Hk Ho].
  split.
  - exact (proj2 (Hk "W" 0 eq_refl Htxn)).
  - symmetry. exact (proj2 (Ho "W" 1 eq_refl Hop)).
Defined.

(** ** Where the outcome of a transactional step comes from *)






(** ** Replay of a whole workflow *)








(** ** Debug replay of a recorded output *)

Lemma set_txn_table_add_events (evs : list Event) (w : World) :
  set_txn_table (txn_table w) (add_events evs w) = add_events evs w.
Proof. by destruct w. Qed.

(** X22: the replay of a transactional step whose row holds an output
    (its error column is NULL or the text "null").  Without a debug proxy
    the call returns the recorded output and nothing else happens.  With
    a proxy the user transaction runs once; the call returns the recorded
    output and logs an error when what the transaction returned or threw
    prints differently, except that it returns [undefined], and logs
    nothing, when the transaction returned [undefined] and the recorded
    output is null, false, 0 or the empty string.  Nothing is written. *)
Theorem X22_debug_replay_of_recorded_output (s : DebugState) (txnName : string)
    (txnInfo : TransactionConfig) (txn : UserFunction) (row : transaction_outputs) :
  txn_table (debug_world s) !! (debug_workflowUUID (debug_ctx s), debug_functionID (debug_ctx s))
  = Some row ->
  row_error row = None \/ row_error row = Some JNull ->
  let recorded := match row_output row with Some j => j | None => JNull end in
  let again := txn (invocations (debug_world s)) in
  let after evs :=
    mkDebugState (add_events evs (debug_world s))
                 (mkDebugCtx (debug_workflowUUID (debug_ctx s))
                             (S (debug_functionID (debug_ctx s)))) in
  let falsy :=
    recorded = JNull \/ recorded = JBool false \/ recorded = JNum 0 \/ recorded = JStr "" in
  let replay := debug_transaction true txnName (Some txnInfo) txn s in
  debug_transaction false txnName (Some txnInfo) txn s = (Returns (VJson recorded), after [])
  /\ (again = Returns VUndefined -> falsy -> replay = (Returns VUndefined, after [Invoke]))
  /\ (again = Returns VUndefined -> ~ falsy ->
      replay = (Returns (VJson recorded), after [Invoke; Log "error"]))
  /\ (again = Returns (VJson recorded) -> replay = (Returns (VJson recorded), after [Invoke]))
  /\ (forall j,
        again = Returns (VJson j) -> j <> recorded ->
        replay = (Returns (VJson recorded), after [Invoke; Log "error"]))
  /\ (forall e,
        again = Throws e ->
        let printed :=
          JObj (match err_code e with Some c => [("code", JStr c)] | None => [] end
                ++ match dbosErrorCode e with
                   | Some c => [("dbosErrorCode", JNum c)]
                   | None => []
                   end) in
        (printed = recorded -> replay = (Returns (VJson recorded), after [Invoke]))
        /\ (printed <> recorded ->
            replay = (Returns (VJson recorded), after [Invoke; Log "error"]))).
Proof.
  intros Hrow Herr recorded again after falsy replay.
  assert (Hnull : is_null (JSON_parse (row_error row)) = true)
    by (by destruct Herr as [-> | ->]).
  assert (Hfalsy : truthy recorded = false <-> falsy) by apply truthy_false.
  destruct s as [w [uuid n]].
  cbn [debug_world debug_ctx debug_workflowUUID debug_functionID] in *.
  subst replay. unfold debug_transaction.
  cbn [debug_functionIDGetIncrement debug_ctx debug_world debug_workflowUUID
         debug_functionID].
  unfold debug_wrappedTransaction.
  rewrite !(debug_checkExecution_recorded _ _ _ row) by done.
  change (JSON_parse (row_output row)) with recorded.
  cbn [negb recorded_output]. unfold debug_call.
  cbn [debug_world debug_ctx]. fold again.
  split; [|split; [|split; [|split; [|split]]]].
  - cbn [debug_userDatabase_transaction is_undefined andb JSON_stringify
           JSON_stringify_result text_eqb].
    rewrite json_eqb_refl. cbn [negb]. subst after. cbn beta.
    by rewrite add_events_nil.
  - intros -> Hf. apply Hfalsy in Hf.
    cbn [debug_userDatabase_transaction is_undefined andb]. rewrite Hf. cbn [negb].
    subst after. cbn beta. by rewrite add_event_single.
  - intros -> Hf.
    assert (Ht : truthy recorded = true)
      by (apply not_false_iff_true; intros Ht; by apply Hfalsy in Ht).
    cbn [debug_userDatabase_transaction is_undefined andb]. rewrite Ht.
    cbn [negb JSON_stringify JSON_stringify_result text_eqb]. unfold debug_log.
    subst after. cbn [debug_world debug_ctx]. cbn beta.
    by rewrite !add_event_single, add_events_add_events.
  - intros ->.
    cbn [debug_userDatabase_transaction is_undefined andb JSON_stringify
           JSON_stringify_result text_eqb].
    rewrite json_eqb_refl. cbn [negb]. subst after. cbn beta. by rewrite add_event_single.
  - intros j -> Hne.
    cbn [debug_userDatabase_transaction is_undefined andb JSON_stringify
           JSON_stringify_result text_eqb].
    rewrite (json_eqb_neq recorded j) by done. cbn [negb]. unfold debug_log.
    subst after. cbn [debug_world debug_ctx]. cbn beta.
    by rewrite !add_event_single, add_events_add_events.
  - intros e He. rewrite He.
    cbn [debug_userDatabase_transaction is_undefined andb JSON_stringify
           JSON_stringify_result text_eqb debug_world debug_ctx].
    rewrite add_event_single, set_txn_table_add_events. split.
    + intros Heq. rewrite Heq, json_eqb_refl. cbn [negb]. done.
    + intros Hne. rewrite json_eqb_neq by (intros Heq; by apply Hne). cbn [negb].
      unfold debug_log. subst after. cbn [debug_world debug_ctx]. cbn beta.
      by rewrite add_event_single, add_events_add_events.
Qed.

Lemma X22_witness :
  txn_table (debug_world debug_replay) !! ("W", 0) = Some recorded_12
  /\ debug_transaction false "testFunction" (Some write_config) returns_13 debug_replay
     = (Returns (VJson (JNum 12)), mkDebugState (debug_world debug_replay) (mkDebugCtx "W" 1))
  /\ debug_transaction true "testFunction" (Some write_config) returns_13 debug_replay
     = (Returns (VJson (JNum 12)),
        mkDebugState (add_events [Invoke; Log "error"] (debug_world debug_replay))
                     (mkDebugCtx "W" 1))
  /\ debug_transaction true "testFunction" (Some write_config) returns_undefined debug_replay
     = (Returns (VJson (JNum 12)),
        mkDebugState (add_events [Invoke; Log "error"] (debug_world debug_replay))
                     (mkDebugCtx "W" 1))
  /\ debug_transaction true "testFunction" (Some write_config) returns_undefined
                       debug_replay_of_0
     = (Returns VUndefined,
        mkDebugState (add_events [Invoke] (debug_world debug_replay_of_0)) (mkDebugCtx "W" 1)).
Proof.
  destruct (X22_debug_replay_of_recorded_output debug_replay "testFunction" write_config
              returns_13 recorded_12 eq_refl (or_intror eq_refl))
    as (Hdirect & _ & _ & _ & Hdiffers & _).
  destruct (X22_debug_replay_of_recorded_output debug_replay "testFunction" write_config
              returns_undefined recorded_12 eq_refl (or_intror eq_refl))
    as (_ & _ & Hkept & _).
  destruct (X22_debug_replay_of_recorded_output debug_replay_of_0 "testFunction" write_config
              returns_undefined recorded_0 eq_refl (or_intror eq_refl))
    as (_ & Hdropped & _).
  split; [reflexivity|]. split; [exact Hdirect|].
  split; [apply (Hdiffers (JNum 13) eq_refl); discriminate|].
  split.
  - apply (Hkept eq_refl). intros [H | [H | [H | H]]]; discriminate H.
  - apply (Hdropped eq_refl). right; right; left. reflexivity.
Defined.

